(** * Strava hiking tracker: a shallow embedding of [strava.py]

    The script refreshes an OAuth token, pages through the athlete's
    activities, keeps the hikes, writes them to a JSON and a CSV snapshot and
    serves both snapshots over two GET endpoints.

    Modelling conventions.
    - Python values that flow through the script (JSON payloads, tokens,
      records) are values of [pyval]; a [dict] is an insertion-ordered
      association list whose keys are distinct.
    - A Python [str] is a Rocq [string] whose characters are read as the code
      points 0..255.
    - Floats are IEEE binary64 ([PrimFloat]), as in CPython.
    - Effects are explicit: a [world] carries the files, the global
      [ACCESS_TOKEN], the clock, the scripted answers of the token endpoint
      and of the console, and the trace of what the script did to the
      outside.  The answers of the activity endpoint are a list that the
      fetch loop consumes, one response per request.
    - A Python exception is a value of [exn]; every operation returns a
      [result] together with the world it leaves behind.
    - The standard library and the packages the script calls ([csv],
      [requests], [flask], [time]) are modelled from their behaviour on the
      calls the script makes.  [repr] of floats and containers, [>] on
      values, the [json] codec and the longest sleep the platform takes are
      parameters ([PyLib]).
    - A text file is written as given (the line separator of the platform is
      a line feed) and read with universal newlines, unless it is opened
      with [newline=''].  The encoding of the platform is taken to hold
      every character.
    - [time.sleep] moves the clock.  It raises [OverflowError] above
      9223372036 seconds, and below that the system refuses ([OSError]) a
      sleep that would end beyond the range of its clock: on Linux, one
      that ends 9223372036 seconds or more after the machine started.
      [sleep_max] stands for the longest sleep the platform takes while the
      script runs; a longer one is taken to be refused.
    - [int()] refuses a literal of more than 4300 digits.  An [int] held by
      a value is one Python has built or decoded, so [str()] of it, which
      has the same bound, does not raise.
    - A request goes out only with a header value that [requests] and
      [http.client] accept.
    - Console output ([print]) is not modelled.
    - The query service is modelled by its two handlers as functions of the
      world; its thread is not modelled. *)

From Stdlib Require Import ZArith List Bool Ascii String Floats DecimalString Lia.
From stdpp Require Import gmap strings.

#[local] Set Warnings "-register-all,-inexact-float".

Local Open Scope string_scope.
Local Open Scope list_scope.
Local Open Scope Z_scope.

(** ** Characters and strings *)

Module PyStr.

Definition code (c : ascii) : Z := Z.of_N (N_of_ascii c).

Definition LF : ascii := "010"%char.
Definition CR : ascii := "013"%char.

(** [str.isspace] on the code points below 256. *)
Definition isspace (c : ascii) : bool :=
  let n := code c in
  ((9 <=? n) && (n <=? 13)) || ((28 <=? n) && (n <=? 32))
  || (n =? 133) || (n =? 160).

(** The white space [int()] skips around a literal. *)
Definition int_isspace (c : ascii) : bool :=
  let n := code c in
  ((9 <=? n) && (n <=? 13)) || (n =? 32) || (n =? 133) || (n =? 160).

Definition isdigit (c : ascii) : bool :=
  let n := code c in (48 <=? n) && (n <=? 57).

Definition digit_value (c : ascii) : Z := code c - 48.

Fixpoint lstrip (p : ascii -> bool) (s : string) : string :=
  match s with
  | EmptyString => EmptyString
  | String c r => if p c then lstrip p r else s
  end.

Fixpoint rstrip (p : ascii -> bool) (s : string) : string :=
  match s with
  | EmptyString => EmptyString
  | String c r =>
      match rstrip p r with
      | EmptyString => if p c then EmptyString else String c EmptyString
      | r' => String c r'
      end
  end.

(** [s.strip()] *)
Definition strip (s : string) : string := rstrip isspace (lstrip isspace s).

(** [c.lower()] on the code points below 256. *)
Definition lower_char (c : ascii) : ascii :=
  let n := code c in
  if ((65 <=? n) && (n <=? 90))
     || ((192 <=? n) && (n <=? 222) && negb (n =? 215))
  then ascii_of_N (Z.to_N (n + 32)) else c.

Fixpoint lower (s : string) : string :=
  match s with
  | EmptyString => EmptyString
  | String c r => String (lower_char c) (lower r)
  end.

(** The digits of a decimal literal after its first digit: digits, each
    optionally preceded by one underscore. *)
Fixpoint int_digits (s : string) (acc : Z) : option Z :=
  match s with
  | EmptyString => Some acc
  | String c r =>
      if isdigit c then int_digits r (10 * acc + digit_value c)
      else if Ascii.eqb c "_" then
        match r with
        | String d r' =>
            if isdigit d then int_digits r' (10 * acc + digit_value d)
            else None
        | EmptyString => None
        end
      else None
  end.

(** [sys.int_info.default_max_str_digits]: the most digits [int()] reads. *)
Definition int_max_str_digits : Z := 4300.

Fixpoint count_digits (s : string) : Z :=
  match s with
  | EmptyString => 0
  | String c r => (if isdigit c then 1 else 0) + count_digits r
  end.

Definition int_unsigned (s : string) : option Z :=
  match s with
  | String c r =>
      if isdigit c then
        if int_max_str_digits <? count_digits s then None
        else int_digits r (digit_value c)
      else None
  | EmptyString => None
  end.

(** [int(s)] for a [str]: [None] stands for [ValueError], that of a text
    that is not a decimal literal or of a literal with more than 4300
    digits, leading zeros included. *)
Definition int_of_str (s : string) : option Z :=
  match rstrip int_isspace (lstrip int_isspace s) with
  | String "+" r => int_unsigned r
  | String "-" r => option_map Z.opp (int_unsigned r)
  | t => int_unsigned t
  end.

(** [str(z)] for an [int]. *)
Definition of_int (z : Z) : string := NilZero.string_of_int (Z.to_int z).

End PyStr.

(** ** Python values *)

(** A dictionary key: a [str], or [None] (the key under which
    [csv.DictReader] files the fields beyond the header). *)
Inductive pykey := KStr (s : string) | KNone.
Coercion KStr : string >-> pykey.

Inductive pyval :=
| PNone
| PBool (b : bool)
| PInt (z : Z)
| PFloat (f : float)
| PStr (s : string)
| PList (l : list pyval)
| PDict (d : list (pykey * pyval)).

(** Python exceptions the script can meet.  [InvalidJSON] is what
    [response.json()] raises on a body that is not JSON, a
    [RequestException] as of requests 2.27; [InvalidHeader] is what
    requests raises for a header it refuses to send, a [RequestException]
    too; [ScriptExhausted] is not a Python exception: it marks a run that
    asked the scripted network for more answers than the script holds. *)
Inductive exn :=
| HTTPError (status : Z)
| InvalidJSON
| InvalidHeader
| KeyError (k : string)
| TypeError
| ValueError
| OverflowError
| OSError
| ZeroDivisionError
| AttributeError
| EOFError
| JSONDecodeError
| CsvError
| ScriptExhausted.

(** [except requests.exceptions.RequestException] *)
Definition is_request_exception (e : exn) : bool :=
  match e with
  | HTTPError _ | InvalidJSON | InvalidHeader => true
  | _ => false
  end.

Inductive result (A : Type) :=
| Val (a : A)
| Exn (e : exn).
Arguments Val {A} a.
Arguments Exn {A} e.

Module Py.

Definition key_eqb (a b : pykey) : bool :=
  match a, b with
  | KStr s, KStr t => String.eqb s t
  | KNone, KNone => true
  | _, _ => false
  end.

Fixpoint dict_lookup (d : list (pykey * pyval)) (k : pykey) : option pyval :=
  match d with
  | [] => None
  | (k', v) :: d' => if key_eqb k' k then Some v else dict_lookup d' k
  end.

(** [d[k] = v]: a present key keeps its place. *)
Fixpoint dict_set (d : list (pykey * pyval)) (k : pykey) (v : pyval)
  : list (pykey * pyval) :=
  match d with
  | [] => [(k, v)]
  | (k', v') :: d' =>
      if key_eqb k' k then (k', v) :: d' else (k', v') :: dict_set d' k v
  end.

(** [bool(v)] *)
Definition truthy (v : pyval) : bool :=
  match v with
  | PNone => false
  | PBool b => b
  | PInt z => negb (z =? 0)
  | PFloat f => negb (PrimFloat.eqb f 0%float)
  | PStr s => negb (String.eqb s "")
  | PList l => match l with [] => false | _ => true end
  | PDict d => match d with [] => false | _ => true end
  end.

(** [v[k]] for a [str] key. *)
Definition getitem (v : pyval) (k : string) : result pyval :=
  match v with
  | PDict d =>
      match dict_lookup d k with
      | Some x => Val x
      | None => Exn (KeyError k)
      end
  | _ => Exn TypeError
  end.

(** [v.get(k, None)] *)
Definition get (v : pyval) (k : string) : result pyval :=
  match v with
  | PDict d =>
      match dict_lookup d k with
      | Some x => Val x
      | None => Val PNone
      end
  | _ => Exn AttributeError
  end.

(** [v == s] for a [str] literal [s]. *)
Definition eq_str (v : pyval) (s : string) : bool :=
  match v with
  | PStr t => String.eqb t s
  | _ => false
  end.

(** [float(z)] for an [int]: correctly rounded, [OverflowError] beyond the
    range of a double. *)
Definition float_of_int (z : Z) : result float :=
  let f := SF2Prim (binary_normalize prec emax z 0 false) in
  if PrimFloat.is_infinity f then Exn OverflowError else Val f.

(** [v / d] for a [float] divisor [d]. *)
Definition truediv (v : pyval) (d : float) : result pyval :=
  let div (f : float) : result pyval :=
    if PrimFloat.eqb d 0%float then Exn ZeroDivisionError
    else Val (PFloat (f / d)%float) in
  match v with
  | PFloat f => div f
  | PInt z =>
      match float_of_int z with
      | Val f => div f
      | Exn e => Exn e
      end
  | PBool b => div (if b then 1%float else 0%float)
  | _ => Exn TypeError
  end.

End Py.

(** What the model takes from the Python runtime, its [json] module and the
    platform without looking inside. *)
Class PyLib := {
  (** [repr(v)], used for values that are not [str], [int], [bool] or
      [None] *)
  py_repr : pyval -> string;
  (** [a > b]; [None] stands for the [TypeError] of operands that do not
      compare *)
  py_gt : pyval -> pyval -> option bool;
  (** [json.dumps(v, indent=4)] *)
  json_dumps : pyval -> string;
  (** [json.loads(s)]; [None] stands for [JSONDecodeError] *)
  json_loads : string -> option pyval;
  (** the empty document is not JSON *)
  json_loads_empty : json_loads "" = None;
  (** the longest [time.sleep] the platform takes, in seconds *)
  sleep_max : Z;
  (** it covers the fifteen minutes the script sleeps, and [time.sleep]
      itself takes no more than 9223372036 seconds *)
  sleep_max_range : 15 * 60 <= sleep_max <= 9223372036
}.

(** [str(v)] *)
Definition py_str `{PyLib} (v : pyval) : string :=
  match v with
  | PStr s => s
  | PNone => "None"
  | PBool true => "True"
  | PBool false => "False"
  | PInt z => PyStr.of_int z
  | _ => py_repr v
  end.

(** ** The outside world *)

Record response := {
  status_code : Z;
  headers : list (string * string);
  (** the body as [response.json()] decodes it; [None] when it is not JSON *)
  body : option pyval
}.

Module Response.

(** [response.headers.get(name)]: header names compare without case. *)
Fixpoint header (hs : list (string * string)) (name : string) : option string :=
  match hs with
  | [] => None
  | (k, v) :: hs' =>
      if String.eqb (PyStr.lower k) (PyStr.lower name) then Some v
      else header hs' name
  end.

(** [response.raise_for_status()] *)
Definition raise_for_status (r : response) : result unit :=
  if (400 <=? status_code r) && (status_code r <? 600)
  then Exn (HTTPError (status_code r)) else Val tt.

(** [response.json()] *)
Definition json (r : response) : result pyval :=
  match body r with
  | Some v => Val v
  | None => Exn InvalidJSON
  end.

End Response.

Inductive event :=
(** [requests.get(url, headers={'Authorization': auth}, params=...)] and the
    status of the answer *)
| EvGet (url auth : string) (after per_page page : Z) (status : Z)
(** [requests.post(url, data=payload)] and the status of the answer *)
| EvPost (url : string) (payload : list (string * option string)) (status : Z)
(** [time.sleep(secs)] *)
| EvSleep (secs : Z)
(** [input(prompt)] and the line the operator typed *)
| EvInput (line : string).

Record world := {
  (** the files of the working directory, by name *)
  files : gmap string string;
  (** the process environment read by [os.getenv] *)
  environ : gmap string string;
  (** the global [ACCESS_TOKEN] *)
  ACCESS_TOKEN : pyval;
  (** [int(time.time())] *)
  clock : Z;
  (** seconds east of UTC of the local time zone, for [time.mktime] *)
  utc_offset : Z;
  (** answers of the token endpoint still to come *)
  posts : list response;
  (** lines the operator will type *)
  stdin : list string;
  (** what the script did so far, oldest first *)
  trace : list event
}.

Definition set_files (fs : gmap string string) (w : world) : world :=
  {| files := fs; environ := environ w; ACCESS_TOKEN := ACCESS_TOKEN w;
     clock := clock w; utc_offset := utc_offset w; posts := posts w;
     stdin := stdin w; trace := trace w |}.

Definition set_ACCESS_TOKEN (t : pyval) (w : world) : world :=
  {| files := files w; environ := environ w; ACCESS_TOKEN := t;
     clock := clock w; utc_offset := utc_offset w; posts := posts w;
     stdin := stdin w; trace := trace w |}.

Definition set_clock (t : Z) (w : world) : world :=
  {| files := files w; environ := environ w; ACCESS_TOKEN := ACCESS_TOKEN w;
     clock := t; utc_offset := utc_offset w; posts := posts w;
     stdin := stdin w; trace := trace w |}.

Definition set_posts (ps : list response) (w : world) : world :=
  {| files := files w; environ := environ w; ACCESS_TOKEN := ACCESS_TOKEN w;
     clock := clock w; utc_offset := utc_offset w; posts := ps;
     stdin := stdin w; trace := trace w |}.

Definition set_stdin (ls : list string) (w : world) : world :=
  {| files := files w; environ := environ w; ACCESS_TOKEN := ACCESS_TOKEN w;
     clock := clock w; utc_offset := utc_offset w; posts := posts w;
     stdin := ls; trace := trace w |}.

Definition log (e : event) (w : world) : world :=
  {| files := files w; environ := environ w; ACCESS_TOKEN := ACCESS_TOKEN w;
     clock := clock w; utc_offset := utc_offset w; posts := posts w;
     stdin := stdin w; trace := trace w ++ [e] |}.

(** ** Computations: state passing with exceptions *)

Definition M (A : Type) : Type := world -> result A * world.

Definition ret {A} (a : A) : M A := fun w => (Val a, w).
Definition raise {A} (e : exn) : M A := fun w => (Exn e, w).
Definition bind {A B} (m : M A) (k : A -> M B) : M B :=
  fun w =>
    match m w with
    | (Val a, w') => k a w'
    | (Exn e, w') => (Exn e, w')
    end.
Definition lift {A} (r : result A) : M A := fun w => (r, w).

Declare Scope py_scope.
Delimit Scope py_scope with py.
Notation "x <- m ;; k" := (bind m (fun x => k))
  (at level 100, m at next level, right associativity) : py_scope.
Notation "m ;;; k" := (bind m (fun _ => k))
  (at level 100, right associativity) : py_scope.
Local Open Scope py_scope.

(** [time.sleep(secs)] for an [int]: the clock moves on by [secs].  A
    negative length is a [ValueError]; a length above 9223372036 does not
    fit the timer of the interpreter, an [OverflowError]; a shorter one that
    the platform does not take is refused by the system, an [OSError]. *)
Definition sleep `{PyLib} (secs : Z) : M unit :=
  fun w =>
    if secs <? 0 then (Exn ValueError, w)
    else if 9223372036 <? secs then (Exn OverflowError, w)
    else if sleep_max <? secs then (Exn OSError, w)
    else (Val tt, log (EvSleep secs) (set_clock (clock w + secs) w)).

(** [input(prompt)]: the next line of the console, [EOFError] at its end. *)
Definition input : M string :=
  fun w =>
    match stdin w with
    | [] => (Exn EOFError, w)
    | l :: ls => (Val l, log (EvInput l) (set_stdin ls w))
    end.

(** [requests.post(url, data=payload)] against the scripted token endpoint. *)
Definition requests_post (url : string) (payload : list (string * option string))
  : M response :=
  fun w =>
    match posts w with
    | [] => (Exn ScriptExhausted, w)
    | r :: rs => (Val r, log (EvPost url payload (status_code r)) (set_posts rs w))
    end.

(** [os.getenv(name)] *)
Definition getenv (name : string) (w : world) : option string :=
  environ w !! name.

(** ** Text files read with universal newlines *)

(** [open(name, 'r')] without [newline='']: every [\r\n] and every lone
    [\r] reads as [\n]. *)
Fixpoint universal_newlines (s : string) : string :=
  match s with
  | EmptyString => EmptyString
  | String c r =>
      if Ascii.eqb c PyStr.CR then
        match r with
        | String d r' =>
            if Ascii.eqb d PyStr.LF then String PyStr.LF (universal_newlines r')
            else String PyStr.LF (universal_newlines r)
        | EmptyString => String PyStr.LF EmptyString
        end
      else String c (universal_newlines r)
  end.

(** Iterating a text file: the lines, each with its newline. *)
Fixpoint lines_of (s : string) : list string :=
  match s with
  | EmptyString => []
  | String c r =>
      if Ascii.eqb c PyStr.LF then String c EmptyString :: lines_of r
      else
        match lines_of r with
        | [] => [String c EmptyString]
        | l :: ls => String c l :: ls
        end
  end.

(** [open(name, 'r')] and [file.read()]: the text of the file, [None] when
    the file does not exist ([FileNotFoundError]). *)
Definition read_file (name : string) (w : world) : option string :=
  option_map universal_newlines (files w !! name).

(** ** Token store *)

Definition REFRESH_TOKEN_FILE : string := "refresh_token.txt".
Definition BASE_URL : string := "https://www.strava.com/api/v3".
Definition GOAL_MILES : Z := 1500.
Definition RUN_INTERVAL : Z := 15 * 60.

(** [open(name, 'w')] followed by [file.write(text)] and the close. *)
Definition write_file (name text : string) : M unit :=
  fun w => (Val tt, set_files (<[name := text]> (files w)) w).

(** [load_refresh_token()]: the stripped contents of the token file, [None]
    when the file does not exist. *)
Definition load_refresh_token : M (option string) :=
  fun w =>
    match read_file REFRESH_TOKEN_FILE w with
    | Some s => (Val (Some (PyStr.strip s)), w)
    | None => (Val None, w)
    end.

(** [save_refresh_token(token)]: opening the file for writing empties it;
    [file.write] takes a [str] only. *)
Definition save_refresh_token (token : pyval) : M unit :=
  write_file REFRESH_TOKEN_FILE "" ;;;
  match token with
  | PStr s => write_file REFRESH_TOKEN_FILE s
  | _ => raise TypeError
  end.

(** ** Auth client *)

Definition token_url : string := BASE_URL +:+ "/oauth/token".

Definition set_global_ACCESS_TOKEN (t : pyval) : M unit :=
  fun w => (Val tt, set_ACCESS_TOKEN t w).

Definition authorization_code_payload (auth_code : string) (w : world)
  : list (string * option string) :=
  [("client_id", getenv "CLIENT_ID" w);
   ("client_secret", getenv "CLIENT_SECRET" w);
   ("code", Some auth_code);
   ("grant_type", Some "authorization_code")].

Definition refresh_token_payload (refresh_token : string) (w : world)
  : list (string * option string) :=
  [("client_id", getenv "CLIENT_ID" w);
   ("client_secret", getenv "CLIENT_SECRET" w);
   ("grant_type", Some "refresh_token");
   ("refresh_token", Some refresh_token)].

(** [reauthorize_app()] *)
Definition reauthorize_app : M pyval :=
  auth_code <- input ;;
  response <- (fun w => requests_post token_url
                          (authorization_code_payload auth_code w) w) ;;
  lift (Response.raise_for_status response) ;;;
  tokens <- lift (Response.json response) ;;
  access <- lift (Py.getitem tokens "access_token") ;;
  set_global_ACCESS_TOKEN access ;;;
  refresh <- lift (Py.getitem tokens "refresh_token") ;;
  save_refresh_token refresh ;;;
  ret access.

(** [refresh_access_token()] *)
Definition refresh_access_token : M pyval :=
  refresh_token <- load_refresh_token ;;
  match refresh_token with
  | None | Some EmptyString => reauthorize_app
  | Some refresh_token =>
      response <- (fun w => requests_post token_url
                              (refresh_token_payload refresh_token w) w) ;;
      if negb (status_code response =? 200) then reauthorize_app
      else
        tokens <- lift (Response.json response) ;;
        access <- lift (Py.getitem tokens "access_token") ;;
        set_global_ACCESS_TOKEN access ;;;
        refresh <- lift (Py.getitem tokens "refresh_token") ;;
        save_refresh_token refresh ;;;
        ret access
  end.

(** ** Activity fetcher *)

Definition activities_url : string := BASE_URL +:+ "/athlete/activities".
Definition max_pages : Z := 50.
Definition per_page : Z := 200.
Definition METERS_PER_MILE : float := 1609.34%float.
Definition rate_limit_fallback : Z := 15 * 60.

(** [{'Authorization': f'Bearer {ACCESS_TOKEN}'}] *)
Definition bearer `{PyLib} (token : pyval) : string := "Bearer " +:+ py_str token.

Module Requests.

(** [[^\r\n]*$]: neither a carriage return nor a line feed up to the end of
    the text, where [$] also stands before a line feed that ends the text. *)
Fixpoint plain_to_end (s : string) : bool :=
  match s with
  | EmptyString => true
  | String c r =>
      if Ascii.eqb c PyStr.LF then
        match r with EmptyString => true | _ => false end
      else if Ascii.eqb c PyStr.CR then false
      else plain_to_end r
  end.

(** The check requests makes of a header value that is a [str], before it
    sends anything: the value matches [^\S[^\r\n]*$|^$]. *)
Definition valid_header_value (v : string) : bool :=
  match v with
  | EmptyString => true
  | String c r =>
      if PyStr.isspace c then
        Ascii.eqb c PyStr.LF && match r with EmptyString => true | _ => false end
      else plain_to_end r
  end.

End Requests.

Module HttpClient.

Definition followed_by (allowed : list ascii) (r : string) : bool :=
  match r with
  | String d _ => existsb (Ascii.eqb d) allowed
  | EmptyString => false
  end.

(** [_is_illegal_header_value], the check of [putheader]: a line feed that no
    space or tab follows, or a carriage return that no space, tab or line
    feed follows. *)
Fixpoint is_illegal_header_value (s : string) : bool :=
  match s with
  | EmptyString => false
  | String c r =>
      (Ascii.eqb c PyStr.LF && negb (followed_by [" "; "009"]%char r))
      || (Ascii.eqb c PyStr.CR
          && negb (followed_by [" "; "009"; PyStr.LF]%char r))
      || is_illegal_header_value r
  end.

End HttpClient.

(** What keeps [requests.get(url, headers={'Authorization': auth}, ...)]
    from sending its request: requests refuses the header value with
    [InvalidHeader]; a value it lets through and [http.client] refuses
    raises the [ValueError] of [putheader]. *)
Definition header_error (auth : string) : option exn :=
  if negb (Requests.valid_header_value auth) then Some InvalidHeader
  else if HttpClient.is_illegal_header_value auth then Some ValueError
  else None.

(** One element of the comprehension: [None] when the filter rejects the
    activity, the projected record otherwise. *)
Definition hike_record (activity : pyval) : result (option pyval) :=
  match Py.getitem activity "type" with
  | Exn e => Exn e
  | Val ty =>
      if negb (Py.eq_str ty "Hike") then Val None
      else
        match Py.getitem activity "id" with
        | Exn e => Exn e
        | Val id =>
        match Py.getitem activity "start_date" with
        | Exn e => Exn e
        | Val date =>
        match Py.getitem activity "type" with
        | Exn e => Exn e
        | Val ty' =>
        match Py.getitem activity "distance" with
        | Exn e => Exn e
        | Val meters =>
        match Py.truediv meters METERS_PER_MILE with
        | Exn e => Exn e
        | Val miles =>
        match Py.get activity "suffer_score" with
        | Exn e => Exn e
        | Val suffer =>
        match Py.get activity "average_heartrate" with
        | Exn e => Exn e
        | Val heart =>
            Val (Some (PDict [(KStr "id", id); (KStr "date", date);
                              (KStr "type", ty'); (KStr "distance", miles);
                              (KStr "suffer_score", suffer);
                              (KStr "average_heartrate", heart)]))
        end end end end end end end
  end.

(** The comprehension over a page, in order; the first exception ends it. *)
Fixpoint hiking_of_list (data : list pyval) : result (list pyval) :=
  match data with
  | [] => Val []
  | activity :: rest =>
      match hike_record activity with
      | Exn e => Exn e
      | Val o =>
          match hiking_of_list rest with
          | Exn e => Exn e
          | Val hs => Val (match o with Some h => h :: hs | None => hs end)
          end
      end
  end.

(** [[... for activity in data if ...]] for a truthy [data]: a list is
    walked; a dict or a string yields strings, whose subscript by ['type']
    is a [TypeError]; anything else is not iterable. *)
Definition hiking_activities (data : pyval) : result (list pyval) :=
  match data with
  | PList l => hiking_of_list l
  | _ => Exn TypeError
  end.

(** [int(response.headers.get('X-RateLimit-Reset', 0))]; [None] stands for
    the [ValueError] of a header that is not an integer literal. *)
Definition reset_time_of (r : response) : option Z :=
  match Response.header (headers r) "X-RateLimit-Reset" with
  | None => Some 0
  | Some s => PyStr.int_of_str s
  end.

(** The [while page <= max_pages] loop of [fetch_activities], one iteration
    per scripted response.  A request whose header cannot be sent raises
    before it takes a response.  Besides the result and the world the loop
    returns the responses it did not ask for. *)
Fixpoint fetch_loop `{PyLib} (gets : list response) (after_timestamp page : Z)
    (auth : string) (activities : list pyval) (w : world) {struct gets}
  : result (list pyval) * list response * world :=
  if page <=? max_pages then
    match header_error auth with
    | Some e => (Exn e, gets, w)
    | None =>
    match gets with
    | [] => (Exn ScriptExhausted, [], w)
    | response :: gets' =>
        let w := log (EvGet activities_url auth after_timestamp per_page page
                        (status_code response)) w in
        if status_code response =? 429 then
          match reset_time_of response with
          | None => (Exn ValueError, gets', w)
          | Some reset_time =>
              let wait_time := Z.max (reset_time - clock w) 0 in
              match sleep (if wait_time =? 0 then rate_limit_fallback
                           else wait_time) w with
              | (Exn e, w) => (Exn e, gets', w)
              | (Val _, w) =>
                  fetch_loop gets' after_timestamp page auth activities w
              end
          end
        else if status_code response =? 401 then
          match refresh_access_token w with
          | (Exn e, w) => (Exn e, gets', w)
          | (Val token, w) =>
              fetch_loop gets' after_timestamp page (bearer token) activities
                (set_ACCESS_TOKEN token w)
          end
        else
          match Response.raise_for_status response with
          | Exn e => (Exn e, gets', w)
          | Val _ =>
              match Response.json response with
              | Exn e => (Exn e, gets', w)
              | Val data =>
                  if negb (Py.truthy data) then (Val activities, gets', w)
                  else
                    match hiking_activities data with
                    | Exn e => (Exn e, gets', w)
                    | Val hikes =>
                        fetch_loop gets' after_timestamp (page + 1) auth
                          (activities ++ hikes) w
                    end
              end
          end
    end
    end
  else (Val activities, gets, w).

(** [fetch_activities(after_timestamp)] *)
Definition fetch_activities `{PyLib} (gets : list response) (after_timestamp : Z)
    (w : world) : result (list pyval) * list response * world :=
  fetch_loop gets after_timestamp 1 (bearer (ACCESS_TOKEN w)) [] w.

(** What one round of the loop of [fetch_activities] leaves: the state of
    the next round, or the end of the loop with what it returns or raises. *)
Inductive step :=
| Continue (page : Z) (auth : string) (activities : list pyval) (w : world)
| Stop (r : result (list pyval)) (w : world).

(** The body of the [while] loop once its request went out, on the response
    the request gets. *)
Definition fetch_step `{PyLib} (response : response) (after_timestamp page : Z)
    (auth : string) (activities : list pyval) (w : world) : step :=
  let w := log (EvGet activities_url auth after_timestamp per_page page
                  (status_code response)) w in
  if status_code response =? 429 then
    match reset_time_of response with
    | None => Stop (Exn ValueError) w
    | Some reset_time =>
        let wait_time := Z.max (reset_time - clock w) 0 in
        match sleep (if wait_time =? 0 then rate_limit_fallback
                     else wait_time) w with
        | (Exn e, w) => Stop (Exn e) w
        | (Val _, w) => Continue page auth activities w
        end
    end
  else if status_code response =? 401 then
    match refresh_access_token w with
    | (Exn e, w) => Stop (Exn e) w
    | (Val token, w) =>
        Continue page (bearer token) activities (set_ACCESS_TOKEN token w)
    end
  else
    match Response.raise_for_status response with
    | Exn e => Stop (Exn e) w
    | Val _ =>
        match Response.json response with
        | Exn e => Stop (Exn e) w
        | Val data =>
            if negb (Py.truthy data) then Stop (Val activities) w
            else
              match hiking_activities data with
              | Exn e => Stop (Exn e) w
              | Val hikes => Continue (page + 1) auth (activities ++ hikes) w
              end
        end
    end.

Definition step_world (s : step) : world :=
  match s with
  | Continue _ _ _ w => w
  | Stop _ w => w
  end.

(** ** The [csv] module, excel dialect *)

Module Csv.

Definition DQUOTE : ascii := "034"%char.
Definition COMMA : ascii := ","%char.
Definition field_limit : Z := 131072.

(** *** Writer *)

Definition special (c : ascii) : bool :=
  Ascii.eqb c COMMA || Ascii.eqb c DQUOTE
  || Ascii.eqb c PyStr.CR || Ascii.eqb c PyStr.LF.

Fixpoint has_special (s : string) : bool :=
  match s with
  | EmptyString => false
  | String c r => special c || has_special r
  end.

(** Every quote character is written twice. *)
Fixpoint double_quotes (s : string) : string :=
  match s with
  | EmptyString => EmptyString
  | String c r =>
      if Ascii.eqb c DQUOTE then String c (String c (double_quotes r))
      else String c (double_quotes r)
  end.

Definition write_field (s : string) : string :=
  if has_special s
  then String DQUOTE (double_quotes s +:+ String DQUOTE EmptyString)
  else s.

Fixpoint join_fields (fs : list string) : string :=
  match fs with
  | [] => EmptyString
  | [f] => write_field f
  | f :: fs' => write_field f +:+ String COMMA (join_fields fs')
  end.

Definition lineterminator : string :=
  String PyStr.CR (String PyStr.LF EmptyString).

(** [writer.writerow(fields)]: a row made of one empty field is written as
    a pair of quotes. *)
Definition writerow (fs : list string) : string :=
  match fs with
  | [EmptyString] => String DQUOTE (String DQUOTE lineterminator)
  | _ => join_fields fs +:+ lineterminator
  end.

(** What the writer makes of a value: [None] is the empty field, a [str]
    is itself, anything else goes through [str()]. *)
Definition field_of `{PyLib} (v : pyval) : string :=
  match v with
  | PNone => EmptyString
  | _ => py_str v
  end.

(** *** Reader *)

Inductive state :=
| START_RECORD
| START_FIELD
| IN_FIELD
| IN_QUOTED_FIELD
| QUOTE_IN_QUOTED_FIELD
| EAT_CRNL.

Record parser := {
  st : state;
  field : string;
  fields : list string
}.

Definition parse_reset : parser :=
  {| st := START_RECORD; field := EmptyString; fields := [] |}.

Definition set_state (s : state) (p : parser) : parser :=
  {| st := s; field := field p; fields := fields p |}.

Definition parse_save_field (p : parser) : parser :=
  {| st := st p; field := EmptyString; fields := fields p ++ [field p] |}.

Definition parse_add_char (c : ascii) (p : parser) : result parser :=
  if field_limit <=? Z.of_nat (String.length (field p)) then Exn CsvError
  else Val {| st := st p; field := field p +:+ String c EmptyString;
              fields := fields p |}.

Definition is_newline (c : ascii) : bool :=
  Ascii.eqb c PyStr.LF || Ascii.eqb c PyStr.CR.

(** [parse_process_char] in the state [START_FIELD] (also reached from
    [START_RECORD] on an ordinary character); [None] is the end-of-line
    mark the reader feeds after each line. *)
Definition process_start_field (c : option ascii) (p : parser) : result parser :=
  match c with
  | None => Val (set_state START_RECORD (parse_save_field p))
  | Some ch =>
      if is_newline ch then Val (set_state EAT_CRNL (parse_save_field p))
      else if Ascii.eqb ch DQUOTE then Val (set_state IN_QUOTED_FIELD p)
      else if Ascii.eqb ch COMMA then Val (parse_save_field p)
      else
        match parse_add_char ch p with
        | Val p' => Val (set_state IN_FIELD p')
        | Exn e => Exn e
        end
  end.

Definition parse_process_char (c : option ascii) (p : parser) : result parser :=
  match st p with
  | START_RECORD =>
      match c with
      | None => Val p
      | Some ch =>
          if is_newline ch then Val (set_state EAT_CRNL p)
          else process_start_field c (set_state START_FIELD p)
      end
  | START_FIELD => process_start_field c p
  | IN_FIELD =>
      match c with
      | None => Val (set_state START_RECORD (parse_save_field p))
      | Some ch =>
          if is_newline ch then Val (set_state EAT_CRNL (parse_save_field p))
          else if Ascii.eqb ch COMMA
          then Val (set_state START_FIELD (parse_save_field p))
          else parse_add_char ch p
      end
  | IN_QUOTED_FIELD =>
      match c with
      | None => Val p
      | Some ch =>
          if Ascii.eqb ch DQUOTE then Val (set_state QUOTE_IN_QUOTED_FIELD p)
          else parse_add_char ch p
      end
  | QUOTE_IN_QUOTED_FIELD =>
      match c with
      | None => Val (set_state START_RECORD (parse_save_field p))
      | Some ch =>
          if Ascii.eqb ch DQUOTE then
            match parse_add_char ch p with
            | Val p' => Val (set_state IN_QUOTED_FIELD p')
            | Exn e => Exn e
            end
          else if Ascii.eqb ch COMMA
          then Val (set_state START_FIELD (parse_save_field p))
          else if is_newline ch
          then Val (set_state EAT_CRNL (parse_save_field p))
          else
            match parse_add_char ch p with
            | Val p' => Val (set_state IN_FIELD p')
            | Exn e => Exn e
            end
      end
  | EAT_CRNL =>
      match c with
      | None => Val (set_state START_RECORD p)
      | Some ch => if is_newline ch then Val p else Exn CsvError
      end
  end.

(** The characters of one line, then the end-of-line mark. *)
Fixpoint process_line (line : string) (p : parser) : result parser :=
  match line with
  | EmptyString => parse_process_char None p
  | String c r =>
      match parse_process_char (Some c) p with
      | Val p' => process_line r p'
      | Exn e => Exn e
      end
  end.

(** All the records of the reader: a record ends when a line leaves the
    parser in [START_RECORD]; input that ends inside a field closes it. *)
Fixpoint read_rows (lines : list string) (p : parser) (rows : list (list string))
  : result (list (list string)) :=
  match lines with
  | [] =>
      if negb (String.eqb (field p) EmptyString)
         || match st p with IN_QUOTED_FIELD => true | _ => false end
      then Val (rows ++ [fields (parse_save_field p)])
      else Val rows
  | line :: rest =>
      match process_line line p with
      | Exn e => Exn e
      | Val p' =>
          match st p' with
          | START_RECORD => read_rows rest parse_reset (rows ++ [fields p'])
          | _ => read_rows rest p' rows
          end
      end
  end.

(** [list(csv.reader(lines))] *)
Definition reader (lines : list string) : result (list (list string)) :=
  read_rows lines parse_reset [].

(** *** DictWriter and DictReader *)

Fixpoint zip_dict (names fs : list string) (d : list (pykey * pyval))
  : list (pykey * pyval) :=
  match names, fs with
  | n :: names', f :: fs' => zip_dict names' fs' (Py.dict_set d (KStr n) (PStr f))
  | _, _ => d
  end.

Fixpoint fill_missing (names : list string) (d : list (pykey * pyval))
  : list (pykey * pyval) :=
  match names with
  | [] => d
  | n :: names' => fill_missing names' (Py.dict_set d (KStr n) PNone)
  end.

(** One row of [DictReader]: the fields under the header's names, the
    fields beyond the header as a list under the key [None], the names
    beyond the row mapped to [None]. *)
Definition row_dict (fieldnames row : list string) : pyval :=
  let d := zip_dict fieldnames row [] in
  let lf := length fieldnames in
  let lr := length row in
  if Nat.ltb lf lr
  then PDict (Py.dict_set d KNone (PList (map PStr (skipn lf row))))
  else if Nat.ltb lr lf then PDict (fill_missing (skipn lr fieldnames) d)
  else PDict d.

Definition is_blank (row : list string) : bool :=
  match row with [] => true | _ => false end.

(** [list(csv.DictReader(lines))]: the first record is the header, blank
    records after it are skipped. *)
Definition DictReader (lines : list string) : result (list pyval) :=
  match reader lines with
  | Exn e => Exn e
  | Val [] => Val []
  | Val (fieldnames :: rows) =>
      Val (map (row_dict fieldnames)
             (List.filter (fun r => negb (is_blank r)) rows))
  end.

Fixpoint keys_within (d : list (pykey * pyval)) (fieldnames : list string) : bool :=
  match d with
  | [] => true
  | (KStr k, _) :: d' =>
      existsb (String.eqb k) fieldnames && keys_within d' fieldnames
  | (KNone, _) :: _ => false
  end.

(** [DictWriter._dict_to_list]: a key outside the header is a
    [ValueError]; a missing key is written as the empty string. *)
Definition dict_to_list `{PyLib} (fieldnames : list string) (rowdict : pyval)
  : result (list string) :=
  match rowdict with
  | PDict d =>
      if keys_within d fieldnames
      then Val (map (fun k => match Py.dict_lookup d (KStr k) with
                              | Some v => field_of v
                              | None => EmptyString
                              end) fieldnames)
      else Exn ValueError
  | _ => Exn AttributeError
  end.

(** [DictWriter.writerows]: the text written and, when a row was refused,
    the exception that ended the writing. *)
Fixpoint writerows `{PyLib} (fieldnames : list string) (rowdicts : list pyval)
  : string * option exn :=
  match rowdicts with
  | [] => (EmptyString, None)
  | d :: rest =>
      match dict_to_list fieldnames d with
      | Exn e => (EmptyString, Some e)
      | Val fs =>
          let '(text, err) := writerows fieldnames rest in
          (writerow fs +:+ text, err)
      end
  end.

End Csv.

(** ** Snapshot writer *)

Definition JSON_FILE : string := "hiking_activities.json".
Definition CSV_FILE : string := "hiking_activities.csv".

Definition fieldnames : list string :=
  ["id"; "date"; "type"; "distance"; "suffer_score"; "average_heartrate"].

(** [write_activities_to_csv(activities, filename)]: the header, then the
    rows; a refused row leaves the file with what was written before it. *)
Definition write_activities_to_csv `{PyLib} (activities : list pyval)
    (filename : string) : M unit :=
  let '(text, err) := Csv.writerows fieldnames activities in
  write_file filename (Csv.writerow fieldnames +:+ text) ;;;
  match err with
  | Some e => raise e
  | None => ret tt
  end.

(** [json.dump(activities, file, indent=4)] into a freshly opened file. *)
Definition write_activities_to_json `{PyLib} (activities : list pyval)
    (filename : string) : M unit :=
  write_file filename (json_dumps (PList activities)).

(** ** Query service *)

Definition not_found (message : string) : pyval * Z :=
  (PDict [(KStr "error", PStr message)], 404).

Definition is_str_key (kv : pykey * pyval) : bool :=
  match fst kv with
  | KStr _ => true
  | KNone => false
  end.

(** Flask serialises with sorted keys: the keys of a dict with more than one
    entry must compare, which [None] and a [str] do not. *)
Definition keys_sortable (d : list (pykey * pyval)) : bool :=
  match d with
  | [] | [_] => true
  | _ => forallb is_str_key d
  end.

Fixpoint sortable (v : pyval) : bool :=
  match v with
  | PList l => forallb sortable l
  | PDict d => keys_sortable d && forallb (fun kv => sortable (snd kv)) d
  | _ => true
  end.

(** [jsonify(v)]: the value that goes into the body, or the [TypeError] of
    keys that cannot be sorted. *)
Definition jsonify (v : pyval) : result pyval :=
  if sortable v then Val v else Exn TypeError.

(** [get_activities()]: the handler of [GET /activities]. *)
Definition get_activities (w : world) : result (pyval * Z) :=
  match read_file CSV_FILE w with
  | None => Val (not_found "Activities file not found.")
  | Some text =>
      match Csv.DictReader (lines_of text) with
      | Exn e => Exn e
      | Val activities =>
          match jsonify (PList activities) with
          | Exn e => Exn e
          | Val body => Val (body, 200)
          end
      end
  end.

(** [get_raw_activities()]: the handler of [GET /raw-activities]. *)
Definition get_raw_activities `{PyLib} (w : world) : result (pyval * Z) :=
  match read_file JSON_FILE w with
  | None => Val (not_found "Raw activities file not found.")
  | Some text =>
      match json_loads text with
      | None => Exn JSONDecodeError
      | Some activities =>
          match jsonify activities with
          | Exn e => Exn e
          | Val body => Val (body, 200)
          end
      end
  end.

(** The status Flask answers with: the handler's, or 500 when the handler
    raised. *)
Definition http_status (r : result (pyval * Z)) : Z :=
  match r with
  | Val (_, status) => status
  | Exn _ => 500
  end.

(** ** Scheduler cycle *)

Module Calendar.

Definition is_leap (y : Z) : bool :=
  ((y mod 4 =? 0) && negb (y mod 100 =? 0)) || (y mod 400 =? 0).

Definition days_in_month (y m : Z) : Z :=
  if m =? 2 then (if is_leap y then 29 else 28)
  else if (m =? 4) || (m =? 6) || (m =? 9) || (m =? 11) then 30 else 31.

(** Days from 1970-01-01 to the given civil date. *)
Definition days_from_civil (y m d : Z) : Z :=
  let y' := if m <=? 2 then y - 1 else y in
  let era := y' / 400 in
  let yoe := y' - era * 400 in
  let doy := (153 * (if 2 <? m then m - 3 else m + 9) + 2) / 5 + d - 1 in
  let doe := yoe * 365 + yoe / 4 - yoe / 100 + doy in
  era * 146097 + doe - 719468.

(** One or two digits as [strptime] reads [%m] and [%d]: the two-digit
    reading first, when it is in range. *)
Definition two_digits (hi : Z) (s : string) : option (Z * string) :=
  match s with
  | String a (String b r) =>
      if PyStr.isdigit a && PyStr.isdigit b
         && (1 <=? 10 * PyStr.digit_value a + PyStr.digit_value b)
         && (10 * PyStr.digit_value a + PyStr.digit_value b <=? hi)
      then Some (10 * PyStr.digit_value a + PyStr.digit_value b, r)
      else if PyStr.isdigit a && (1 <=? PyStr.digit_value a)
      then Some (PyStr.digit_value a, String b r)
      else None
  | String a EmptyString =>
      if PyStr.isdigit a && (1 <=? PyStr.digit_value a)
      then Some (PyStr.digit_value a, EmptyString)
      else None
  | EmptyString => None
  end.

(** [%d] also reads a space followed by one digit. *)
Definition day_digits (s : string) : option (Z * string) :=
  match s with
  | String " " (String b r) =>
      if PyStr.isdigit b && (1 <=? PyStr.digit_value b)
      then Some (PyStr.digit_value b, r) else None
  | _ => two_digits 31 s
  end.

(** [time.strptime(s, '%Y-%m-%d')], as year, month and day. *)
Definition strptime (s : string) : option (Z * Z * Z) :=
  match s with
  | String a (String b (String c (String d (String "-" r)))) =>
      if PyStr.isdigit a && PyStr.isdigit b && PyStr.isdigit c && PyStr.isdigit d
      then
        let y := 1000 * PyStr.digit_value a + 100 * PyStr.digit_value b
                 + 10 * PyStr.digit_value c + PyStr.digit_value d in
        match two_digits 12 r with
        | Some (m, String "-" r') =>
            match day_digits r' with
            | Some (dd, EmptyString) =>
                if (1 <=? y) && (dd <=? days_in_month y m)
                then Some (y, m, dd) else None
            | _ => None
            end
        | _ => None
        end
      else None
  | _ => None
  end.

End Calendar.

(** [date_to_unix_timestamp(date_str)]: local midnight of the date, in
    seconds since the epoch. *)
Definition date_to_unix_timestamp (date_str : string) : M Z :=
  fun w =>
    match Calendar.strptime date_str with
    | Some (y, m, d) =>
        (Val (Calendar.days_from_civil y m d * 86400 - utc_offset w), w)
    | None => (Exn ValueError, w)
    end.

(** The scan of [max(activities, key=lambda x: x['date'], default=None)]
    after its first item. *)
Fixpoint max_by_date `{PyLib} (items : list pyval) (max_item max_key : pyval)
  : result pyval :=
  match items with
  | [] => Val max_item
  | x :: rest =>
      match Py.getitem x "date" with
      | Exn e => Exn e
      | Val k =>
          match py_gt k max_key with
          | None => Exn TypeError
          | Some true => max_by_date rest x k
          | Some false => max_by_date rest max_item max_key
          end
      end
  end.

(** The summary at the end of a cycle; only whether it raises matters, as
    the console is not modelled. *)
Definition log_summary `{PyLib} (activities : list pyval) : M unit :=
  match activities with
  | [] => ret tt
  | x :: rest =>
      k <- lift (Py.getitem x "date") ;;
      most_recent_hike <- lift (max_by_date rest x k) ;;
      _ <- lift (Py.getitem most_recent_hike "distance") ;;
      ret tt
  end.

Definition since_date : string := "2025-01-01".

(** The body of the [try] in [main()]. *)
Definition main_try `{PyLib} (gets : list response) (w : world)
  : result unit * list response * world :=
  match refresh_access_token w with
  | (Exn e, w) => (Exn e, gets, w)
  | (Val token, w) =>
      let w := set_ACCESS_TOKEN token w in
      match date_to_unix_timestamp since_date w with
      | (Exn e, w) => (Exn e, gets, w)
      | (Val after_timestamp, w) =>
          match fetch_activities gets after_timestamp w with
          | (Exn e, gets, w) => (Exn e, gets, w)
          | (Val activities, gets, w) =>
              let '(r, w) :=
                (write_activities_to_json activities JSON_FILE ;;;
                 write_activities_to_csv activities CSV_FILE ;;;
                 log_summary activities) w in
              (r, gets, w)
          end
      end
  end.

(** [main()]: a [RequestException] ends the cycle quietly, any other
    exception leaves [main]. *)
Definition main `{PyLib} (gets : list response) (w : world)
  : result unit * list response * world :=
  match main_try gets w with
  | (Exn e, gets, w) =>
      if is_request_exception e then (Val tt, gets, w) else (Exn e, gets, w)
  | r => r
  end.

(** The loop under [if __name__ == '__main__'], cut after [cycles] rounds:
    [main()], then a sleep of [RUN_INTERVAL]; an exception that leaves
    [main] ends the process. *)
Fixpoint scheduler `{PyLib} (cycles : nat) (gets : list response) (w : world)
  : result unit * list response * world :=
  match cycles with
  | O => (Val tt, gets, w)
  | S n =>
      match main gets w with
      | (Val _, gets, w) => scheduler n gets (snd (sleep RUN_INTERVAL w))
      | (Exn e, gets, w) => (Exn e, gets, w)
      end
  end.

(** ** Vocabulary of the statements *)

Module Spec.

(** Every character of [s] satisfies [p]. *)
Fixpoint all_chars (p : ascii -> bool) (s : string) : bool :=
  match s with
  | EmptyString => true
  | String c r => p c && all_chars p r
  end.

(** [s] does not begin with a character satisfying [p]. *)
Definition clean_start (p : ascii -> bool) (s : string) : bool :=
  match s with
  | EmptyString => true
  | String c _ => negb (p c)
  end.

(** [s] does not end with a character satisfying [p]. *)
Fixpoint clean_end (p : ascii -> bool) (s : string) : bool :=
  match s with
  | EmptyString => true
  | String c EmptyString => negb (p c)
  | String _ r => clean_end p r
  end.

Definition is_get (e : event) : bool :=
  match e with
  | EvGet _ _ _ _ _ _ => true
  | _ => false
  end.

Definition is_post (e : event) : bool :=
  match e with
  | EvPost _ _ _ => true
  | _ => false
  end.

Definition silent (e : event) : bool := false.

Fixpoint payload_field (payload : list (string * option string)) (k : string)
  : option string :=
  match payload with
  | [] => None
  | (k', v) :: rest => if String.eqb k' k then v else payload_field rest k
  end.

(** A request to the token endpoint that trades in a refresh token. *)
Definition is_refresh_exchange (e : event) : bool :=
  match e with
  | EvPost _ payload _ =>
      match payload_field payload "grant_type" with
      | Some g => String.eqb g "refresh_token"
      | None => false
      end
  | _ => false
  end.

(** The status of a page request is one [raise_for_status] rejects and the
    loop does not retry. *)
Definition fatal_status (s : Z) : bool :=
  (400 <=? s) && (s <? 600) && negb (s =? 429) && negb (s =? 401).

Definition fatal_get (e : event) : bool :=
  match e with
  | EvGet _ _ _ _ _ s => fatal_status s
  | _ => false
  end.

(** What the auth client may do to the world between [w] and [w']: it
    appends events that all satisfy [P], among the files it touches the
    token file only, and it leaves the clock, the time zone and the
    environment alone. *)
Definition auth_effect (P : event -> bool) (w w' : world) : Prop :=
  (exists evs, trace w' = trace w ++ evs /\ Forall (fun e => P e = true) evs)
  /\ (forall f, f <> REFRESH_TOKEN_FILE -> files w' !! f = files w !! f)
  /\ clock w' = clock w
  /\ utc_offset w' = utc_offset w
  /\ environ w' = environ w.

Definition respects {A} (P : event -> bool) (m : M A) : Prop :=
  forall w, auth_effect P w (snd (m w)).

Definition not_get (e : event) : bool := negb (is_get e).

Definition not_get_nor_exchange (e : event) : bool :=
  negb (is_get e) && negb (is_refresh_exchange e).

(** The event of requesting [page] with the header [auth] and getting [r]. *)
Definition requested (auth : string) (after_timestamp page : Z) (r : response)
  : event :=
  EvGet activities_url auth after_timestamp per_page page (status_code r).

(** A request with the header [auth] goes out. *)
Definition sendable (auth : string) : bool :=
  match header_error auth with
  | None => true
  | Some _ => false
  end.

(** No character of [s] is a carriage return or a line feed. *)
Definition one_line (s : string) : bool :=
  all_chars (fun c => negb (Ascii.eqb c PyStr.CR || Ascii.eqb c PyStr.LF)) s.


(** *** Activity payloads, in the words of the specification *)

Definition is_hike (a : pyval) : bool :=
  match Py.getitem a "type" with
  | Val t => Py.eq_str t "Hike"
  | Exn _ => false
  end.

(** The distance of a payload in meters, when it is a number that fits a
    double. *)
Definition meters (a : pyval) : option float :=
  match Py.getitem a "distance" with
  | Val (PFloat m) => Some m
  | Val (PInt z) =>
      match Py.float_of_int z with
      | Val m => Some m
      | Exn _ => None
      end
  | _ => None
  end.

Definition has_key (a : pyval) (k : string) : bool :=
  match Py.getitem a k with
  | Val _ => true
  | Exn _ => false
  end.





(** *** Scripts of page exchanges *)

Definition is_401 (r : response) : bool := status_code r =? 401.

(** A response the loop takes as the page itself. *)
Definition served (r : response) : bool :=
  negb (status_code r =? 429) && negb (status_code r =? 401)
  && negb ((400 <=? status_code r) && (status_code r <? 600)).







(** The loop, asking for [page] with the header [auth], gets over the answer
    [r]: the request goes out; a 429 carries a reset time, and the sleep it
    asks for is one the platform takes; a 401 is followed by a call of
    [refresh_access_token()] that returns a token.  What comes back is the
    header and the world of the next request. *)
Definition retry `{PyLib} (after_timestamp page : Z) (r : response)
    (auth : string) (w : world) : option (string * world) :=
  if negb (sendable auth) then None
  else
    let w := log (requested auth after_timestamp page r) w in
    if status_code r =? 429 then
      match reset_time_of r with
      | Some T =>
          match sleep (if T <=? clock w then rate_limit_fallback
                       else T - clock w) w with
          | (Val _, w') => Some (auth, w')
          | (Exn _, _) => None
          end
      | None => None
      end
    else if status_code r =? 401 then
      match refresh_access_token w with
      | (Val token, w') => Some (bearer token, set_ACCESS_TOKEN token w')
      | (Exn _, _) => None
      end
    else None.





(** *** The CSV reader over a whole text *)

(** The reader fed with a text one character at a time: after each line feed
    it also sees the end-of-line mark, and a record is complete when that
    mark leaves the parser in [START_RECORD]. *)
Fixpoint feed (s : string) (p : Csv.parser) (rows : list (list string))
  : result (Csv.parser * list (list string)) :=
  match s with
  | EmptyString => Val (p, rows)
  | String c r =>
      match Csv.parse_process_char (Some c) p with
      | Exn e => Exn e
      | Val p1 =>
          if Ascii.eqb c PyStr.LF then
            match Csv.parse_process_char None p1 with
            | Exn e => Exn e
            | Val p2 =>
                match Csv.st p2 with
                | Csv.START_RECORD =>
                    feed r Csv.parse_reset (rows ++ [Csv.fields p2])
                | _ => feed r p2 rows
                end
            end
          else feed r p1 rows
      end
  end.

(** [s] is empty or ends with a line feed. *)
Fixpoint ends_with_LF (s : string) : bool :=
  match s with
  | EmptyString => true
  | String c EmptyString => Ascii.eqb c PyStr.LF
  | String _ r => ends_with_LF r
  end.

Definition no_CR (s : string) : bool :=
  all_chars (fun c => negb (Ascii.eqb c PyStr.CR)) s.

(** A field the reader takes whole: within the field size limit. *)
Definition fits (f : string) : bool :=
  Z.of_nat (String.length f) <=? Csv.field_limit.

(** A field that survives the trip through the file: no carriage return,
    within the field size limit. *)
Definition field_ok (f : string) : bool := no_CR f && fits f.

(** *** Activity records of the data model *)










(** The text [writer.writerow] produces for each row, one after the other. *)
Fixpoint rows_text (rows : list (list string)) : string :=
  match rows with
  | [] => EmptyString
  | row :: rest => Csv.writerow row +:+ rows_text rest
  end.

(** What [writerow] writes before the line terminator. *)
Definition row_body (row : list string) : string :=
  match row with
  | [EmptyString] => String Csv.DQUOTE (String Csv.DQUOTE EmptyString)
  | _ => Csv.join_fields row
  end.

(** The parser is at the start of a field. *)
Definition at_field_start (p : Csv.parser) : Prop :=
  (Csv.st p = Csv.START_FIELD \/ Csv.st p = Csv.START_RECORD)
  /\ Csv.field p = EmptyString.

(** The parser after it read the field [f], written by [write_field], from
    the field start [p], before it sees what ends the field. *)
Definition after_field (f : string) (p : Csv.parser) : Csv.parser :=
  if Csv.has_special f
  then {| Csv.st := Csv.QUOTE_IN_QUOTED_FIELD; Csv.field := f;
          Csv.fields := Csv.fields p |}
  else match f with
       | EmptyString => p
       | _ => {| Csv.st := Csv.IN_FIELD; Csv.field := f;
                 Csv.fields := Csv.fields p |}
       end.

End Spec.

(** ** Sample data for the worked examples *)

Module Sample.

(** A small stand-in for the runtime parameters: [repr] of the two floats
    the examples meet, [>] on strings, the JSON documents [[]] and [null],
    and a platform that takes sleeps of up to 9000000000 seconds. *)
Definition lib : PyLib :=
  {| py_repr := fun v =>
       match v with
       | PFloat f =>
           if PrimFloat.eqb f 1%float then "1.0"
           else if PrimFloat.eqb f 2%float then "2.0" else "nan"
       | _ => "[]"
       end;
     py_gt := fun a b =>
       match a, b with
       | PStr s, PStr t => Some (negb (String.leb s t))
       | _, _ => None
       end;
     json_dumps := fun v =>
       match v with
       | PList [] => "[]"
       | PNone => "null"
       | _ => "{}"
       end;
     json_loads := fun s =>
       if String.eqb s "[]" then Some (PList [])
       else if String.eqb s "null" then Some PNone else None;
     json_loads_empty := eq_refl;
     sleep_max := 9000000000;
     sleep_max_range :=
       conj (Zle_bool_imp_le (15 * 60) 9000000000 eq_refl)
            (Zle_bool_imp_le 9000000000 9223372036 eq_refl) |}.

Definition token_response (access refresh : string) : response :=
  {| status_code := 200; headers := [];
     body := Some (PDict [(KStr "access_token", PStr access);
                          (KStr "refresh_token", PStr refresh)]) |}.

Definition page (activities : list pyval) : response :=
  {| status_code := 200; headers := []; body := Some (PList activities) |}.

Definition status_only (status : Z) (hs : list (string * string)) : response :=
  {| status_code := status; headers := hs; body := None |}.

Definition activity (id : Z) (type : string) (meters : float) : pyval :=
  PDict [(KStr "id", PInt id);
         (KStr "start_date", PStr "2025-02-01T10:00:00Z");
         (KStr "type", PStr type);
         (KStr "distance", PFloat meters)].

Definition rate_limited (reset : string) : response :=
  status_only 429 [("X-RateLimit-Reset", reset)].

Definition world_with (fs : gmap string string) (ps : list response)
    (console : list string) : world :=
  {| files := fs; environ := ∅; ACCESS_TOKEN := PStr "a0"; clock := 1000;
     utc_offset := 0; posts := ps; stdin := console; trace := [] |}.

(** The activity record the fetcher makes of [activity id "Hike" _]. *)
Definition hike (id : Z) (miles : float) : pyval :=
  PDict [(KStr "id", PInt id);
         (KStr "date", PStr "2025-02-01T10:00:00Z");
         (KStr "type", PStr "Hike");
         (KStr "distance", PFloat miles);
         (KStr "suffer_score", PNone);
         (KStr "average_heartrate", PNone)].

(** A page of three activities, two of them hikes of 1609.34 m and
    3218.68 m. *)
Definition three_activities : list pyval :=
  [activity 1 "Hike" 1609.34%float;
   activity 2 "Run" 5000%float;
   activity 3 "Hike" 3218.68%float].

(** A start date that ends with a carriage return. *)
Definition date_with_cr : string :=
  "2025-02-01T10:00:00Z" +:+ String PyStr.CR EmptyString.

(** A hike whose start date ends with a carriage return, as the activity
    endpoint may send it, and the record the fetcher makes of it. *)
Definition activity_with_cr : pyval :=
  PDict [(KStr "id", PInt 1);
         (KStr "start_date", PStr date_with_cr);
         (KStr "type", PStr "Hike");
         (KStr "distance", PFloat 1609.34%float)].

Definition hike_with_cr : pyval :=
  PDict [(KStr "id", PInt 1);
         (KStr "date", PStr date_with_cr);
         (KStr "type", PStr "Hike");
         (KStr "distance", PFloat 1%float);
         (KStr "suffer_score", PNone);
         (KStr "average_heartrate", PNone)].

(** A world with no files, no pending answers, the clock at 1000. *)
Definition idle : world := world_with ∅ [] [].

End Sample.

(** ** Vocabulary and sample data of the further properties *)

Module Shape.

(** An activity record as the fetcher builds it: the six fields in the order
    of the CSV header, the type ["Hike"], the distance a float. *)
Definition is_record (v : pyval) : bool :=
  match v with
  | PDict [(k1, _); (k2, _); (k3, ty); (k4, PFloat _); (k5, _); (k6, _)] =>
      Py.key_eqb k1 "id" && Py.key_eqb k2 "date" && Py.key_eqb k3 "type"
      && Py.key_eqb k4 "distance" && Py.key_eqb k5 "suffer_score"
      && Py.key_eqb k6 "average_heartrate" && Py.eq_str ty "Hike"
  | _ => false
  end.

(** An event of the auth client: a request to the token endpoint or a line
    read from the console. *)
Definition auth_event (e : event) : bool :=
  match e with
  | EvPost url _ _ => String.eqb url token_url
  | EvInput _ => true
  | _ => false
  end.

(** What a fetch for the activities after [after_timestamp] may do: ask the
    activity endpoint for one of the pages 1 to 50 of that listing, 200
    activities a page; sleep for a second or more; use the auth client. *)
Definition fetch_event (after_timestamp : Z) (e : event) : bool :=
  match e with
  | EvGet url _ after pp page _ =>
      String.eqb url activities_url && (after =? after_timestamp)
      && (pp =? per_page) && (1 <=? page) && (page <=? max_pages)
  | EvSleep secs => 1 <=? secs
  | _ => auth_event e
  end.

(** The page numbers of the requests among the events, oldest first. *)
Fixpoint pages (evs : list event) : list Z :=
  match evs with
  | [] => []
  | EvGet _ _ _ _ page _ :: rest => page :: pages rest
  | _ :: rest => pages rest
  end.

(** Each page number is the one before it, or the next. *)
Fixpoint in_step (prev : Z) (ps : list Z) : bool :=
  match ps with
  | [] => true
  | p :: rest => ((p =? prev) || (p =? prev + 1)) && in_step p rest
  end.

(** The page numbers start at [first] and go on in step. *)
Definition from_page (first : Z) (ps : list Z) : bool :=
  match ps with
  | [] => true
  | p :: rest => (p =? first) && in_step p rest
  end.

(** A request that carries the header [auth], or a sleep. *)
Definition quiet_event (auth : string) (e : event) : bool :=
  match e with
  | EvGet _ a _ _ _ _ => String.eqb a auth
  | EvSleep _ => true
  | _ => false
  end.

(** A hike that lacks one of the keys the fetcher subscripts. *)
Definition incomplete_hike (a : pyval) : bool :=
  Spec.is_hike a
  && negb (Spec.has_key a "id" && Spec.has_key a "start_date"
           && Spec.has_key a "distance").

(** Local midnight of [since_date], the cutoff of every cycle. *)
Definition cutoff (w : world) : Z := 1735689600 - utc_offset w.

(** The files the program works with. *)
Definition program_file (f : string) : bool :=
  String.eqb f REFRESH_TOKEN_FILE || String.eqb f JSON_FILE
  || String.eqb f CSV_FILE.

(** A record whose date is a [str]. *)
Definition dated (a : pyval) : bool :=
  match Py.getitem a "date" with
  | Val (PStr _) => true
  | _ => false
  end.

End Shape.

Module Cases.

(** A hike as the activity endpoint might send it, without its distance. *)
Definition hike_without_distance : pyval :=
  PDict [(KStr "id", PInt 7);
         (KStr "start_date", PStr "2025-03-01T08:00:00Z");
         (KStr "type", PStr "Hike")].

(** A world whose token file holds [token]. *)
Definition stored (token : string) (answers : list response)
    (console : list string) : world :=
  Sample.world_with {[ REFRESH_TOKEN_FILE := token ]} answers console.

(** The character [c], [n] times. *)
Fixpoint repeated (c : ascii) (n : nat) : string :=
  match n with
  | O => EmptyString
  | S n' => String c (repeated c n')
  end.





(** The rows the CSV writer makes of [Sample.hike 1 1] and [Sample.hike 3 2]
    with the sample [repr]. *)
Definition two_rows : list (list string) :=
  [["1"; "2025-02-01T10:00:00Z"; "Hike"; "1.0"; ""; ""];
   ["3"; "2025-02-01T10:00:00Z"; "Hike"; "2.0"; ""; ""]].

End Cases.

(** * Properties *)

(** ** Strings *)

Lemma append_cons c s t : String c s +:+ t = String c (s +:+ t).
Proof. reflexivity. Qed.

Lemma append_nil_l t : EmptyString +:+ t = t.
Proof. reflexivity. Qed.

Lemma lstrip_split p s :
  exists pre, s = pre +:+ PyStr.lstrip p s
              /\ Spec.all_chars p pre = true
              /\ Spec.clean_start p (PyStr.lstrip p s) = true.
Proof.
  induction s as [|c r IH]; simpl.
  - exists EmptyString. auto.
  - destruct (p c) eqn:Hc.
    + destruct IH as (pre & E & A & S).
      exists (String c pre). rewrite append_cons. simpl. rewrite Hc, A.
      split; [f_equal; exact E | auto].
    + exists EmptyString. rewrite append_nil_l. simpl. rewrite Hc. auto.
Qed.

Lemma rstrip_split p s :
  exists post, s = PyStr.rstrip p s +:+ post
               /\ Spec.all_chars p post = true
               /\ Spec.clean_end p (PyStr.rstrip p s) = true.
Proof.
  induction s as [|c r IH]; simpl.
  - exists EmptyString. auto.
  - destruct IH as (post & E & A & S).
    destruct (PyStr.rstrip p r) as [|d r'] eqn:Hr.
    + rewrite append_nil_l in E. subst post. destruct (p c) eqn:Hc.
      * exists (String c r). rewrite append_nil_l. simpl. rewrite Hc. auto.
      * exists r. rewrite append_cons, append_nil_l. simpl. rewrite Hc. auto.
    + exists post. split; [|split; auto].
      rewrite append_cons. f_equal. exact E.
Qed.

Lemma rstrip_clean_start p s :
  Spec.clean_start p s = true -> Spec.clean_start p (PyStr.rstrip p s) = true.
Proof.
  destruct s as [|c r]; simpl; auto.
  intros Hc. destruct (PyStr.rstrip p r); [| exact Hc].
  destruct (p c) eqn:E; simpl; [reflexivity | rewrite E; reflexivity].
Qed.

(** [strip] removes a run of white space at each end and nothing else, and
    what it returns neither begins nor ends with white space. *)
Lemma strip_spec s :
  exists pre post,
    s = pre +:+ PyStr.strip s +:+ post
    /\ Spec.all_chars PyStr.isspace pre = true
    /\ Spec.all_chars PyStr.isspace post = true
    /\ Spec.clean_start PyStr.isspace (PyStr.strip s) = true
    /\ Spec.clean_end PyStr.isspace (PyStr.strip s) = true.
Proof.
  unfold PyStr.strip.
  destruct (lstrip_split PyStr.isspace s) as (pre & E1 & A1 & S1).
  destruct (rstrip_split PyStr.isspace (PyStr.lstrip PyStr.isspace s))
    as (post & E2 & A2 & S2).
  exists pre, post. repeat split; auto.
  - rewrite <- E2. exact E1.
  - apply rstrip_clean_start. exact S1.
Qed.

(** ** Effects of the auth client *)

Lemma bind_eq {A B} (m : M A) (k : A -> M B) w :
  bind m k w = match m w with
               | (Val a, w') => k a w'
               | (Exn e, w') => (Exn e, w')
               end.
Proof. reflexivity. Qed.

Section AuthEffects.

Variable P : event -> bool.

Lemma auth_effect_refl w : Spec.auth_effect P w w.
Proof.
  repeat split; auto. exists []. split; [symmetry; apply app_nil_r | constructor].
Qed.

Lemma auth_effect_trans w1 w2 w3 :
  Spec.auth_effect P w1 w2 -> Spec.auth_effect P w2 w3 -> Spec.auth_effect P w1 w3.
Proof.
  intros ((e1 & T1 & F1) & Fi1 & C1 & U1 & E1) ((e2 & T2 & F2) & Fi2 & C2 & U2 & E2).
  repeat split; try congruence.
  - exists (e1 ++ e2). split.
    + rewrite T2, T1. symmetry. apply app_assoc.
    + apply Forall_app. split; assumption.
  - intros f Hf. rewrite Fi2, Fi1; auto.
Qed.

Lemma respects_ret {A} (a : A) : Spec.respects P (ret a).
Proof. intros w. apply auth_effect_refl. Qed.

Lemma respects_raise {A} e : Spec.respects P (@raise A e).
Proof. intros w. apply auth_effect_refl. Qed.

Lemma respects_lift {A} (r : result A) : Spec.respects P (lift r).
Proof. intros w. apply auth_effect_refl. Qed.

Lemma respects_bind {A B} (m : M A) (k : A -> M B) :
  Spec.respects P m -> (forall a, Spec.respects P (k a)) ->
  Spec.respects P (bind m k).
Proof.
  intros Hm Hk w. unfold bind. specialize (Hm w).
  destruct (m w) as [[a|e] w1]; simpl in *.
  - eapply auth_effect_trans; [exact Hm | apply Hk].
  - exact Hm.
Qed.

Lemma respects_log_step {A} (r : result A) (e : event) (f : world -> world) :
  P e = true ->
  (forall w, files (f w) = files w /\ clock (f w) = clock w
             /\ utc_offset (f w) = utc_offset w /\ environ (f w) = environ w
             /\ trace (f w) = trace w) ->
  forall w, Spec.auth_effect P w (log e (f w)).
Proof.
  intros He Hf w. destruct (Hf w) as (F & C & U & E & T).
  repeat split; simpl; try congruence.
  exists [e]. split; [congruence | repeat constructor; exact He].
Qed.

Lemma respects_input : P (EvInput EmptyString) = true ->
  (forall l, P (EvInput l) = P (EvInput EmptyString)) ->
  Spec.respects P input.
Proof.
  intros H0 Hl w. unfold input. destruct (stdin w) as [|l ls]; simpl.
  - apply auth_effect_refl.
  - apply (respects_log_step (Val l) (EvInput l) (set_stdin ls)).
    + rewrite Hl. exact H0.
    + intros w0. simpl. auto.
Qed.

Lemma respects_post url (payload : world -> list (string * option string)) :
  (forall w s, P (EvPost url (payload w) s) = true) ->
  Spec.respects P (fun w => requests_post url (payload w) w).
Proof.
  intros HP w. unfold requests_post. destruct (posts w) as [|r rs]; simpl.
  - apply auth_effect_refl.
  - apply (respects_log_step (Val r) _ (set_posts rs)).
    + apply HP.
    + intros w0. simpl. auto.
Qed.

Lemma respects_set_token t : Spec.respects P (set_global_ACCESS_TOKEN t).
Proof.
  intros w. repeat split; simpl; auto.
  exists []. split; [symmetry; apply app_nil_r | constructor].
Qed.

Lemma respects_write_token s : Spec.respects P (write_file REFRESH_TOKEN_FILE s).
Proof.
  intros w. repeat split; simpl; auto.
  - exists []. split; [symmetry; apply app_nil_r | constructor].
  - intros f Hf. apply lookup_insert_ne. congruence.
Qed.

Lemma respects_save token : Spec.respects P (save_refresh_token token).
Proof.
  unfold save_refresh_token. apply respects_bind.
  - apply respects_write_token.
  - intros _. destruct token; try apply respects_raise. apply respects_write_token.
Qed.

End AuthEffects.

Lemma respects_reauthorize_app :
  Spec.respects Spec.not_get_nor_exchange reauthorize_app.
Proof.
  unfold reauthorize_app.
  apply respects_bind; [apply respects_input; reflexivity |]. intros code.
  apply respects_bind; [apply respects_post; reflexivity |]. intros resp.
  apply respects_bind; [apply respects_lift |]. intros _.
  apply respects_bind; [apply respects_lift |]. intros tokens.
  apply respects_bind; [apply respects_lift |]. intros access.
  apply respects_bind; [apply respects_set_token |]. intros _.
  apply respects_bind; [apply respects_lift |]. intros refresh.
  apply respects_bind; [apply respects_save |]. intros _.
  apply respects_ret.
Qed.

Lemma respects_weaken {A} (P Q : event -> bool) (m : M A) :
  (forall e, P e = true -> Q e = true) -> Spec.respects P m -> Spec.respects Q m.
Proof.
  intros HPQ Hm w. destruct (Hm w) as ((evs & T & F) & R).
  split; [|exact R]. exists evs. split; [exact T|].
  eapply Forall_impl; [exact F|]. simpl. auto.
Qed.

Lemma respects_refresh_access_token :
  Spec.respects Spec.not_get refresh_access_token.
Proof.
  assert (Hre : Spec.respects Spec.not_get reauthorize_app).
  { eapply respects_weaken; [|apply respects_reauthorize_app].
    intros e. unfold Spec.not_get_nor_exchange, Spec.not_get.
    intros H. apply andb_true_iff in H. tauto. }
  unfold refresh_access_token.
  apply respects_bind.
  { intros w. unfold load_refresh_token.
    destruct (read_file REFRESH_TOKEN_FILE w); apply auth_effect_refl. }
  intros [[|c tok]|]; try exact Hre.
  apply respects_bind; [apply respects_post; reflexivity |]. intros resp.
  destruct (negb (status_code resp =? 200)); [exact Hre|].
  apply respects_bind; [apply respects_lift |]. intros tokens.
  apply respects_bind; [apply respects_lift |]. intros access.
  apply respects_bind; [apply respects_set_token |]. intros _.
  apply respects_bind; [apply respects_lift |]. intros refresh.
  apply respects_bind; [apply respects_save |]. intros _.
  apply respects_ret.
Qed.

(** ** Successful token exchanges *)

Ltac break_hyp H :=
  repeat match type of H with
         | context [match ?x with _ => _ end] => destruct x eqn:?
         | (_, _) = (_, _) => inversion H; subst; clear H
         | Val _ = Val _ => inversion H; subst; clear H
         end.

Lemma reauthorize_app_success w access w' :
  reauthorize_app w = (Val access, w') ->
  exists r tokens t,
    posts w = r :: posts w'
    /\ body r = Some tokens
    /\ Py.getitem tokens "access_token" = Val access
    /\ Py.getitem tokens "refresh_token" = Val (PStr t)
    /\ files w' !! REFRESH_TOKEN_FILE = Some t
    /\ ACCESS_TOKEN w' = access.
Proof.
  intros H.
  unfold reauthorize_app, bind, lift, ret, raise, input, requests_post,
    save_refresh_token, write_file, set_global_ACCESS_TOKEN, Response.json in H.
  break_hyp H.
  break_hyp Heqp; break_hyp Heqp0; break_hyp Heqr3; try discriminate.
  unfold bind, raise in Heqp1. destruct a4; try discriminate.
  inversion Heqp1; subst; clear Heqp1.
  exists a0, a2, s. simpl. repeat split; auto.
  apply lookup_insert_eq.
Qed.

Lemma refresh_access_token_success w access w' :
  refresh_access_token w = (Val access, w') ->
  exists consumed r tokens t,
    posts w = consumed ++ r :: posts w'
    /\ body r = Some tokens
    /\ Py.getitem tokens "access_token" = Val access
    /\ Py.getitem tokens "refresh_token" = Val (PStr t)
    /\ files w' !! REFRESH_TOKEN_FILE = Some t
    /\ ACCESS_TOKEN w' = access.
Proof.
  intros H.
  assert (Hre : forall w0, posts w0 = posts w ->
                  reauthorize_app w0 = (Val access, w') ->
                  exists consumed r tokens t,
                    posts w = consumed ++ r :: posts w'
                    /\ body r = Some tokens
                    /\ Py.getitem tokens "access_token" = Val access
                    /\ Py.getitem tokens "refresh_token" = Val (PStr t)
                    /\ files w' !! REFRESH_TOKEN_FILE = Some t
                    /\ ACCESS_TOKEN w' = access).
  { intros w0 Hp H0. apply reauthorize_app_success in H0.
    destruct H0 as (r & tokens & t & Hposts & Hrest).
    exists [], r, tokens, t. rewrite <- Hp. auto. }
  unfold refresh_access_token, bind, load_refresh_token in H.
  destruct (read_file REFRESH_TOKEN_FILE w) as [s|]; [|eauto].
  destruct (PyStr.strip s) as [|c tok] eqn:Hs; [eauto|].
  unfold requests_post in H.
  destruct (posts w) as [|r rs] eqn:Hposts; [discriminate|].
  destruct (negb (status_code r =? 200)).
  - apply reauthorize_app_success in H.
    destruct H as (r' & tokens & t & Hp & Hrest). simpl in Hp.
    exists [r], r', tokens, t. rewrite Hp. auto.
  - unfold bind, lift, ret, raise, save_refresh_token, write_file,
      set_global_ACCESS_TOKEN, Response.json in H.
    break_hyp H.
    unfold bind, raise in Heqp. destruct a1; try discriminate.
    inversion Heqp; subst; clear Heqp.
    break_hyp Heqr0; try discriminate.
    exists [], r, a, s0. simpl. repeat split; auto.
    apply lookup_insert_eq.
Qed.

(** ** C3, C9, C10: the token store and the auth client *)

(** One call of [reauthorize_app()] prompts the operator at most once and
    sends at most one request, an authorization-code exchange. *)
Lemma reauthorize_app_events w :
  exists evs,
    trace (snd (reauthorize_app w)) = trace w ++ evs
    /\ Forall (fun e => Spec.is_refresh_exchange e = false) evs
    /\ (length (List.filter Spec.is_post evs) <= 1)%nat.
Proof.
  assert (Hnil : trace w = trace w ++ []) by (symmetry; apply app_nil_r).
  unfold reauthorize_app. rewrite bind_eq. unfold input.
  destruct (stdin w) as [|l ls].
  { exists []. split; [exact Hnil | split; [constructor | simpl; lia]]. }
  rewrite bind_eq. unfold requests_post. cbn [posts log set_stdin].
  destruct (posts w) as [|r rs].
  { exists [EvInput l]. split; [reflexivity | split; [repeat constructor | simpl; lia]]. }
  match goal with
  | |- context [trace (snd (?m ?w1))] =>
      assert (Hm : Spec.respects Spec.silent m);
        [|destruct (Hm w1) as ((evs & T & F) & _)]
  end.
  { apply respects_bind; [apply respects_lift |]. intros _.
    apply respects_bind; [apply respects_lift |]. intros tokens.
    apply respects_bind; [apply respects_lift |]. intros access.
    apply respects_bind; [apply respects_set_token |]. intros _.
    apply respects_bind; [apply respects_lift |]. intros refresh.
    apply respects_bind; [apply respects_save |]. intros _.
    apply respects_ret. }
  destruct evs as [|e evs]; [|inversion F; discriminate].
  rewrite app_nil_r in T. rewrite T. cbn [trace log set_posts set_stdin].
  eexists. split; [rewrite <- app_assoc; reflexivity|].
  split; [repeat constructor | simpl; lia].
Qed.

Lemma refresh_delegates_events w :
  refresh_access_token w = reauthorize_app w ->
  exists evs, trace (snd (refresh_access_token w)) = trace w ++ evs
              /\ Forall (fun e => Spec.is_refresh_exchange e = false) evs
              /\ (length (List.filter Spec.is_post evs) <= 1)%nat.
Proof. intros ->. apply reauthorize_app_events. Qed.

(** C3: when the token file does not exist, [refresh_access_token()] is one
    call of [reauthorize_app()] -- same returned access token, same final
    world --; it sends at most one request to the token endpoint, and no
    request it sends is a refresh-token exchange. *)
Theorem C3_refresh_without_token_reauthorizes (w : world) :
  files w !! REFRESH_TOKEN_FILE = None ->
  refresh_access_token w = reauthorize_app w
  /\ exists evs, trace (snd (refresh_access_token w)) = trace w ++ evs
                 /\ Forall (fun e => Spec.is_refresh_exchange e = false) evs
                 /\ (length (List.filter Spec.is_post evs) <= 1)%nat.
Proof.
  intros Hf.
  assert (E : refresh_access_token w = reauthorize_app w).
  { unfold refresh_access_token, bind, load_refresh_token, read_file.
    rewrite Hf. reflexivity. }
  split; [exact E | apply refresh_delegates_events; exact E].
Qed.

Lemma C3_witness :
  let w := Sample.world_with ∅ [Sample.token_response "a1" "r1"] ["code"] in
  fst (refresh_access_token w) = Val (PStr "a1")
  /\ refresh_access_token w = reauthorize_app w.
Proof.
  split; [reflexivity|].
  apply (C3_refresh_without_token_reauthorizes
           (Sample.world_with ∅ [Sample.token_response "a1" "r1"] ["code"])).
  reflexivity.
Defined.

(** C9: when [reauthorize_app()] or [refresh_access_token()] returns an
    access token, the token file holds the refresh token of the last answer
    of the token endpoint, and the returned access token is the one of that
    same answer. *)
Theorem C9_refresh_token_persisted (w w' : world) (access : pyval) :
  reauthorize_app w = (Val access, w')
  \/ refresh_access_token w = (Val access, w') ->
  exists consumed r tokens t,
    posts w = consumed ++ r :: posts w'
    /\ body r = Some tokens
    /\ Py.getitem tokens "access_token" = Val access
    /\ Py.getitem tokens "refresh_token" = Val (PStr t)
    /\ files w' !! REFRESH_TOKEN_FILE = Some t
    /\ ACCESS_TOKEN w' = access.
Proof.
  intros [H|H].
  - apply reauthorize_app_success in H.
    destruct H as (r & tokens & t & Hp & Hrest).
    exists [], r, tokens, t. auto.
  - apply refresh_access_token_success. exact H.
Qed.

Lemma C9_witness :
  let w := Sample.world_with {[ REFRESH_TOKEN_FILE := "r0" ]}
             [Sample.status_only 400 []; Sample.token_response "a2" "r2"]
             ["code"] in
  let w' := snd (refresh_access_token w) in
  exists consumed r tokens t,
    posts w = consumed ++ r :: posts w'
    /\ body r = Some tokens
    /\ Py.getitem tokens "access_token" = Val (PStr "a2")
    /\ Py.getitem tokens "refresh_token" = Val (PStr t)
    /\ files w' !! REFRESH_TOKEN_FILE = Some t
    /\ ACCESS_TOKEN w' = PStr "a2".
Proof.
  intros w w'.
  apply (C9_refresh_token_persisted w w' (PStr "a2")).
  right. vm_compute. reflexivity.
Defined.

(** C10: [load_refresh_token()] returns the text of the token file without
    the white space at either end, and when nothing is left
    [refresh_access_token()] does what it does for a missing file: it is one
    call of [reauthorize_app()], with no refresh-token exchange. *)
Theorem C10_blank_token_file (w : world) (s : string) :
  read_file REFRESH_TOKEN_FILE w = Some s ->
  (load_refresh_token w = (Val (Some (PyStr.strip s)), w)
   /\ exists pre post,
        s = pre +:+ PyStr.strip s +:+ post
        /\ Spec.all_chars PyStr.isspace pre = true
        /\ Spec.all_chars PyStr.isspace post = true
        /\ Spec.clean_start PyStr.isspace (PyStr.strip s) = true
        /\ Spec.clean_end PyStr.isspace (PyStr.strip s) = true)
  /\ (PyStr.strip s = EmptyString ->
      refresh_access_token w = reauthorize_app w
      /\ exists evs, trace (snd (refresh_access_token w)) = trace w ++ evs
                     /\ Forall (fun e => Spec.is_refresh_exchange e = false) evs
                     /\ (length (List.filter Spec.is_post evs) <= 1)%nat).
Proof.
  intros Hf. split.
  - split; [|apply strip_spec].
    unfold load_refresh_token. rewrite Hf. reflexivity.
  - intros Hs.
    assert (E : refresh_access_token w = reauthorize_app w).
    { unfold refresh_access_token, bind, load_refresh_token.
      rewrite Hf, Hs. reflexivity. }
    split; [exact E | apply refresh_delegates_events; exact E].
Qed.

Lemma C10_witness :
  let blank := String PyStr.LF "  " in
  let w := Sample.world_with {[ REFRESH_TOKEN_FILE := blank ]}
             [Sample.token_response "a1" "r1"] ["code"] in
  PyStr.strip blank = EmptyString
  /\ load_refresh_token w = (Val (Some (PyStr.strip blank)), w)
  /\ refresh_access_token w = reauthorize_app w.
Proof.
  intros blank w.
  pose proof (C10_blank_token_file w blank eq_refl) as [[Hload _] Hblank].
  split; [reflexivity|]. split; [exact Hload|].
  apply Hblank. reflexivity.
Defined.

(** ** The fetch loop, one response at a time *)

Lemma sendable_error auth : Spec.sendable auth = true <-> header_error auth = None.
Proof.
  unfold Spec.sendable. destruct (header_error auth); split; congruence.
Qed.

Lemma one_line_sendable s :
  Spec.one_line s = true ->
  Requests.plain_to_end s = true /\ HttpClient.is_illegal_header_value s = false.
Proof.
  unfold Spec.one_line. induction s as [|c s IH]; [auto|].
  simpl. intros E. apply andb_true_iff in E. destruct E as [Hc Hs].
  apply negb_true_iff, orb_false_iff in Hc. destruct Hc as [Hcr Hlf].
  rewrite Hcr, Hlf. simpl. apply IH. exact Hs.
Qed.

Lemma broken_line_refused s :
  Spec.one_line s = false ->
  Requests.plain_to_end s = false \/ HttpClient.is_illegal_header_value s = true.
Proof.
  unfold Spec.one_line. induction s as [|c s IH]; [discriminate|].
  simpl. intros E.
  destruct (Ascii.eqb c PyStr.LF) eqn:Hlf.
  { destruct s; [right; reflexivity | left; reflexivity]. }
  destruct (Ascii.eqb c PyStr.CR) eqn:Hcr; [left; reflexivity|].
  simpl in E. destruct (IH E) as [Hp | Hi]; [left; exact Hp|].
  right. rewrite Hi. apply orb_true_r.
Qed.

(** The header made of a token goes out exactly when the text of the token
    holds neither a carriage return nor a line feed. *)
Lemma sendable_bearer `{PyLib} token :
  Spec.sendable (bearer token) = Spec.one_line (py_str token).
Proof.
  unfold Spec.sendable, header_error, bearer.
  set (t := py_str token).
  change (Requests.valid_header_value ("Bearer " +:+ t))
    with (Requests.plain_to_end t).
  change (HttpClient.is_illegal_header_value ("Bearer " +:+ t))
    with (HttpClient.is_illegal_header_value t).
  destruct (Spec.one_line t) eqn:E.
  - destruct (one_line_sendable t E) as [-> ->]. reflexivity.
  - destruct (broken_line_refused t E) as [-> | Hi]; [reflexivity|].
    rewrite Hi. destruct (Requests.plain_to_end t); reflexivity.
Qed.

Lemma sleep_taken `{PyLib} secs w :
  0 <= secs <= sleep_max ->
  sleep secs w = (Val tt, log (EvSleep secs) (set_clock (clock w + secs) w)).
Proof.
  intros [H0 H1]. pose proof sleep_max_range as [_ Hmax]. unfold sleep.
  destruct (secs <? 0) eqn:E0; [apply Z.ltb_lt in E0; lia|].
  destruct (9223372036 <? secs) eqn:E1; [apply Z.ltb_lt in E1; lia|].
  destruct (sleep_max <? secs) eqn:E2; [apply Z.ltb_lt in E2; lia|].
  reflexivity.
Qed.

Lemma sleep_interval `{PyLib} w :
  sleep RUN_INTERVAL w
  = (Val tt, log (EvSleep RUN_INTERVAL) (set_clock (clock w + RUN_INTERVAL) w)).
Proof.
  apply sleep_taken. pose proof sleep_max_range as [Hmin _].
  unfold RUN_INTERVAL. lia.
Qed.

Lemma sleep_cases `{PyLib} secs w :
  sleep secs w = (Val tt, log (EvSleep secs) (set_clock (clock w + secs) w))
  \/ exists e, sleep secs w = (Exn e, w) /\ is_request_exception e = false.
Proof.
  unfold sleep.
  destruct (secs <? 0); [right; eauto|].
  destruct (9223372036 <? secs); [right; eauto|].
  destruct (sleep_max <? secs); [right; eauto | left; reflexivity].
Qed.

(** The sleep of the 429 branch, [wait_time or 15 * 60]. *)
Lemma wait_time_or_fallback T now :
  (if Z.max (T - now) 0 =? 0 then rate_limit_fallback else Z.max (T - now) 0)
  = (if T <=? now then rate_limit_fallback else T - now).
Proof.
  destruct (T <=? now) eqn:Hle.
  - apply Z.leb_le in Hle. replace (Z.max (T - now) 0) with 0 by lia. reflexivity.
  - apply Z.leb_gt in Hle. replace (Z.max (T - now) 0) with (T - now) by lia.
    destruct (T - now =? 0) eqn:Hz; [apply Z.eqb_eq in Hz; lia | reflexivity].
Qed.

Section FetchSteps.

Context `{PyLib}.

Variables (after_timestamp : Z) (auth : string) (activities : list pyval).

Abbreviation requested := (Spec.requested auth after_timestamp).

Lemma fetch_loop_unfold r gets page w :
  fetch_loop (r :: gets) after_timestamp page auth activities w =
  if page <=? max_pages then
    match header_error auth with
    | Some e => (Exn e, r :: gets, w)
    | None =>
    let w := log (requested page r) w in
    if status_code r =? 429 then
      match reset_time_of r with
      | None => (Exn ValueError, gets, w)
      | Some reset_time =>
          let wait_time := Z.max (reset_time - clock w) 0 in
          match sleep (if wait_time =? 0 then rate_limit_fallback
                       else wait_time) w with
          | (Exn e, w) => (Exn e, gets, w)
          | (Val _, w) => fetch_loop gets after_timestamp page auth activities w
          end
      end
    else if status_code r =? 401 then
      match refresh_access_token w with
      | (Exn e, w) => (Exn e, gets, w)
      | (Val token, w) =>
          fetch_loop gets after_timestamp page (bearer token) activities
            (set_ACCESS_TOKEN token w)
      end
    else
      match Response.raise_for_status r with
      | Exn e => (Exn e, gets, w)
      | Val _ =>
          match Response.json r with
          | Exn e => (Exn e, gets, w)
          | Val data =>
              if negb (Py.truthy data) then (Val activities, gets, w)
              else
                match hiking_activities data with
                | Exn e => (Exn e, gets, w)
                | Val hikes =>
                    fetch_loop gets after_timestamp (page + 1) auth
                      (activities ++ hikes) w
                end
          end
      end
    end
  else (Val activities, r :: gets, w).
Proof. reflexivity. Qed.


(** A request whose header cannot be sent ends the fetch where it stands:
    nothing is sent and no response is taken. *)
Lemma fetch_loop_refused gets page w e :
  page <= max_pages ->
  header_error auth = Some e ->
  fetch_loop gets after_timestamp page auth activities w = (Exn e, gets, w).
Proof.
  intros Hp He. apply Z.leb_le in Hp.
  destruct gets; simpl; rewrite Hp, He; reflexivity.
Qed.

End FetchSteps.

(** ** What a fetch leaves behind *)

Lemma not_get_not_fatal e : Spec.not_get e = true -> Spec.fatal_get e = false.
Proof. destruct e; simpl; auto; discriminate. Qed.

Lemma Forall_not_fatal evs :
  Forall (fun e => Spec.not_get e = true) evs ->
  ~ Exists (fun e => Spec.fatal_get e = true) evs.
Proof.
  intros F E. apply Exists_exists in E. destruct E as (e & Hin & He).
  rewrite Forall_forall in F. specialize (F e Hin).
  apply not_get_not_fatal in F. congruence.
Qed.

Lemma effect_prefix (w w1 w' : world) (pre : list event) (Q : Prop) :
  trace w1 = trace w ++ pre ->
  (forall f, f <> REFRESH_TOKEN_FILE -> files w1 !! f = files w !! f) ->
  ~ Exists (fun e => Spec.fatal_get e = true) pre ->
  (exists evs,
      trace w' = trace w1 ++ evs
      /\ (forall f, f <> REFRESH_TOKEN_FILE -> files w' !! f = files w1 !! f)
      /\ (Exists (fun e => Spec.fatal_get e = true) evs -> Q)) ->
  exists evs,
    trace w' = trace w ++ evs
    /\ (forall f, f <> REFRESH_TOKEN_FILE -> files w' !! f = files w !! f)
    /\ (Exists (fun e => Spec.fatal_get e = true) evs -> Q).
Proof.
  intros T1 F1 N1 (evs & T & F & E).
  exists (pre ++ evs). split; [|split].
  - rewrite T, T1. symmetry. apply app_assoc.
  - intros f Hf. rewrite F, F1; auto.
  - intros Hex. apply Exists_app in Hex. destruct Hex as [Hex|Hex]; [tauto | auto].
Qed.

Lemma effect_one (w : world) (e0 : event) (Q : Prop) :
  (Spec.fatal_get e0 = true -> Q) ->
  exists evs,
    trace (log e0 w) = trace w ++ evs
    /\ (forall f, f <> REFRESH_TOKEN_FILE -> files (log e0 w) !! f = files w !! f)
    /\ (Exists (fun e => Spec.fatal_get e = true) evs -> Q).
Proof.
  intros HQ. exists [e0]. split; [reflexivity | split; [auto|]].
  intros Hex. inversion Hex as [? ? He | ? ? He]; subst; [auto | inversion He].
Qed.

Lemma fetch_loop_effect `{PyLib} gets :
  forall after_timestamp page auth activities w r gets' w',
    fetch_loop gets after_timestamp page auth activities w = (r, gets', w') ->
    exists evs,
      trace w' = trace w ++ evs
      /\ (forall f, f <> REFRESH_TOKEN_FILE -> files w' !! f = files w !! f)
      /\ (Exists (fun e => Spec.fatal_get e = true) evs ->
          exists s, Spec.fatal_status s = true /\ r = Exn (HTTPError s)).
Proof.
  induction gets as [|resp gets IH];
    intros after_timestamp page auth activities w r gets' w' Hrun.
  - exists []. simpl in Hrun.
    destruct (page <=? max_pages); [destruct (header_error auth)|];
      inversion Hrun; subst;
      (split; [symmetry; apply app_nil_r | split; [auto | intros E; inversion E]]).
  - rewrite fetch_loop_unfold in Hrun.
    destruct (page <=? max_pages).
    2:{ inversion Hrun; subst. exists [].
        split; [symmetry; apply app_nil_r | split; [auto | intros E; inversion E]]. }
    destruct (header_error auth).
    { inversion Hrun; subst. exists [].
      split; [symmetry; apply app_nil_r | split; [auto | intros E; inversion E]]. }
    cbv zeta in Hrun.
    set (e0 := Spec.requested auth after_timestamp page resp) in *.
    assert (Hf0 : Spec.fatal_get e0 = Spec.fatal_status (status_code resp))
      by reflexivity.
    destruct (status_code resp =? 429) eqn:H429.
    { assert (N0 : Spec.fatal_get e0 = false).
      { rewrite Hf0. unfold Spec.fatal_status. rewrite H429.
        rewrite andb_false_r. reflexivity. }
      destruct (reset_time_of resp) as [reset_time|].
      - match type of Hrun with
        | context [sleep ?d ?w0] =>
            destruct (sleep_cases d w0) as [Hs | (e & Hs & _)]; rewrite Hs in Hrun
        end.
        + apply IH in Hrun.
          refine (effect_prefix w _ w' [e0; EvSleep _] _ _ _ _ Hrun);
            [simpl; rewrite <- app_assoc; reflexivity | auto |].
          intros Hex. inversion Hex as [? ? He | ? ? He]; subst; [congruence|].
          inversion He as [? ? He' | ? ? He']; subst; [discriminate | inversion He'].
        + inversion Hrun; subst. apply effect_one. congruence.
      - inversion Hrun; subst. apply effect_one. congruence. }
    destruct (status_code resp =? 401) eqn:H401.
    { assert (N0 : Spec.fatal_get e0 = false).
      { rewrite Hf0. unfold Spec.fatal_status. rewrite H401.
        rewrite andb_false_r. reflexivity. }
      pose proof (respects_refresh_access_token (log e0 w)) as Hre.
      destruct (refresh_access_token (log e0 w)) as [[token|e] w2];
        simpl in Hre; destruct Hre as ((evs & T & F) & Fi & _).
      - apply IH in Hrun.
        refine (effect_prefix w _ w' (e0 :: evs) _ _ _ _ Hrun).
        + simpl. rewrite T. simpl. rewrite <- app_assoc. reflexivity.
        + simpl. exact Fi.
        + intros Hex. inversion Hex as [? ? He | ? ? He]; subst; [congruence|].
          revert He. apply Forall_not_fatal. exact F.
      - inversion Hrun; subst.
        exists (e0 :: evs). split; [|split].
        + rewrite T. simpl. rewrite <- app_assoc. reflexivity.
        + exact Fi.
        + intros Hex. inversion Hex as [? ? He | ? ? He]; subst; [congruence|].
          exfalso. revert He. apply Forall_not_fatal. exact F. }
    unfold Response.raise_for_status in Hrun.
    destruct ((400 <=? status_code resp) && (status_code resp <? 600)) eqn:Herr.
    { inversion Hrun; subst. apply effect_one. intros _.
      exists (status_code resp). split; [|reflexivity].
      unfold Spec.fatal_status. rewrite Herr, H429, H401. reflexivity. }
    assert (N0 : Spec.fatal_get e0 = false).
    { rewrite Hf0. unfold Spec.fatal_status. rewrite Herr. reflexivity. }
    destruct (Response.json resp) as [data|e].
    2:{ inversion Hrun; subst. apply effect_one. congruence. }
    destruct (negb (Py.truthy data)).
    { inversion Hrun; subst. apply effect_one. congruence. }
    destruct (hiking_activities data) as [hikes|e].
    2:{ inversion Hrun; subst. apply effect_one. congruence. }
    apply IH in Hrun.
    refine (effect_prefix w _ w' [e0] _ _ _ _ Hrun); [reflexivity | auto |].
    intros Hex. inversion Hex as [? ? He | ? ? He]; subst; [congruence | inversion He].
Qed.

Lemma fetch_loop_first_request `{PyLib} resp gets after_timestamp page auth
    activities w :
  page <= max_pages ->
  header_error auth = None ->
  exists evs,
    trace (snd (fetch_loop (resp :: gets) after_timestamp page auth activities w))
    = trace w ++ Spec.requested auth after_timestamp page resp :: evs.
Proof.
  intros Hp Hsend. rewrite fetch_loop_unfold.
  apply Z.leb_le in Hp. rewrite Hp, Hsend. cbv zeta.
  set (e0 := Spec.requested auth after_timestamp page resp).
  assert (Hone : exists evs, trace (log e0 w) = trace w ++ e0 :: evs)
    by (exists []; reflexivity).
  assert (Hrec : forall w1 pre page' auth' acts',
             trace w1 = trace w ++ e0 :: pre ->
             exists evs,
               trace (snd (fetch_loop gets after_timestamp page' auth' acts' w1))
               = trace w ++ e0 :: evs).
  { intros w1 pre page' auth' acts' T1.
    destruct (fetch_loop gets after_timestamp page' auth' acts' w1)
      as [[r gets'] w'] eqn:E.
    apply fetch_loop_effect in E. destruct E as (evs & T & _).
    exists (pre ++ evs). simpl. rewrite T, T1.
    rewrite <- app_assoc. reflexivity. }
  destruct (status_code resp =? 429).
  { destruct (reset_time_of resp); [|exact Hone].
    match goal with
    | |- context [sleep ?d ?w0] =>
        destruct (sleep_cases d w0) as [Hs | (e & Hs & _)]; rewrite Hs
    end; [|exact Hone].
    eapply Hrec with (pre := [EvSleep _]).
    simpl. rewrite <- app_assoc. reflexivity. }
  destruct (status_code resp =? 401).
  { pose proof (respects_refresh_access_token (log e0 w)) as Hre.
    destruct (refresh_access_token (log e0 w)) as [[token|e] w2];
      simpl in Hre; destruct Hre as ((evs & T & _) & _).
    - apply (Hrec _ evs). simpl. rewrite T. simpl.
      rewrite <- app_assoc. reflexivity.
    - exists evs. simpl. rewrite T. simpl. rewrite <- app_assoc. reflexivity. }
  destruct (Response.raise_for_status resp); [|exact Hone].
  destruct (Response.json resp); [|exact Hone].
  destruct (negb (Py.truthy a0)); [exact Hone|].
  destruct (hiking_activities a0); [|exact Hone].
  apply (Hrec _ []). reflexivity.
Qed.

(** ** C1: rate limiting *)

(** C1 (amended): on a 429 answer to a request that went out, whose
    [X-RateLimit-Reset] header reads as the integer [T] (an absent header
    reads as 0), the fetcher sleeps [T - now] seconds when [T > now] and the
    fixed 900 seconds when [T <= now] -- provided the platform takes a sleep
    of that length --, and then asks for the same page again, with the same
    authorization and the same accumulated records. *)
Theorem C1_rate_limit_wait `{PyLib} (r : response) (gets : list response)
    (after_timestamp page : Z) (auth : string) (activities : list pyval)
    (w : world) (T : Z) :
  page <= max_pages ->
  Spec.sendable auth = true ->
  status_code r = 429 ->
  reset_time_of r = Some T ->
  let d := if T <=? clock w then rate_limit_fallback else T - clock w in
  d <= sleep_max ->
  let w1 := log (EvSleep d)
              (set_clock (clock w + d)
                 (log (Spec.requested auth after_timestamp page r) w)) in
  fetch_loop (r :: gets) after_timestamp page auth activities w
  = fetch_loop gets after_timestamp page auth activities w1
  /\ trace w1
     = trace w ++ [EvGet activities_url auth after_timestamp per_page page 429;
                   EvSleep d]
  /\ clock w1 = clock w + d
  /\ forall r' gets',
       gets = r' :: gets' ->
       exists evs,
         trace (snd (fetch_loop (r :: gets) after_timestamp page auth activities w))
         = trace w1 ++ Spec.requested auth after_timestamp page r' :: evs.
Proof.
  intros Hp Hsend Hs HT d Hd w1. apply sendable_error in Hsend.
  assert (H0 : 0 <= d).
  { subst d. unfold rate_limit_fallback.
    destruct (T <=? clock w) eqn:Hle; [lia | apply Z.leb_gt in Hle; lia]. }
  assert (E : fetch_loop (r :: gets) after_timestamp page auth activities w
              = fetch_loop gets after_timestamp page auth activities w1).
  { rewrite fetch_loop_unfold.
    pose proof Hp as Hp'. apply Z.leb_le in Hp'. rewrite Hp', Hsend. cbv zeta.
    rewrite Hs, HT. simpl (429 =? 429). cbv iota.
    simpl (clock (log _ w)). rewrite wait_time_or_fallback. fold d.
    rewrite (sleep_taken d _ (conj H0 Hd)). reflexivity. }
  split; [exact E|]. split; [|split].
  - subst w1. unfold Spec.requested. rewrite Hs. simpl.
    rewrite <- app_assoc. reflexivity.
  - reflexivity.
  - intros r' gets' ->. rewrite E.
    apply fetch_loop_first_request; [exact Hp | exact Hsend].
Qed.

Lemma C1_witness :
  1 <= max_pages
  /\ status_code (Sample.rate_limited "1010") = 429
  /\ reset_time_of (Sample.rate_limited "1010") = Some 1010
  /\ @fetch_loop Sample.lib [Sample.rate_limited "1010"; Sample.page []]
       0 1 "Bearer a0" [] Sample.idle
     = @fetch_loop Sample.lib [Sample.page []] 0 1 "Bearer a0" []
         (log (EvSleep 10)
            (set_clock 1010
               (log (Spec.requested "Bearer a0" 0 1 (Sample.rate_limited "1010"))
                  Sample.idle))).
Proof.
  assert (H1 : 1 <= max_pages) by (unfold max_pages; lia).
  assert (H2 : status_code (Sample.rate_limited "1010") = 429) by reflexivity.
  assert (H3 : reset_time_of (Sample.rate_limited "1010") = Some 1010)
    by reflexivity.
  assert (H4 : 10 <= @sleep_max Sample.lib) by (simpl; lia).
  split; [exact H1|]. split; [exact H2|]. split; [exact H3|].
  exact (proj1 (@C1_rate_limit_wait Sample.lib (Sample.rate_limited "1010")
                  [Sample.page []] 0 1 "Bearer a0" [] Sample.idle 1010
                  H1 eq_refl H2 H3 H4)).
Defined.

(** C1 as stated fails when the reset time is not in the future: with
    [T = now = 1000] the claim asks for a sleep of [max(T - now, 0) = 0]
    seconds, and the fetcher sleeps 900. *)
Lemma C1_counterexample :
  reset_time_of (Sample.rate_limited "1000") = Some 1000
  /\ clock Sample.idle = 1000
  /\ trace (snd (@fetch_loop Sample.lib
                    [Sample.rate_limited "1000"; Sample.page []]
                    0 1 "Bearer a0" [] Sample.idle))
     = [EvGet activities_url "Bearer a0" 0 200 1 429;
        EvSleep 900;
        EvGet activities_url "Bearer a0" 0 200 1 200]
  /\ ~ In (EvSleep (Z.max (1000 - clock Sample.idle) 0))
         (trace (snd (@fetch_loop Sample.lib
                        [Sample.rate_limited "1000"; Sample.page []]
                        0 1 "Bearer a0" [] Sample.idle))).
Proof.
  split; [reflexivity|]. split; [reflexivity|].
  assert (E : trace (snd (@fetch_loop Sample.lib
                            [Sample.rate_limited "1000"; Sample.page []]
                            0 1 "Bearer a0" [] Sample.idle))
              = [EvGet activities_url "Bearer a0" 0 200 1 429;
                 EvSleep 900;
                 EvGet activities_url "Bearer a0" 0 200 1 200])
    by (vm_compute; reflexivity).
  split; [exact E|]. rewrite E. simpl.
  intros [F|[F|[F|[]]]]; discriminate F.
Qed.

(** An [X-RateLimit-Reset] header that is not an integer literal of at most
    4300 digits ends the fetch with a [ValueError], which [main] does not
    catch. *)
Lemma rate_limit_header_invalid `{PyLib} r gets after_timestamp page auth
    activities w :
  page <= max_pages ->
  header_error auth = None ->
  status_code r = 429 ->
  reset_time_of r = None ->
  fetch_loop (r :: gets) after_timestamp page auth activities w
  = (Exn ValueError, gets, log (Spec.requested auth after_timestamp page r) w).
Proof.
  intros Hp Hsend Hs HT. rewrite fetch_loop_unfold.
  apply Z.leb_le in Hp. rewrite Hp, Hsend. cbv zeta. rewrite Hs, HT. reflexivity.
Qed.

(** A reset time more than 9223372036 seconds away ends the fetch with the
    [OverflowError] of [time.sleep], which [main] does not catch; the page
    is not asked for again. *)
Lemma rate_limit_sleep_refused `{PyLib} r gets after_timestamp page auth
    activities w T :
  page <= max_pages ->
  header_error auth = None ->
  status_code r = 429 ->
  reset_time_of r = Some T ->
  9223372036 < T - clock w ->
  fetch_loop (r :: gets) after_timestamp page auth activities w
  = (Exn OverflowError, gets,
     log (Spec.requested auth after_timestamp page r) w).
Proof.
  intros Hp Hsend Hs HT Hlong. rewrite fetch_loop_unfold.
  apply Z.leb_le in Hp. rewrite Hp, Hsend. cbv zeta. rewrite Hs, HT.
  simpl (429 =? 429). cbv iota. simpl (clock (log _ w)).
  rewrite wait_time_or_fallback.
  destruct (T <=? clock w) eqn:Hle; [apply Z.leb_le in Hle; lia|].
  unfold sleep.
  destruct (T - clock w <? 0) eqn:E0; [apply Z.ltb_lt in E0; lia|].
  destruct (9223372036 <? T - clock w) eqn:E1; [reflexivity|].
  apply Z.ltb_ge in E1. lia.
Qed.

(** ** C2: expired access token *)







(** When the refresh itself fails, the fetch ends with its exception and the
    page is not asked for again. *)
Lemma expired_token_refresh_fails `{PyLib} r gets after_timestamp page auth
    activities w w2 e :
  page <= max_pages ->
  header_error auth = None ->
  status_code r = 401 ->
  refresh_access_token (log (Spec.requested auth after_timestamp page r) w)
  = (Exn e, w2) ->
  fetch_loop (r :: gets) after_timestamp page auth activities w
  = (Exn e, gets, w2).
Proof.
  intros Hp Hsend Hs Href. rewrite fetch_loop_unfold.
  apply Z.leb_le in Hp. rewrite Hp, Hsend. cbv zeta.
  destruct (status_code r =? 429) eqn:E429; [rewrite Hs in E429; discriminate|].
  destruct (status_code r =? 401) eqn:E401; [|rewrite Hs in E401; discriminate].
  rewrite Href. reflexivity.
Qed.

(** When the refresh returns a token that cannot go into a header, the
    fetch ends with the exception of the request that was to carry it, and
    the page is not asked for again. *)
Lemma expired_token_refresh_unsendable `{PyLib} r gets after_timestamp page auth
    activities w w2 token e :
  page <= max_pages ->
  header_error auth = None ->
  status_code r = 401 ->
  refresh_access_token (log (Spec.requested auth after_timestamp page r) w)
  = (Val token, w2) ->
  header_error (bearer token) = Some e ->
  fetch_loop (r :: gets) after_timestamp page auth activities w
  = (Exn e, gets, set_ACCESS_TOKEN token w2).
Proof.
  intros Hp Hsend Hs Href Hnew. rewrite fetch_loop_unfold.
  pose proof Hp as Hp'. apply Z.leb_le in Hp'. rewrite Hp', Hsend. cbv zeta.
  destruct (status_code r =? 429) eqn:E429; [rewrite Hs in E429; discriminate|].
  destruct (status_code r =? 401) eqn:E401; [|rewrite Hs in E401; discriminate].
  rewrite Href. apply fetch_loop_refused; assumption.
Qed.

(** ** C6: a fatal status aborts the cycle *)

Lemma main_writes_keep_trace `{PyLib} activities w :
  trace (snd ((write_activities_to_json activities JSON_FILE ;;;
               write_activities_to_csv activities CSV_FILE ;;;
               log_summary activities) w)) = trace w.
Proof.
  unfold write_activities_to_json, write_activities_to_csv, log_summary.
  destruct (Csv.writerows fieldnames activities) as [text err].
  unfold bind, write_file, lift, ret, raise.
  destruct err; simpl; [reflexivity|].
  destruct activities as [|x rest]; simpl; [reflexivity|].
  destruct (Py.getitem x "date"); simpl; [|reflexivity].
  destruct (max_by_date rest x a); simpl; [|reflexivity].
  destruct (Py.getitem a0 "distance"); reflexivity.
Qed.

(** C6: if a page request of a cycle is answered with an error status (400
    to 599) other than 429 and 401, the body of [main] ends with the
    corresponding [HTTPError], [main] itself returns normally, the JSON and
    CSV snapshot files are what they were before the cycle, and the
    scheduler goes on to its sleep and the next cycle. *)
Theorem C6_fatal_status_aborts_cycle `{PyLib} (gets gets' : list response)
    (w w' : world) (r : result unit) (evs : list event) :
  main gets w = (r, gets', w') ->
  trace w' = trace w ++ evs ->
  Exists (fun e => Spec.fatal_get e = true) evs ->
  r = Val tt
  /\ (exists s, Spec.fatal_status s = true
                /\ main_try gets w = (Exn (HTTPError s), gets', w'))
  /\ files w' !! JSON_FILE = files w !! JSON_FILE
  /\ files w' !! CSV_FILE = files w !! CSV_FILE
  /\ forall n, scheduler (S n) gets w
               = scheduler n gets' (snd (sleep RUN_INTERVAL w')).
Proof.
  assert (Hsched : r = Val tt -> main gets w = (r, gets', w') ->
                   forall n, scheduler (S n) gets w
                             = scheduler n gets' (snd (sleep RUN_INTERVAL w'))).
  { intros -> Hm n. cbn [scheduler]. rewrite Hm. reflexivity. }
  intros Hmain. specialize (fun Hr => Hsched Hr Hmain). revert Hmain.
  intros Hmain Htrace Hfatal.
  unfold main in Hmain.
  assert (Hnofatal : forall pre, trace w' = trace w ++ pre ->
                       Forall (fun e => Spec.not_get e = true) pre -> False).
  { intros pre T F. rewrite Htrace in T. apply app_inv_head in T. subst pre.
    revert Hfatal. apply Forall_not_fatal. exact F. }
  unfold main_try in *.
  pose proof (respects_refresh_access_token w) as Hre.
  destruct (refresh_access_token w) as [[token|e] w1]; simpl in Hre;
    destruct Hre as ((evs1 & T1 & F1) & Fi1 & _).
  2:{ exfalso. apply (Hnofatal evs1); [|exact F1].
      destruct (is_request_exception e); inversion Hmain; subst; exact T1. }
  unfold date_to_unix_timestamp in *.
  destruct (Calendar.strptime since_date) as [[[y m] d]|].
  2:{ exfalso. apply (Hnofatal evs1); [|exact F1].
      simpl in Hmain. inversion Hmain; subst. exact T1. }
  unfold fetch_activities in *.
  set (after := Calendar.days_from_civil y m d * 86400
                - utc_offset (set_ACCESS_TOKEN token w1)) in *.
  destruct (fetch_loop gets after 1
              (bearer (ACCESS_TOKEN (set_ACCESS_TOKEN token w1))) []
              (set_ACCESS_TOKEN token w1)) as [[rf gf] wf] eqn:Hfetch.
  apply fetch_loop_effect in Hfetch. destruct Hfetch as (evs2 & T2 & Fi2 & Hf2).
  simpl in T2, Fi2.
  destruct rf as [activities|e].
  - exfalso.
    pose proof (main_writes_keep_trace activities wf) as Tw.
    destruct ((write_activities_to_json activities JSON_FILE ;;;
               write_activities_to_csv activities CSV_FILE ;;;
               log_summary activities) wf) as [rw ww].
    simpl in Tw.
    assert (Tfinal : trace w' = trace w ++ (evs1 ++ evs2)).
    { rewrite app_assoc, <- T1, <- T2, <- Tw.
      destruct rw as [u|e]; [|destruct (is_request_exception e)];
        inversion Hmain; subst; reflexivity. }
    rewrite Htrace in Tfinal. apply app_inv_head in Tfinal. subst evs.
    apply Exists_app in Hfatal. destruct Hfatal as [Hx|Hx].
    + revert Hx. apply Forall_not_fatal. exact F1.
    + destruct (Hf2 Hx) as (s & _ & Hs). discriminate Hs.
  - assert (Tfinal : trace w' = trace w ++ (evs1 ++ evs2) /\ w' = wf /\ gets' = gf).
    { destruct (is_request_exception e); inversion Hmain; subst;
        (split; [rewrite app_assoc, <- T1, <- T2; reflexivity | auto]). }
    destruct Tfinal as (Tfinal & -> & ->).
    rewrite Htrace in Tfinal. apply app_inv_head in Tfinal. subst evs.
    apply Exists_app in Hfatal. destruct Hfatal as [Hx|Hx].
    { exfalso. revert Hx. apply Forall_not_fatal. exact F1. }
    destruct (Hf2 Hx) as (s & Hs & He). inversion He; subst e.
    simpl in Hmain. inversion Hmain; subst.
    split; [reflexivity|]. split; [exists s; auto|].
    split; [|split];
      [rewrite Fi2, Fi1; [reflexivity | discriminate | discriminate] ..
      | apply Hsched; reflexivity].
Qed.

Lemma C6_witness :
  let w := Sample.world_with {[ REFRESH_TOKEN_FILE := "r0" ]}
             [Sample.token_response "a1" "r1"] [] in
  let gets := [Sample.page [Sample.activity 1 "Hike" 1609.34%float];
               Sample.status_only 500 []] in
  let w' := snd (@main Sample.lib gets w) in
  fst (fst (@main Sample.lib gets w)) = Val tt
  /\ files w' !! JSON_FILE = files w !! JSON_FILE
  /\ files w' !! CSV_FILE = files w !! CSV_FILE.
Proof.
  intros w gets w'.
  assert (H1 : @main Sample.lib gets w
               = (fst (fst (@main Sample.lib gets w)),
                  snd (fst (@main Sample.lib gets w)), w'))
    by (vm_compute; reflexivity).
  assert (H2 : trace w' = trace w ++ trace w') by (vm_compute; reflexivity).
  assert (H3 : Exists (fun e => Spec.fatal_get e = true) (trace w')).
  { vm_compute. do 2 apply Exists_cons_tl. apply Exists_cons_hd. reflexivity. }
  destruct (@C6_fatal_status_aborts_cycle Sample.lib gets _ w w' _ _ H1 H2 H3)
    as (R & _ & J & C & _).
  split; [exact R | split; [exact J | exact C]].
Defined.

(** ** C4: filtering and projecting a page *)






Lemma served_status r :
  Spec.served r = true ->
  (status_code r =? 429) = false /\ (status_code r =? 401) = false
  /\ Response.raise_for_status r = Val tt.
Proof.
  unfold Spec.served, Response.raise_for_status. intros Hs.
  apply andb_true_iff in Hs. destruct Hs as [Hs H3].
  apply andb_true_iff in Hs. destruct Hs as [H1 H2].
  apply negb_true_iff in H1, H2, H3. rewrite H3. auto.
Qed.





(** ** C5: where pagination stops *)

(** What it takes to get over a 429 and over a 401. *)
Lemma retry_rate_limited `{PyLib} after_timestamp page r auth w T :
  Spec.sendable auth = true ->
  status_code r = 429 ->
  reset_time_of r = Some T ->
  (if T <=? clock w then rate_limit_fallback else T - clock w) <= sleep_max ->
  Spec.retry after_timestamp page r auth w
  = Some (auth,
          log (EvSleep (if T <=? clock w then rate_limit_fallback
                        else T - clock w))
            (set_clock (clock w + (if T <=? clock w then rate_limit_fallback
                                   else T - clock w))
               (log (Spec.requested auth after_timestamp page r) w))).
Proof.
  intros Hsend Hs HT Hd. unfold Spec.retry. rewrite Hsend, Hs, HT. cbn [negb].
  cbv zeta. simpl (429 =? 429). cbv iota. simpl (clock (log _ w)).
  rewrite sleep_taken; [reflexivity|]. split; [|exact Hd].
  unfold rate_limit_fallback.
  destruct (T <=? clock w) eqn:Hle; [lia | apply Z.leb_gt in Hle; lia].
Qed.

Lemma retry_expired `{PyLib} after_timestamp page r auth w token w' :
  Spec.sendable auth = true ->
  status_code r = 401 ->
  refresh_access_token (log (Spec.requested auth after_timestamp page r) w)
  = (Val token, w') ->
  Spec.retry after_timestamp page r auth w
  = Some (bearer token, set_ACCESS_TOKEN token w').
Proof.
  intros Hsend Hs Href. unfold Spec.retry. rewrite Hsend, Hs. cbn [negb].
  cbv zeta. simpl (401 =? 429). cbv iota. simpl (401 =? 401). cbv iota.
  rewrite Href. reflexivity.
Qed.







(** ** The CSV reader and writer *)

Lemma append_assoc (s t u : string) : (s +:+ t) +:+ u = s +:+ t +:+ u.
Proof.
  induction s as [|c s IH]; [reflexivity|].
  rewrite !append_cons. f_equal. exact IH.
Qed.

Lemma append_nil_r (s : string) : s +:+ EmptyString = s.
Proof.
  induction s as [|c s IH]; [reflexivity|]. rewrite append_cons. f_equal. exact IH.
Qed.

Lemma length_append (s t : string) :
  String.length (s +:+ t) = (String.length s + String.length t)%nat.
Proof.
  induction s as [|c s IH]; [reflexivity|].
  rewrite append_cons. simpl. f_equal. exact IH.
Qed.

Lemma lines_of_nonempty c r : lines_of (String c r) <> [].
Proof.
  simpl. destruct (Ascii.eqb c PyStr.LF); [discriminate|].
  destruct (lines_of r); discriminate.
Qed.

(** Reading the lines of a text is feeding the text to the parser. *)
Lemma read_rows_feed s :
  forall p rows,
    Spec.ends_with_LF s = true ->
    Csv.read_rows (lines_of s) p rows
    = match Spec.feed s p rows with
      | Val (p', rows') => Csv.read_rows [] p' rows'
      | Exn e => Exn e
      end.
Proof.
  induction s as [|c r IH]; intros p rows Hend; [reflexivity|].
  assert (Hr : Spec.ends_with_LF r = true).
  { destruct r; [reflexivity | exact Hend]. }
  cbn [lines_of Spec.feed].
  destruct (Ascii.eqb c PyStr.LF) eqn:Hc.
  - cbn [Csv.read_rows Csv.process_line].
    destruct (Csv.parse_process_char (Some c) p) as [p1|e]; [|reflexivity].
    destruct (Csv.parse_process_char None p1) as [p2|e]; [|reflexivity].
    destruct (Csv.st p2); apply IH; exact Hr.
  - destruct r as [|d r'].
    { simpl in Hend. congruence. }
    destruct (lines_of (String d r')) as [|l ls] eqn:Hl.
    { exfalso. revert Hl. apply lines_of_nonempty. }
    cbn [Csv.read_rows Csv.process_line].
    destruct (Csv.parse_process_char (Some c) p) as [p1|e]; [|reflexivity].
    transitivity (Csv.read_rows (l :: ls) p1 rows); [reflexivity|].
    apply IH. exact Hr.
Qed.

Lemma feed_app s1 s2 :
  forall p rows,
    Spec.feed (s1 +:+ s2) p rows
    = match Spec.feed s1 p rows with
      | Val (p', rows') => Spec.feed s2 p' rows'
      | Exn e => Exn e
      end.
Proof.
  induction s1 as [|c r IH]; intros p rows; [reflexivity|].
  rewrite append_cons. cbn [Spec.feed].
  destruct (Csv.parse_process_char (Some c) p) as [p1|e]; [|reflexivity].
  destruct (Ascii.eqb c PyStr.LF).
  - destruct (Csv.parse_process_char None p1) as [p2|e]; [|reflexivity].
    destruct (Csv.st p2); apply IH.
  - apply IH.
Qed.

Lemma parse_add_char_fits c p :
  Z.of_nat (String.length (Csv.field p)) < Csv.field_limit ->
  Csv.parse_add_char c p
  = Val {| Csv.st := Csv.st p;
           Csv.field := Csv.field p +:+ String c EmptyString;
           Csv.fields := Csv.fields p |}.
Proof.
  intros Hlen. unfold Csv.parse_add_char.
  destruct (Csv.field_limit <=? Z.of_nat (String.length (Csv.field p))) eqn:E;
    [apply Z.leb_le in E; lia | reflexivity].
Qed.

Lemma not_special c :
  Csv.special c = false ->
  Ascii.eqb c Csv.COMMA = false /\ Ascii.eqb c Csv.DQUOTE = false
  /\ Ascii.eqb c PyStr.CR = false /\ Ascii.eqb c PyStr.LF = false.
Proof.
  unfold Csv.special. intros H.
  apply orb_false_iff in H. destruct H as [H H4].
  apply orb_false_iff in H. destruct H as [H H3].
  apply orb_false_iff in H. destruct H as [H1 H2]. auto.
Qed.

(** The rest of an unquoted field, once the parser is in [IN_FIELD]. *)
Lemma feed_plain f :
  forall p rows,
    Csv.has_special f = false ->
    Csv.st p = Csv.IN_FIELD ->
    Z.of_nat (String.length (Csv.field p) + String.length f) <= Csv.field_limit ->
    Spec.feed f p rows
    = Val ({| Csv.st := Csv.IN_FIELD; Csv.field := Csv.field p +:+ f;
              Csv.fields := Csv.fields p |}, rows).
Proof.
  induction f as [|c r IH]; intros p rows Hsp Hst Hlen.
  - rewrite append_nil_r. destruct p; simpl in *; subst; reflexivity.
  - simpl in Hsp. apply orb_false_iff in Hsp. destruct Hsp as [Hc Hr].
    apply not_special in Hc. destruct Hc as (Hcomma & Hquote & Hcr & Hlf).
    cbn [Spec.feed]. unfold Csv.parse_process_char. rewrite Hst.
    unfold Csv.is_newline. rewrite Hlf, Hcr, Hcomma. cbn [orb].
    rewrite parse_add_char_fits by (simpl in Hlen; lia).
    rewrite IH.
    + cbn [Csv.st Csv.field Csv.fields]. rewrite append_assoc. reflexivity.
    + exact Hr.
    + exact Hst.
    + cbn [Csv.field]. rewrite length_append. simpl in *. lia.
Qed.

(** The body of a quoted field, between its quotes. *)
Lemma feed_quoted_body f :
  forall p rows,
    Csv.st p = Csv.IN_QUOTED_FIELD ->
    Z.of_nat (String.length (Csv.field p) + String.length f) <= Csv.field_limit ->
    Spec.feed (Csv.double_quotes f) p rows
    = Val ({| Csv.st := Csv.IN_QUOTED_FIELD; Csv.field := Csv.field p +:+ f;
              Csv.fields := Csv.fields p |}, rows).
Proof.
  induction f as [|c r IH]; intros p rows Hst Hlen.
  - rewrite append_nil_r. destruct p; simpl in *; subst; reflexivity.
  - assert (Hnext : forall p1,
               Csv.st p1 = Csv.IN_QUOTED_FIELD ->
               Csv.field p1 = Csv.field p +:+ String c EmptyString ->
               Csv.fields p1 = Csv.fields p ->
               Spec.feed (Csv.double_quotes r) p1 rows
               = Val ({| Csv.st := Csv.IN_QUOTED_FIELD;
                         Csv.field := Csv.field p +:+ String c r;
                         Csv.fields := Csv.fields p |}, rows)).
    { intros p1 H1 H2 H3. rewrite IH; [|exact H1|].
      - rewrite H2, H3, append_assoc. reflexivity.
      - rewrite H2, length_append. simpl in *. lia. }
    cbn [Csv.double_quotes].
    destruct (Ascii.eqb c Csv.DQUOTE) eqn:Hq.
    + apply Ascii.eqb_eq in Hq. subst c.
      cbn [Spec.feed]. unfold Csv.parse_process_char at 1. rewrite Hst.
      change (Ascii.eqb Csv.DQUOTE Csv.DQUOTE) with true.
      change (Ascii.eqb Csv.DQUOTE PyStr.LF) with false. cbv iota.
      unfold Csv.parse_process_char at 1. cbn [Csv.st Csv.set_state].
      change (Ascii.eqb Csv.DQUOTE Csv.DQUOTE) with true. cbv iota.
      rewrite parse_add_char_fits by (cbn [Csv.field Csv.set_state]; simpl in Hlen; lia).
      apply Hnext; reflexivity.
    + cbn [Spec.feed]. unfold Csv.parse_process_char at 1. rewrite Hst, Hq.
      rewrite parse_add_char_fits by (simpl in Hlen; lia).
      destruct (Ascii.eqb c PyStr.LF).
      * unfold Csv.parse_process_char. cbn [Csv.st]. rewrite Hst.
        apply Hnext; reflexivity.
      * apply Hnext; first [exact Hst | reflexivity].
Qed.

Lemma fits_length f :
  Spec.fits f = true -> Z.of_nat (String.length f) <= Csv.field_limit.
Proof. unfold Spec.fits. apply Z.leb_le. Qed.

Lemma feed_write_field f p rows :
  Spec.at_field_start p ->
  Spec.fits f = true ->
  Spec.feed (Csv.write_field f) p rows = Val (Spec.after_field f p, rows).
Proof.
  intros [Hst Hfld] Hfit. apply fits_length in Hfit.
  destruct p as [st fld flds]. cbn [Csv.st Csv.field] in *. subst fld.
  unfold Csv.write_field, Spec.after_field.
  destruct (Csv.has_special f) eqn:Hsp.
  - assert (Hopen : Spec.feed (String Csv.DQUOTE EmptyString)
                      {| Csv.st := st; Csv.field := EmptyString; Csv.fields := flds |}
                      rows
                    = Val ({| Csv.st := Csv.IN_QUOTED_FIELD;
                              Csv.field := EmptyString; Csv.fields := flds |}, rows)).
    { destruct Hst; subst st; reflexivity. }
    change (String Csv.DQUOTE (Csv.double_quotes f +:+ String Csv.DQUOTE EmptyString))
      with (String Csv.DQUOTE EmptyString
            +:+ Csv.double_quotes f +:+ String Csv.DQUOTE EmptyString).
    rewrite feed_app, Hopen, feed_app.
    rewrite feed_quoted_body; [reflexivity | reflexivity |].
    cbn [Csv.field String.length]. lia.
  - destruct f as [|c r]; [reflexivity|].
    simpl in Hsp. apply orb_false_iff in Hsp. destruct Hsp as [Hc Hr].
    apply not_special in Hc. destruct Hc as (Hcomma & Hquote & Hcr & Hlf).
    assert (Hfirst : Csv.parse_process_char (Some c)
                       {| Csv.st := st; Csv.field := EmptyString; Csv.fields := flds |}
                     = Val {| Csv.st := Csv.IN_FIELD;
                              Csv.field := String c EmptyString;
                              Csv.fields := flds |}).
    { destruct Hst; subst st; unfold Csv.parse_process_char, Csv.process_start_field,
        Csv.is_newline; cbn [Csv.st Csv.set_state];
        rewrite Hlf, Hcr, Hquote, Hcomma; reflexivity. }
    cbn [Spec.feed]. rewrite Hfirst, Hlf.
    rewrite feed_plain; [reflexivity | exact Hr | reflexivity |].
    cbn [Csv.field]. simpl in *. lia.
Qed.

Lemma comma_after_field f p :
  Spec.at_field_start p ->
  Csv.parse_process_char (Some Csv.COMMA) (Spec.after_field f p)
  = Val {| Csv.st := Csv.START_FIELD; Csv.field := EmptyString;
           Csv.fields := Csv.fields p ++ [f] |}.
Proof.
  intros [Hst Hfld]. destruct p as [st fld flds].
  cbn [Csv.st Csv.field] in *. subst fld. unfold Spec.after_field.
  destruct (Csv.has_special f); [reflexivity|].
  destruct f; [destruct Hst; subst st; reflexivity | reflexivity].
Qed.

Lemma newline_after_field f p :
  Spec.at_field_start p ->
  (Csv.st p = Csv.START_RECORD -> Csv.write_field f <> EmptyString) ->
  exists p1,
    Csv.parse_process_char (Some PyStr.LF) (Spec.after_field f p) = Val p1
    /\ Csv.parse_process_char None p1
       = Val {| Csv.st := Csv.START_RECORD; Csv.field := EmptyString;
                Csv.fields := Csv.fields p ++ [f] |}.
Proof.
  intros [Hst Hfld] Hne. destruct p as [st fld flds].
  cbn [Csv.st Csv.field] in *. subst fld.
  unfold Spec.after_field, Csv.write_field in *.
  destruct (Csv.has_special f); [eexists; split; reflexivity|].
  destruct f.
  - destruct Hst; subst st; [eexists; split; reflexivity|].
    exfalso. apply Hne; reflexivity.
  - eexists; split; reflexivity.
Qed.

Lemma write_field_empty f : Csv.write_field f = EmptyString -> f = EmptyString.
Proof.
  unfold Csv.write_field. destruct (Csv.has_special f); [discriminate | auto].
Qed.

(** One row as the writer joins it, up to and including its line feed. *)
Lemma feed_row row :
  forall p rows,
    Spec.at_field_start p ->
    forallb Spec.fits row = true ->
    row <> [] ->
    (Csv.st p = Csv.START_RECORD -> row <> [EmptyString]) ->
    Spec.feed (Csv.join_fields row +:+ String PyStr.LF EmptyString) p rows
    = Val (Csv.parse_reset, rows ++ [Csv.fields p ++ row]).
Proof.
  induction row as [|f rest IH]; intros p rows Hstart Hfit Hne Hsingle;
    [congruence|].
  simpl in Hfit. apply andb_true_iff in Hfit. destruct Hfit as [Hf Hrest].
  destruct rest as [|g rest'].
  - cbn [Csv.join_fields]. rewrite feed_app, (feed_write_field f p rows Hstart Hf).
    destruct (newline_after_field f p Hstart) as (p1 & E1 & E2).
    { intros Hst Hw. apply write_field_empty in Hw. subst f.
      apply (Hsingle Hst). reflexivity. }
    cbn [Spec.feed]. rewrite E1.
    change (Ascii.eqb PyStr.LF PyStr.LF) with true. cbv iota.
    rewrite E2. reflexivity.
  - change (Csv.join_fields (f :: g :: rest'))
      with (Csv.write_field f +:+ String Csv.COMMA (Csv.join_fields (g :: rest'))).
    rewrite append_assoc, feed_app, (feed_write_field f p rows Hstart Hf).
    rewrite append_cons. cbn [Spec.feed].
    rewrite (comma_after_field f p Hstart).
    change (Ascii.eqb Csv.COMMA PyStr.LF) with false. cbv iota.
    rewrite IH.
    + cbn [Csv.fields]. rewrite <- app_assoc. reflexivity.
    + split; [left; reflexivity | reflexivity].
    + exact Hrest.
    + discriminate.
    + intros Hst. discriminate Hst.
Qed.

Lemma no_CR_append s t : Spec.no_CR (s +:+ t) = Spec.no_CR s && Spec.no_CR t.
Proof.
  unfold Spec.no_CR. induction s as [|c s IH]; [reflexivity|].
  rewrite append_cons. simpl. rewrite IH. apply andb_assoc.
Qed.

Lemma no_CR_double_quotes f : Spec.no_CR (Csv.double_quotes f) = Spec.no_CR f.
Proof.
  unfold Spec.no_CR. induction f as [|c f IH]; [reflexivity|].
  simpl. destruct (Ascii.eqb c Csv.DQUOTE) eqn:Hq; simpl; rewrite IH.
  - apply Ascii.eqb_eq in Hq. subst c. reflexivity.
  - reflexivity.
Qed.

Lemma no_CR_write_field f : Spec.no_CR f = true -> Spec.no_CR (Csv.write_field f) = true.
Proof.
  intros Hf. unfold Csv.write_field. destruct (Csv.has_special f); [|exact Hf].
  change (String Csv.DQUOTE (Csv.double_quotes f +:+ String Csv.DQUOTE EmptyString))
    with (String Csv.DQUOTE EmptyString
          +:+ Csv.double_quotes f +:+ String Csv.DQUOTE EmptyString).
  rewrite !no_CR_append, no_CR_double_quotes, Hf. reflexivity.
Qed.

Lemma no_CR_join_fields row :
  forallb Spec.no_CR row = true -> Spec.no_CR (Csv.join_fields row) = true.
Proof.
  induction row as [|f rest IH]; [reflexivity|].
  simpl forallb. intros H. apply andb_true_iff in H. destruct H as [Hf Hrest].
  destruct rest as [|g rest'].
  - apply no_CR_write_field. exact Hf.
  - change (Csv.join_fields (f :: g :: rest'))
      with (Csv.write_field f +:+ String Csv.COMMA (Csv.join_fields (g :: rest'))).
    rewrite no_CR_append, (no_CR_write_field f Hf).
    change (String Csv.COMMA (Csv.join_fields (g :: rest')))
      with (String Csv.COMMA EmptyString +:+ Csv.join_fields (g :: rest')).
    rewrite no_CR_append, (IH Hrest). reflexivity.
Qed.

(** Universal newlines on a line that holds no carriage return but the one
    of its terminator. *)
Lemma universal_newlines_no_CR s :
  Spec.no_CR s = true -> universal_newlines s = s.
Proof.
  induction s as [|c s IH]; [reflexivity|].
  unfold Spec.no_CR in *. simpl. intros E.
  apply andb_true_iff in E. destruct E as [Hc Hs].
  apply negb_true_iff in Hc. rewrite Hc, (IH Hs). reflexivity.
Qed.

Lemma universal_newlines_line s t :
  Spec.no_CR s = true ->
  universal_newlines (s +:+ Csv.lineterminator +:+ t)
  = s +:+ String PyStr.LF (universal_newlines t).
Proof.
  unfold Spec.no_CR. induction s as [|c s IH]; intros Hs.
  - reflexivity.
  - simpl in Hs. apply andb_true_iff in Hs. destruct Hs as [Hc Hs].
    apply negb_true_iff in Hc. rewrite !append_cons.
    cbn [universal_newlines]. rewrite Hc, (IH Hs). reflexivity.
Qed.

Lemma ends_with_LF_line s t :
  Spec.ends_with_LF t = true ->
  Spec.ends_with_LF (s +:+ String PyStr.LF t) = true.
Proof.
  intros Ht. induction s as [|c s IH].
  - rewrite append_nil_l. destruct t; [reflexivity | exact Ht].
  - rewrite append_cons.
    destruct (s +:+ String PyStr.LF t) eqn:E; [|exact IH].
    destruct s; discriminate E.
Qed.

Lemma writerow_body row : Csv.writerow row = Spec.row_body row +:+ Csv.lineterminator.
Proof. destruct row as [|[|c f] [|g rest]]; reflexivity. Qed.

Lemma no_CR_row_body row :
  forallb Spec.no_CR row = true -> Spec.no_CR (Spec.row_body row) = true.
Proof.
  intros H. destruct row as [|[|c f] [|g rest]];
    try reflexivity; apply no_CR_join_fields; exact H.
Qed.

Lemma feed_row_body row rows :
  forallb Spec.fits row = true ->
  Spec.feed (Spec.row_body row +:+ String PyStr.LF EmptyString) Csv.parse_reset rows
  = Val (Csv.parse_reset, rows ++ [row]).
Proof.
  intros Hfit.
  assert (Hstart : Spec.at_field_start Csv.parse_reset)
    by (split; [right; reflexivity | reflexivity]).
  destruct row as [|f rest]; [reflexivity|].
  destruct f as [|c f]; destruct rest as [|g rest]; try reflexivity;
    unfold Spec.row_body;
    apply (feed_row _ Csv.parse_reset rows Hstart Hfit); discriminate.
Qed.

Lemma forallb_field_ok row :
  forallb Spec.field_ok row = true ->
  forallb Spec.no_CR row = true /\ forallb Spec.fits row = true.
Proof.
  induction row as [|f rest IH]; [auto|].
  simpl. intros H. apply andb_true_iff in H. destruct H as [Hf Hrest].
  unfold Spec.field_ok in Hf. apply andb_true_iff in Hf. destruct Hf as [H1 H2].
  destruct (IH Hrest) as [H3 H4]. rewrite H1, H2, H3, H4. auto.
Qed.

Lemma universal_newlines_rows_text row rest :
  forallb Spec.no_CR row = true ->
  universal_newlines (Spec.rows_text (row :: rest))
  = Spec.row_body row +:+ String PyStr.LF (universal_newlines (Spec.rows_text rest)).
Proof.
  intros H. cbn [Spec.rows_text]. rewrite writerow_body, append_assoc.
  apply universal_newlines_line. apply no_CR_row_body. exact H.
Qed.

Lemma rows_text_ends_with_LF rows :
  forallb (forallb Spec.field_ok) rows = true ->
  Spec.ends_with_LF (universal_newlines (Spec.rows_text rows)) = true.
Proof.
  induction rows as [|row rest IH]; [reflexivity|].
  simpl forallb. intros H. apply andb_true_iff in H. destruct H as [Hrow Hrest].
  apply forallb_field_ok in Hrow. destruct Hrow as [Hcr _].
  rewrite (universal_newlines_rows_text row rest Hcr).
  apply ends_with_LF_line. apply IH. exact Hrest.
Qed.

Lemma feed_rows_text rows :
  forall acc,
    forallb (forallb Spec.field_ok) rows = true ->
    Spec.feed (universal_newlines (Spec.rows_text rows)) Csv.parse_reset acc
    = Val (Csv.parse_reset, acc ++ rows).
Proof.
  induction rows as [|row rest IH]; intros acc H.
  - rewrite app_nil_r. reflexivity.
  - simpl forallb in H. apply andb_true_iff in H. destruct H as [Hrow Hrest].
    apply forallb_field_ok in Hrow. destruct Hrow as [Hcr Hfit].
    rewrite (universal_newlines_rows_text row rest Hcr).
    change (String PyStr.LF (universal_newlines (Spec.rows_text rest)))
      with (String PyStr.LF EmptyString +:+ universal_newlines (Spec.rows_text rest)).
    rewrite <- append_assoc, feed_app, (feed_row_body row acc Hfit).
    rewrite (IH _ Hrest), <- app_assoc. reflexivity.
Qed.

(** The reader gives back the rows the writer wrote, when they go through a
    file read with universal newlines, provided no field holds a carriage
    return or exceeds the field size limit. *)
Theorem csv_reader_inverts_writer rows :
  forallb (forallb Spec.field_ok) rows = true ->
  Csv.reader (lines_of (universal_newlines (Spec.rows_text rows))) = Val rows.
Proof.
  intros H. unfold Csv.reader.
  rewrite read_rows_feed by (apply rows_text_ends_with_LF; exact H).
  rewrite (feed_rows_text rows [] H). reflexivity.
Qed.

Lemma writerows_rows_text `{PyLib} names activities rows :
  Forall2 (fun a row => Csv.dict_to_list names a = Val row) activities rows ->
  Csv.writerows names activities = (Spec.rows_text rows, None).
Proof.
  induction 1 as [|a row activities rows Ha _ IH]; [reflexivity|].
  cbn [Csv.writerows Spec.rows_text]. rewrite Ha, IH. reflexivity.
Qed.

Lemma dict_to_list_not_blank `{PyLib} a row :
  Csv.dict_to_list fieldnames a = Val row -> Csv.is_blank row = false.
Proof.
  unfold Csv.dict_to_list. destruct a; try discriminate.
  destruct (Csv.keys_within d fieldnames); [|discriminate].
  intros E. inversion E. reflexivity.
Qed.

Lemma filter_not_blank `{PyLib} activities rows :
  Forall2 (fun a row => Csv.dict_to_list fieldnames a = Val row) activities rows ->
  List.filter (fun r => negb (Csv.is_blank r)) rows = rows.
Proof.
  induction 1 as [|a row activities rows Ha _ IH]; [reflexivity|].
  simpl. rewrite (dict_to_list_not_blank a row Ha), IH. reflexivity.
Qed.

Lemma sortable_rows `{PyLib} activities rows :
  Forall2 (fun a row => Csv.dict_to_list fieldnames a = Val row) activities rows ->
  forallb sortable (map (Csv.row_dict fieldnames) rows) = true.
Proof.
  induction 1 as [|a row activities rows Ha _ IH]; [reflexivity|].
  cbn [map forallb]. rewrite IH, andb_true_r.
  unfold Csv.dict_to_list in Ha. destruct a; try discriminate.
  destruct (Csv.keys_within d fieldnames); [|discriminate].
  inversion Ha. reflexivity.
Qed.

Lemma served_rows `{PyLib} activities rows w :
  Forall2 (fun a row => Csv.dict_to_list fieldnames a = Val row) activities rows ->
  forallb (forallb Spec.field_ok) rows = true ->
  files w !! CSV_FILE = Some (Spec.rows_text (fieldnames :: rows)) ->
  get_activities w = Val (PList (map (Csv.row_dict fieldnames) rows), 200).
Proof.
  intros Hrows Hok Hfile.
  unfold get_activities, read_file. rewrite Hfile. cbn [option_map].
  unfold Csv.DictReader.
  rewrite csv_reader_inverts_writer.
  - rewrite (filter_not_blank activities rows Hrows).
    unfold jsonify. cbn [sortable].
    rewrite (sortable_rows activities rows Hrows). reflexivity.
  - simpl forallb. rewrite Hok. reflexivity.
Qed.

(** X13: the CSV snapshot read back by [GET /activities]: one row per
    record, each field the string the writer made of the value, provided no
    such string holds a carriage return or exceeds the field size limit. *)
Theorem csv_snapshot_round_trip `{PyLib} activities rows w :
  Forall2 (fun a row => Csv.dict_to_list fieldnames a = Val row) activities rows ->
  forallb (forallb Spec.field_ok) rows = true ->
  get_activities (snd (write_activities_to_csv activities CSV_FILE w))
  = Val (PList (map (Csv.row_dict fieldnames) rows), 200).
Proof.
  intros Hrows Hok.
  unfold write_activities_to_csv.
  rewrite (writerows_rows_text fieldnames activities rows Hrows).
  unfold bind, write_file, ret. cbn [snd].
  unfold get_activities, read_file. cbn [files set_files].
  rewrite lookup_insert_eq. cbn [option_map].
  change (Csv.writerow fieldnames +:+ Spec.rows_text rows)
    with (Spec.rows_text (fieldnames :: rows)).
  unfold Csv.DictReader.
  rewrite csv_reader_inverts_writer.
  - rewrite (filter_not_blank activities rows Hrows).
    unfold jsonify. cbn [sortable].
    rewrite (sortable_rows activities rows Hrows). reflexivity.
  - simpl forallb. rewrite Hok. reflexivity.
Qed.

(** The fields of an activity record as [DictWriter] lays them out, and the
    row [DictReader] makes of six fields. *)
Lemma record_fields `{PyLib} id date type distance suffer heart :
  Csv.dict_to_list fieldnames
    (PDict [(KStr "id", id); (KStr "date", date); (KStr "type", type);
            (KStr "distance", distance); (KStr "suffer_score", suffer);
            (KStr "average_heartrate", heart)])
  = Val [Csv.field_of id; Csv.field_of date; Csv.field_of type;
         Csv.field_of distance; Csv.field_of suffer; Csv.field_of heart].
Proof. reflexivity. Qed.


(** ** C8: the query service *)

Lemma raw_endpoint_empty_file `{PyLib} w :
  files w !! JSON_FILE = Some EmptyString ->
  get_raw_activities w = Exn JSONDecodeError.
Proof.
  intros Hf. unfold get_raw_activities, read_file.
  rewrite Hf. cbn [option_map universal_newlines].
  rewrite json_loads_empty. reflexivity.
Qed.

(** C8 as stated fails for a snapshot file that exists and does not parse:
    with an empty [hiking_activities.json] -- the state of the file right
    after [main] opens it for writing -- the handler of [GET /raw-activities]
    raises, and the request is answered with 500, not 200. *)
Lemma C8_counterexample :
  files (Sample.world_with {[ JSON_FILE := EmptyString ]} [] []) !! JSON_FILE
  = Some EmptyString
  /\ @get_raw_activities Sample.lib
       (Sample.world_with {[ JSON_FILE := EmptyString ]} [] [])
     = Exn JSONDecodeError
  /\ http_status (@get_raw_activities Sample.lib
                    (Sample.world_with {[ JSON_FILE := EmptyString ]} [] []))
     <> 200.
Proof.
  assert (Hf : files (Sample.world_with {[ JSON_FILE := EmptyString ]} [] [])
               !! JSON_FILE = Some EmptyString) by reflexivity.
  split; [exact Hf|].
  rewrite (@raw_endpoint_empty_file Sample.lib _ Hf).
  split; [reflexivity | discriminate].
Qed.

(** C8 (amended): each endpoint answers 404 with a body that has an [error]
    key when its snapshot file does not exist; when the file exists it
    answers 200 with the parsed contents provided the contents parse (the
    CSV reader raises no error, the JSON document decodes) and can be
    serialised, and the request fails with 500 otherwise. *)
Theorem C8_snapshot_endpoints `{PyLib} (w : world) :
  (files w !! CSV_FILE = None ->
   exists body, get_activities w = Val (body, 404)
                /\ Py.getitem body "error" = Val (PStr "Activities file not found."))
  /\ (files w !! JSON_FILE = None ->
      exists body, get_raw_activities w = Val (body, 404)
                   /\ Py.getitem body "error"
                      = Val (PStr "Raw activities file not found."))
  /\ (forall text,
        files w !! CSV_FILE = Some text ->
        match Csv.DictReader (lines_of (universal_newlines text)) with
        | Val rows =>
            if sortable (PList rows)
            then get_activities w = Val (PList rows, 200)
            else http_status (get_activities w) = 500
        | Exn e => http_status (get_activities w) = 500
        end)
  /\ (forall text,
        files w !! JSON_FILE = Some text ->
        match json_loads (universal_newlines text) with
        | Some v =>
            if sortable v
            then get_raw_activities w = Val (v, 200)
            else http_status (get_raw_activities w) = 500
        | None => http_status (get_raw_activities w) = 500
        end).
Proof.
  split; [|split; [|split]].
  - intros Hf. unfold get_activities, read_file. rewrite Hf.
    eexists. split; reflexivity.
  - intros Hf. unfold get_raw_activities, read_file. rewrite Hf.
    eexists. split; reflexivity.
  - intros text Hf. unfold get_activities, read_file, jsonify. rewrite Hf.
    cbn [option_map].
    destruct (Csv.DictReader (lines_of (universal_newlines text))) as [rows|e];
      [|reflexivity].
    destruct (sortable (PList rows)); reflexivity.
  - intros text Hf. unfold get_raw_activities, read_file, jsonify. rewrite Hf.
    cbn [option_map].
    destruct (json_loads (universal_newlines text)) as [v|]; [|reflexivity].
    destruct (sortable v); reflexivity.
Qed.

Lemma C8_witness :
  (exists body,
      @get_raw_activities Sample.lib Sample.idle = Val (body, 404)
      /\ Py.getitem body "error" = Val (PStr "Raw activities file not found."))
  /\ @get_raw_activities Sample.lib
       (Sample.world_with {[ JSON_FILE := "[]" ]} [] [])
     = Val (PList [], 200).
Proof.
  split.
  - apply (proj1 (proj2 (@C8_snapshot_endpoints Sample.lib Sample.idle))).
    reflexivity.
  - exact (proj2 (proj2 (proj2
             (@C8_snapshot_endpoints Sample.lib
                (Sample.world_with {[ JSON_FILE := "[]" ]} [] []))))
             "[]" eq_refl).
Defined.

(** ** C7: the snapshot round trip *)


Lemma isdigit_not_CR c : PyStr.isdigit c = true -> negb (Ascii.eqb c PyStr.CR) = true.
Proof.
  intros Hd. destruct (Ascii.eqb c PyStr.CR) eqn:E; [|reflexivity].
  apply Ascii.eqb_eq in E. subst c. discriminate Hd.
Qed.












(** ** Worked examples *)

Example strip_example :
  PyStr.strip (String PyStr.LF " tok en  ") = "tok en".
Proof. reflexivity. Qed.

Example int_of_str_examples :
  PyStr.int_of_str " -1_000 " = Some (-1000)
  /\ PyStr.int_of_str "0012" = Some 12
  /\ PyStr.int_of_str "12_" = None
  /\ PyStr.int_of_str "1__2" = None
  /\ PyStr.int_of_str "+-1" = None
  /\ PyStr.int_of_str "1.0" = None
  /\ PyStr.int_of_str "" = None.
Proof. repeat split; reflexivity. Qed.

(** [int()] reads 4300 digits and no more, leading zeros included. *)
Example int_of_str_digit_limit :
  PyStr.int_of_str (Cases.repeated "0" 4300) = Some 0
  /\ PyStr.int_of_str (Cases.repeated "0" 4301) = None
  /\ PyStr.int_of_str (" -" +:+ Cases.repeated "0" 4299 +:+ "7 ") = Some (-7)
  /\ PyStr.int_of_str ("-" +:+ Cases.repeated "0" 4300 +:+ "7") = None.
Proof. repeat split; vm_compute; reflexivity. Qed.

(** Header values as requests and [http.client] take them: a line feed at
    the very end passes the check of requests and fails that of
    [putheader]. *)
Example header_error_examples :
  header_error "Bearer a" = None
  /\ header_error EmptyString = None
  /\ header_error ("Bearer a" +:+ String PyStr.LF "b") = Some InvalidHeader
  /\ header_error ("Bearer a" +:+ String PyStr.LF " b") = Some InvalidHeader
  /\ header_error ("Bearer a" +:+ String PyStr.CR EmptyString)
     = Some InvalidHeader
  /\ header_error " Bearer a" = Some InvalidHeader
  /\ header_error ("Bearer a" +:+ String PyStr.LF EmptyString) = Some ValueError
  /\ header_error (String PyStr.LF EmptyString) = Some ValueError.
Proof. repeat split; reflexivity. Qed.

(** Sleeps on the sample platform. *)
Example sleep_examples :
  fst (@sleep Sample.lib 900 Sample.idle) = Val tt
  /\ clock (snd (@sleep Sample.lib 900 Sample.idle)) = 1900
  /\ fst (@sleep Sample.lib (-1) Sample.idle) = Exn ValueError
  /\ fst (@sleep Sample.lib 9223372036 Sample.idle) = Exn OSError
  /\ fst (@sleep Sample.lib 9223372037 Sample.idle) = Exn OverflowError.
Proof. repeat split; reflexivity. Qed.

(** A reset time too far away for [time.sleep] ends the fetch, and the
    cycle, with an [OverflowError]; nothing is asked for again. *)
Example far_reset_time_ends_fetch :
  @fetch_activities Sample.lib
    [Sample.rate_limited "99999999999"; Sample.page []] 0 Sample.idle
  = (Exn OverflowError, [Sample.page []],
     log (EvGet activities_url "Bearer a0" 0 200 1 429) Sample.idle).
Proof. vm_compute. reflexivity. Qed.

Example of_int_examples :
  PyStr.of_int 0 = "0" /\ PyStr.of_int (-42) = "-42" /\ PyStr.of_int 2025 = "2025".
Proof. repeat split; reflexivity. Qed.

Example float_of_int_examples :
  Py.float_of_int 5000 = Val 5000%float
  /\ Py.float_of_int (2 ^ 53 + 1) = Val 9007199254740992%float
  /\ Py.float_of_int (2 ^ 1024) = Exn OverflowError.
Proof. repeat split; vm_compute; reflexivity. Qed.

Example since_date_timestamp :
  fst (date_to_unix_timestamp since_date Sample.idle) = Val 1735689600.
Proof. reflexivity. Qed.

Example strptime_examples :
  Calendar.strptime "2025-1-1" = Some (2025, 1, 1)
  /\ Calendar.strptime "2025-01- 1" = Some (2025, 1, 1)
  /\ Calendar.strptime "2024-02-29" = Some (2024, 2, 29)
  /\ Calendar.strptime "2023-02-29" = None
  /\ Calendar.strptime "2025-13-01" = None
  /\ Calendar.strptime "2025-01-32" = None
  /\ Calendar.strptime "0000-01-01" = None.
Proof. repeat split; reflexivity. Qed.

Example writerow_examples :
  Csv.writerow ["1"; String "a" (String PyStr.CR "b"); "Hike"]
  = "1," +:+ String Csv.DQUOTE (String "a" (String PyStr.CR "b"))
    +:+ String Csv.DQUOTE ",Hike" +:+ Csv.lineterminator
  /\ Csv.writerow [EmptyString]
     = String Csv.DQUOTE (String Csv.DQUOTE Csv.lineterminator)
  /\ Csv.writerow [EmptyString; EmptyString] = "," +:+ Csv.lineterminator
  /\ Csv.writerow [] = Csv.lineterminator.
Proof. repeat split; reflexivity. Qed.

Example DictReader_examples :
  Csv.DictReader (lines_of EmptyString) = Val []
  /\ Csv.DictReader (lines_of ("a,b" +:+ String PyStr.LF
                               (String PyStr.LF ("1,2" +:+ String PyStr.LF ""))))
     = Val [PDict [(KStr "a", PStr "1"); (KStr "b", PStr "2")]]
  /\ Csv.DictReader (lines_of ("a,b" +:+ String PyStr.LF
                               ("1" +:+ String PyStr.LF
                                ("1,2,3" +:+ String PyStr.LF ""))))
     = Val [PDict [(KStr "a", PStr "1"); (KStr "b", PNone)];
            PDict [(KStr "a", PStr "1"); (KStr "b", PStr "2");
                   (KNone, PList [PStr "3"])]]
  /\ Csv.DictReader (lines_of ("a,b" +:+ String PyStr.LF "1,2"))
     = Val [PDict [(KStr "a", PStr "1"); (KStr "b", PStr "2")]].
Proof. repeat split; reflexivity. Qed.

(** A row with more fields than the header gets the key [None] next to the
    header's names, and Flask cannot sort such keys. *)
Example long_row_is_not_served :
  http_status
    (get_activities
       (Sample.world_with
          {[ CSV_FILE := "a,b" +:+ String PyStr.LF
                           ("1,2,3" +:+ String PyStr.LF "") ]} [] []))
  = 500.
Proof. reflexivity. Qed.

(** Fifty pages with activities: the fetch stops there and does not ask for
    the page that follows. *)
Example fetch_stops_at_ceiling :
  fst (@fetch_activities Sample.lib
         (List.repeat (Sample.page Sample.three_activities) 50
          ++ [Sample.page Sample.three_activities])
         0 Sample.idle)
  = (Val (concat (List.repeat [Sample.hike 1 1%float; Sample.hike 3 2%float] 50)),
     [Sample.page Sample.three_activities]).
Proof. vm_compute. reflexivity. Qed.

(** One whole cycle: refresh, a rate-limited and an expired request, one
    page of activities, the end of the listing, and the two snapshots. *)
Example one_cycle :
  let w := Sample.world_with {[ REFRESH_TOKEN_FILE := "r0 " ]}
             [Sample.token_response "a1" "r1"; Sample.token_response "a2" "r2"]
             [] in
  let gets := [Sample.rate_limited "1010"; Sample.status_only 401 [];
               Sample.page Sample.three_activities; Sample.page []] in
  let w' := snd (@main Sample.lib gets w) in
  fst (@main Sample.lib gets w) = (Val tt, [])
  /\ files w' !! REFRESH_TOKEN_FILE = Some "r2"
  /\ ACCESS_TOKEN w' = PStr "a2"
  /\ clock w' = 1010
  /\ files w' !! CSV_FILE
     = Some ("id,date,type,distance,suffer_score,average_heartrate"
             +:+ Csv.lineterminator
             +:+ "1,2025-02-01T10:00:00Z,Hike,1.0,," +:+ Csv.lineterminator
             +:+ "3,2025-02-01T10:00:00Z,Hike,2.0,," +:+ Csv.lineterminator)
  /\ get_activities w'
     = Val (PList [PDict [(KStr "id", PStr "1");
                          (KStr "date", PStr "2025-02-01T10:00:00Z");
                          (KStr "type", PStr "Hike");
                          (KStr "distance", PStr "1.0");
                          (KStr "suffer_score", PStr EmptyString);
                          (KStr "average_heartrate", PStr EmptyString)];
                   PDict [(KStr "id", PStr "3");
                          (KStr "date", PStr "2025-02-01T10:00:00Z");
                          (KStr "type", PStr "Hike");
                          (KStr "distance", PStr "2.0");
                          (KStr "suffer_score", PStr EmptyString);
                          (KStr "average_heartrate", PStr EmptyString)]],
            200).
Proof. repeat split; vm_compute; reflexivity. Qed.

(** A field that holds a carriage return does not come back as written: the
    writer, which opens the file with [newline=''], quotes the field and
    writes the carriage return as it is, and [get_activities], which opens
    the file without [newline=''], reads it back as a line feed.  Here a
    cycle fetches one hike whose start date, not an ISO-8601 date, ends with
    a carriage return. *)
Example carriage_return_read_as_line_feed :
  let w := Sample.world_with {[ REFRESH_TOKEN_FILE := "r0" ]}
             [Sample.token_response "a1" "r1"] [] in
  let gets := [Sample.page [Sample.activity_with_cr]; Sample.page []] in
  fst (fst (@fetch_activities Sample.lib gets 0 w)) = Val [Sample.hike_with_cr]
  /\ fst (@main Sample.lib gets w) = (Val tt, [])
  /\ files (snd (@main Sample.lib gets w)) !! CSV_FILE
     = files (snd (@write_activities_to_csv Sample.lib [Sample.hike_with_cr]
                     CSV_FILE w)) !! CSV_FILE
  /\ Py.getitem Sample.hike_with_cr "date"
     = Val (PStr ("2025-02-01T10:00:00Z" +:+ String PyStr.CR EmptyString))
  /\ get_activities (snd (@main Sample.lib gets w))
     = Val (PList [PDict [(KStr "id", PStr "1");
                          (KStr "date",
                            PStr ("2025-02-01T10:00:00Z"
                                  +:+ String PyStr.LF EmptyString));
                          (KStr "type", PStr "Hike");
                          (KStr "distance", PStr "1.0");
                          (KStr "suffer_score", PStr EmptyString);
                          (KStr "average_heartrate", PStr EmptyString)]],
            200).
Proof. repeat split; vm_compute; reflexivity. Qed.

(** * Further properties *)

(** ** The cutoff date *)

Lemma digit_value_range c : PyStr.isdigit c = true -> 0 <= PyStr.digit_value c <= 9.
Proof.
  unfold PyStr.isdigit, PyStr.digit_value. intros E.
  apply andb_true_iff in E. destruct E as [E1 E2].
  apply Z.leb_le in E1, E2. lia.
Qed.

Lemma two_digits_range hi s v r :
  Calendar.two_digits hi s = Some (v, r) -> 9 <= hi -> 1 <= v <= hi.
Proof.
  unfold Calendar.two_digits. intros E Hhi.
  destruct s as [|a [|b s]]; [discriminate | |].
  - destruct (PyStr.isdigit a) eqn:Da; [|discriminate].
    destruct (1 <=? PyStr.digit_value a) eqn:L; [|discriminate].
    inversion E; subst. apply Z.leb_le in L.
    pose proof (digit_value_range a Da). lia.
  - destruct (PyStr.isdigit a) eqn:Da; [|discriminate]. cbn [andb] in E.
    destruct (PyStr.isdigit b
              && (1 <=? 10 * PyStr.digit_value a + PyStr.digit_value b)
              && (10 * PyStr.digit_value a + PyStr.digit_value b <=? hi)) eqn:T.
    + inversion E; subst.
      apply andb_true_iff in T. destruct T as [T T3].
      apply andb_true_iff in T. destruct T as [T1 T2].
      apply Z.leb_le in T2, T3. lia.
    + destruct (1 <=? PyStr.digit_value a) eqn:L; [|discriminate].
      inversion E; subst. apply Z.leb_le in L.
      pose proof (digit_value_range a Da). lia.
Qed.

Lemma day_digits_range s v r : Calendar.day_digits s = Some (v, r) -> 1 <= v <= 31.
Proof.
  unfold Calendar.day_digits. intros E.
  assert (Htwo : Calendar.two_digits 31 s = Some (v, r) -> 1 <= v <= 31).
  { intros E2. apply (two_digits_range 31 s v r E2). lia. }
  destruct s as [|a s]; [auto|].
  destruct (Ascii.eqb a " ") eqn:Ha.
  - apply Ascii.eqb_eq in Ha. subst a.
    destruct s as [|b s]; [auto|].
    destruct (PyStr.isdigit b) eqn:Db; [|discriminate]. cbn [andb] in E.
    destruct (1 <=? PyStr.digit_value b) eqn:L; [|discriminate].
    inversion E; subst. apply Z.leb_le in L.
    pose proof (digit_value_range b Db). lia.
  - apply Htwo. rewrite <- E.
    destruct a as [[] [] [] [] [] [] [] []]; try reflexivity; discriminate.
Qed.

(** X1: [date_to_unix_timestamp] takes real calendar dates only: it returns
    a timestamp when [strptime] reads the string as a year from 1 to 9999, a
    month from 1 to 12 and a day that the month of that year has; any other
    string raises [ValueError].  The function changes nothing. *)
Theorem date_to_unix_timestamp_dates (date_str : string) (w : world) :
  match Calendar.strptime date_str with
  | Some (y, m, d) =>
      1 <= y <= 9999 /\ 1 <= m <= 12 /\ 1 <= d <= Calendar.days_in_month y m
      /\ exists t, date_to_unix_timestamp date_str w = (Val t, w)
  | None => date_to_unix_timestamp date_str w = (Exn ValueError, w)
  end.
Proof.
  unfold date_to_unix_timestamp.
  destruct (Calendar.strptime date_str) as [[[y m] d]|] eqn:E; [|reflexivity].
  split; [|split; [|split; [|eexists; reflexivity]]];
    unfold Calendar.strptime in E;
    destruct date_str as [|a [|b [|c [|d0 [|dash r]]]]]; try discriminate;
    destruct (Ascii.eqb dash "-") eqn:Hd;
    try (destruct dash as [[] [] [] [] [] [] [] []]; discriminate);
    apply Ascii.eqb_eq in Hd; subst dash;
    destruct (PyStr.isdigit a) eqn:Da; try discriminate;
    destruct (PyStr.isdigit b) eqn:Db; try discriminate;
    destruct (PyStr.isdigit c) eqn:Dc; try discriminate;
    destruct (PyStr.isdigit d0) eqn:Dd; try discriminate;
    cbn [andb] in E;
    destruct (Calendar.two_digits 12 r) as [[m' r1]|] eqn:Hm; try discriminate;
    destruct r1 as [|dash r2]; try discriminate;
    destruct (Ascii.eqb dash "-") eqn:Hd2;
    try (destruct dash as [[] [] [] [] [] [] [] []]; discriminate);
    apply Ascii.eqb_eq in Hd2; subst dash;
    destruct (Calendar.day_digits r2) as [[dd r3]|] eqn:Hday; try discriminate;
    destruct r3; try discriminate;
    match type of E with
    | (if ?c then _ else _) = _ => destruct c eqn:Hc; [|discriminate]
    end;
    inversion E; subst;
    apply andb_true_iff in Hc; destruct Hc as [Hy Hdd];
    apply Z.leb_le in Hy, Hdd;
    pose proof (digit_value_range a Da); pose proof (digit_value_range b Db);
    pose proof (digit_value_range c Dc); pose proof (digit_value_range d0 Dd);
    pose proof (two_digits_range 12 r m _ Hm);
    pose proof (day_digits_range r2 d _ Hday); lia.
Qed.

(** ** The token store *)

Lemma lstrip_clean p s : Spec.clean_start p s = true -> PyStr.lstrip p s = s.
Proof.
  destruct s as [|c s]; [reflexivity|]. simpl. intros E.
  apply negb_true_iff in E. rewrite E. reflexivity.
Qed.

Lemma rstrip_clean p s : Spec.clean_end p s = true -> PyStr.rstrip p s = s.
Proof.
  induction s as [|c s IH]; [reflexivity|]. intros E.
  destruct s as [|d s].
  - simpl in *. apply negb_true_iff in E. rewrite E. reflexivity.
  - change (Spec.clean_end p (String c (String d s)))
      with (Spec.clean_end p (String d s)) in E.
    change (PyStr.rstrip p (String c (String d s)))
      with (match PyStr.rstrip p (String d s) with
            | EmptyString => if p c then EmptyString else String c EmptyString
            | r' => String c r'
            end).
    rewrite (IH E). reflexivity.
Qed.

(** X2: the token store gives back what was saved: for a token [t] that
    holds no carriage return and neither begins nor ends with white space,
    [save_refresh_token(t)] leaves the file holding [t] and everything else
    as it was, and [load_refresh_token()] then returns [t]. *)
Theorem token_store_round_trip (t : string) (w : world) :
  Spec.no_CR t = true ->
  Spec.clean_start PyStr.isspace t = true ->
  Spec.clean_end PyStr.isspace t = true ->
  save_refresh_token (PStr t) w
  = (Val tt, set_files (<[REFRESH_TOKEN_FILE := t]> (files w)) w)
  /\ load_refresh_token (snd (save_refresh_token (PStr t) w))
     = (Val (Some t), snd (save_refresh_token (PStr t) w)).
Proof.
  intros Hcr Hs He.
  assert (Hsave : save_refresh_token (PStr t) w
                  = (Val tt, set_files (<[REFRESH_TOKEN_FILE := t]> (files w)) w)).
  { unfold save_refresh_token, bind, write_file. cbn.
    rewrite insert_insert_eq. reflexivity. }
  split; [exact Hsave|]. rewrite Hsave. cbn [snd].
  unfold load_refresh_token, read_file. cbn [files set_files].
  rewrite lookup_insert_eq. cbn [option_map].
  rewrite (universal_newlines_no_CR t Hcr).
  unfold PyStr.strip. rewrite (lstrip_clean _ _ Hs), (rstrip_clean _ _ He).
  reflexivity.
Qed.

Lemma token_store_round_trip_witness :
  save_refresh_token (PStr "r1") Sample.idle
  = (Val tt, set_files (<[REFRESH_TOKEN_FILE := "r1"]> (files Sample.idle))
               Sample.idle)
  /\ load_refresh_token (snd (save_refresh_token (PStr "r1") Sample.idle))
     = (Val (Some "r1"), snd (save_refresh_token (PStr "r1") Sample.idle)).
Proof.
  apply (token_store_round_trip "r1" Sample.idle); reflexivity.
Defined.

(** X3: [save_refresh_token] with a token that is not a [str] -- the JSON
    [null] or a number in the answer of the token endpoint -- raises
    [TypeError] after the file was opened for writing: the stored token is
    gone, the file is empty, and the next [refresh_access_token()] goes
    straight to reauthorization. *)
Theorem save_refresh_token_not_str (token : pyval) (w : world) :
  (forall s, token <> PStr s) ->
  save_refresh_token token w
  = (Exn TypeError, set_files (<[REFRESH_TOKEN_FILE := EmptyString]> (files w)) w)
  /\ load_refresh_token (snd (save_refresh_token token w))
     = (Val (Some EmptyString), snd (save_refresh_token token w))
  /\ refresh_access_token (snd (save_refresh_token token w))
     = reauthorize_app (snd (save_refresh_token token w)).
Proof.
  intros Hns.
  assert (Hsave : save_refresh_token token w
                  = (Exn TypeError,
                     set_files (<[REFRESH_TOKEN_FILE := EmptyString]> (files w)) w)).
  { unfold save_refresh_token, bind, write_file, raise.
    destruct token; try reflexivity. destruct (Hns s eq_refl). }
  split; [exact Hsave|]. rewrite Hsave. cbn [snd].
  assert (Hload : load_refresh_token
                    (set_files (<[REFRESH_TOKEN_FILE := EmptyString]> (files w)) w)
                  = (Val (Some EmptyString),
                     set_files (<[REFRESH_TOKEN_FILE := EmptyString]> (files w)) w)).
  { unfold load_refresh_token, read_file. cbn [files set_files].
    rewrite lookup_insert_eq. reflexivity. }
  split; [exact Hload|].
  unfold refresh_access_token. rewrite bind_eq, Hload. reflexivity.
Qed.

Lemma save_refresh_token_not_str_witness :
  let w := Cases.stored "r0" [] [] in
  save_refresh_token PNone w
  = (Exn TypeError,
     set_files (<[REFRESH_TOKEN_FILE := EmptyString]> (files w)) w)
  /\ load_refresh_token (snd (save_refresh_token PNone w))
     = (Val (Some EmptyString), snd (save_refresh_token PNone w))
  /\ refresh_access_token (snd (save_refresh_token PNone w))
     = reauthorize_app (snd (save_refresh_token PNone w)).
Proof.
  apply (save_refresh_token_not_str PNone (Cases.stored "r0" [] [])).
  intros s. discriminate.
Defined.

(** ** The auth client *)

(** The auth client appends nothing but its own events. *)
Lemma respects_auth_events (P : event -> bool) :
  (forall e, Shape.auth_event e = true -> P e = true) ->
  Spec.respects P reauthorize_app /\ Spec.respects P refresh_access_token.
Proof.
  intros HP.
  assert (Hre : Spec.respects P reauthorize_app).
  { unfold reauthorize_app.
    apply respects_bind; [apply respects_input; [apply HP; reflexivity|] |].
    { intros l. rewrite !HP; reflexivity. }
    intros code.
    apply respects_bind; [apply respects_post; intros; apply HP; reflexivity |].
    intros resp.
    apply respects_bind; [apply respects_lift |]. intros _.
    apply respects_bind; [apply respects_lift |]. intros tokens.
    apply respects_bind; [apply respects_lift |]. intros access.
    apply respects_bind; [apply respects_set_token |]. intros _.
    apply respects_bind; [apply respects_lift |]. intros refresh.
    apply respects_bind; [apply respects_save |]. intros _.
    apply respects_ret. }
  split; [exact Hre|].
  unfold refresh_access_token.
  apply respects_bind.
  { intros w. unfold load_refresh_token.
    destruct (read_file REFRESH_TOKEN_FILE w); apply auth_effect_refl. }
  intros [[|c tok]|]; try exact Hre.
  apply respects_bind; [apply respects_post; intros; apply HP; reflexivity |].
  intros resp.
  destruct (negb (status_code resp =? 200)); [exact Hre|].
  apply respects_bind; [apply respects_lift |]. intros tokens.
  apply respects_bind; [apply respects_lift |]. intros access.
  apply respects_bind; [apply respects_set_token |]. intros _.
  apply respects_bind; [apply respects_lift |]. intros refresh.
  apply respects_bind; [apply respects_save |]. intros _.
  apply respects_ret.
Qed.

(** X4: an authorization code that the token endpoint rejects: the code is
    sent as typed, [reauthorize_app()] raises the [HTTPError] of the answer
    and changes neither the access token nor any file.  In a cycle that had
    to reauthorize for want of a stored token, [main] swallows that error:
    no page is requested and the cycle ends quietly. *)
Theorem reauthorize_app_rejected `{PyLib} (w : world) (line : string)
    (lines : list string) (r : response) (answers gets : list response) :
  stdin w = line :: lines ->
  posts w = r :: answers ->
  400 <= status_code r < 600 ->
  let w' := log (EvPost token_url (authorization_code_payload line w)
                   (status_code r))
              (set_posts answers (log (EvInput line) (set_stdin lines w))) in
  reauthorize_app w = (Exn (HTTPError (status_code r)), w')
  /\ files w' = files w
  /\ ACCESS_TOKEN w' = ACCESS_TOKEN w
  /\ trace w' = trace w ++ [EvInput line;
                            EvPost token_url (authorization_code_payload line w)
                              (status_code r)]
  /\ (files w !! REFRESH_TOKEN_FILE = None -> main gets w = (Val tt, gets, w')).
Proof.
  intros Hin Hpost Hs w'.
  assert (Hre : reauthorize_app w = (Exn (HTTPError (status_code r)), w')).
  { unfold reauthorize_app. rewrite bind_eq. unfold input. rewrite Hin.
    rewrite bind_eq. unfold requests_post. cbn [posts log set_stdin].
    rewrite Hpost. rewrite bind_eq. unfold lift, Response.raise_for_status.
    replace ((400 <=? status_code r) && (status_code r <? 600)) with true.
    - reflexivity.
    - symmetry. apply andb_true_iff. split; [apply Z.leb_le | apply Z.ltb_lt]; lia. }
  split; [exact Hre|]. split; [reflexivity|]. split; [reflexivity|].
  split; [subst w'; simpl; rewrite <- app_assoc; reflexivity|].
  intros Hnone. unfold main, main_try.
  assert (Hrefresh : refresh_access_token w = reauthorize_app w).
  { unfold refresh_access_token. rewrite bind_eq.
    unfold load_refresh_token, read_file. rewrite Hnone. reflexivity. }
  rewrite Hrefresh, Hre. reflexivity.
Qed.

Lemma reauthorize_app_rejected_witness :
  let w := Sample.world_with ∅ [Sample.status_only 400 []] ["bad code"] in
  let w' := log (EvPost token_url (authorization_code_payload "bad code" w) 400)
              (set_posts [] (log (EvInput "bad code") (set_stdin [] w))) in
  reauthorize_app w = (Exn (HTTPError 400), w')
  /\ files w' = files w
  /\ ACCESS_TOKEN w' = ACCESS_TOKEN w
  /\ trace w' = trace w ++ [EvInput "bad code";
                            EvPost token_url
                              (authorization_code_payload "bad code" w) 400]
  /\ (files w !! REFRESH_TOKEN_FILE = None ->
      @main Sample.lib [Sample.page []] w = (Val tt, [Sample.page []], w')).
Proof.
  apply (@reauthorize_app_rejected Sample.lib
           (Sample.world_with ∅ [Sample.status_only 400 []] ["bad code"])
           "bad code" [] (Sample.status_only 400 []) [] [Sample.page []]);
    [reflexivity | reflexivity | simpl; lia].
Defined.

(** X5: a first run with no token file and nobody at the console:
    [reauthorize_app()] raises [EOFError] before it sends anything, [main]
    does not catch it, and the scheduler loop ends at once -- no request, no
    sleep, no file touched. *)
Theorem reauthorize_without_console `{PyLib} (gets : list response) (w : world) :
  stdin w = [] ->
  files w !! REFRESH_TOKEN_FILE = None ->
  reauthorize_app w = (Exn EOFError, w)
  /\ main gets w = (Exn EOFError, gets, w)
  /\ forall n, scheduler (S n) gets w = (Exn EOFError, gets, w).
Proof.
  intros Hin Hnone.
  assert (Hre : reauthorize_app w = (Exn EOFError, w)).
  { unfold reauthorize_app. rewrite bind_eq. unfold input. rewrite Hin.
    reflexivity. }
  assert (Hmain : main gets w = (Exn EOFError, gets, w)).
  { unfold main, main_try.
    assert (Hrefresh : refresh_access_token w = reauthorize_app w).
    { unfold refresh_access_token. rewrite bind_eq.
      unfold load_refresh_token, read_file. rewrite Hnone. reflexivity. }
    rewrite Hrefresh, Hre. reflexivity. }
  split; [exact Hre|]. split; [exact Hmain|].
  intros n. cbn [scheduler]. rewrite Hmain. reflexivity.
Qed.

Lemma reauthorize_without_console_witness :
  reauthorize_app Sample.idle = (Exn EOFError, Sample.idle)
  /\ @main Sample.lib [Sample.page []] Sample.idle
     = (Exn EOFError, [Sample.page []], Sample.idle)
  /\ forall n, @scheduler Sample.lib (S n) [Sample.page []] Sample.idle
               = (Exn EOFError, [Sample.page []], Sample.idle).
Proof.
  apply (@reauthorize_without_console Sample.lib [Sample.page []] Sample.idle);
    reflexivity.
Defined.

(** X6: a refresh-token exchange that is answered with any status other
    than 200: [refresh_access_token()] has sent the stored token, stripped,
    in one request, ignores what the answer holds, and goes on exactly as
    [reauthorize_app()] does from there. *)
Theorem refresh_rejected_reauthorizes (w : world) (s : string) (r : response)
    (answers : list response) :
  read_file REFRESH_TOKEN_FILE w = Some s ->
  PyStr.strip s <> EmptyString ->
  posts w = r :: answers ->
  status_code r <> 200 ->
  refresh_access_token w
  = reauthorize_app
      (log (EvPost token_url (refresh_token_payload (PyStr.strip s) w)
              (status_code r))
         (set_posts answers w)).
Proof.
  intros Hfile Hs Hpost Hstatus.
  unfold refresh_access_token. rewrite bind_eq.
  unfold load_refresh_token. rewrite Hfile.
  destruct (PyStr.strip s) as [|c tok] eqn:Hstrip; [congruence|].
  rewrite bind_eq. unfold requests_post. rewrite Hpost.
  apply Z.eqb_neq in Hstatus. rewrite Hstatus. reflexivity.
Qed.

Lemma refresh_rejected_reauthorizes_witness :
  let w := Cases.stored "r0 " [Sample.status_only 400 [];
                               Sample.token_response "a1" "r1"] ["code"] in
  refresh_access_token w
  = reauthorize_app
      (log (EvPost token_url (refresh_token_payload "r0" w) 400)
         (set_posts [Sample.token_response "a1" "r1"] w))
  /\ fst (refresh_access_token w) = Val (PStr "a1").
Proof.
  split; [|reflexivity].
  apply (refresh_rejected_reauthorizes
           (Cases.stored "r0 " [Sample.status_only 400 [];
                                Sample.token_response "a1" "r1"] ["code"])
           "r0 " (Sample.status_only 400 []) [Sample.token_response "a1" "r1"]);
    [reflexivity | discriminate | reflexivity | discriminate].
Defined.

(** X7: a refresh-token exchange that is answered 200 never brings in the
    operator: whatever the answer holds, [refresh_access_token()] sends
    that one request, with the stored token stripped, reads nothing from
    the console and asks the token endpoint for nothing more. *)
Theorem refresh_accepted_is_silent (w : world) (s : string) (r : response)
    (answers : list response) :
  read_file REFRESH_TOKEN_FILE w = Some s ->
  PyStr.strip s <> EmptyString ->
  posts w = r :: answers ->
  status_code r = 200 ->
  trace (snd (refresh_access_token w))
  = trace w ++ [EvPost token_url (refresh_token_payload (PyStr.strip s) w) 200]
  /\ Spec.payload_field (refresh_token_payload (PyStr.strip s) w) "refresh_token"
     = Some (PyStr.strip s)
  /\ stdin (snd (refresh_access_token w)) = stdin w
  /\ posts (snd (refresh_access_token w)) = answers.
Proof.
  intros Hfile Hs Hpost Hstatus.
  unfold refresh_access_token. rewrite bind_eq.
  unfold load_refresh_token. rewrite Hfile.
  destruct (PyStr.strip s) as [|c tok] eqn:Hstrip; [congruence|].
  rewrite bind_eq. unfold requests_post. rewrite Hpost, Hstatus.
  cbn [Z.eqb Pos.eqb negb].
  set (w1 := log _ (set_posts answers w)).
  assert (Hw1 : trace w1 = trace w ++ [EvPost token_url
                                         (refresh_token_payload (String c tok) w) 200]
                /\ stdin w1 = stdin w /\ posts w1 = answers).
  { subst w1. auto. }
  destruct Hw1 as (T1 & S1 & P1).
  assert (Hrest : forall (m : M pyval),
             (forall w0, trace (snd (m w0)) = trace w0
                         /\ stdin (snd (m w0)) = stdin w0
                         /\ posts (snd (m w0)) = posts w0) ->
             trace (snd (m w1)) = trace w ++ [EvPost token_url
                                         (refresh_token_payload (String c tok) w) 200]
             /\ Spec.payload_field (refresh_token_payload (String c tok) w)
                  "refresh_token" = Some (String c tok)
             /\ stdin (snd (m w1)) = stdin w
             /\ posts (snd (m w1)) = answers).
  { intros m Hm. destruct (Hm w1) as (T & S & P).
    repeat split; try congruence. }
  apply Hrest. intros w0.
  unfold bind, lift, ret, raise, save_refresh_token, write_file,
    set_global_ACCESS_TOKEN.
  destruct (Response.json r) as [tokens|]; [|auto].
  destruct (Py.getitem tokens "access_token") as [access|]; [|auto].
  destruct (Py.getitem tokens "refresh_token") as [refresh|]; [|auto].
  destruct refresh; auto.
Qed.

Lemma refresh_accepted_is_silent_witness :
  let w := Cases.stored "r0 " [Sample.status_only 200 []] ["code"] in
  trace (snd (refresh_access_token w))
  = trace w ++ [EvPost token_url (refresh_token_payload "r0" w) 200]
  /\ Spec.payload_field (refresh_token_payload "r0" w) "refresh_token" = Some "r0"
  /\ stdin (snd (refresh_access_token w)) = ["code"]
  /\ posts (snd (refresh_access_token w)) = [].
Proof.
  apply (refresh_accepted_is_silent
           (Cases.stored "r0 " [Sample.status_only 200 []] ["code"])
           "r0 " (Sample.status_only 200 []) []);
    [reflexivity | discriminate | reflexivity | reflexivity].
Defined.

(** ** The loop of the fetcher, one round at a time *)

Lemma fetch_loop_step `{PyLib} r gets after_timestamp page auth activities w :
  fetch_loop (r :: gets) after_timestamp page auth activities w =
  if page <=? max_pages then
    match header_error auth with
    | Some e => (Exn e, r :: gets, w)
    | None =>
        match fetch_step r after_timestamp page auth activities w with
        | Continue page' auth' activities' w' =>
            fetch_loop gets after_timestamp page' auth' activities' w'
        | Stop res w' => (res, gets, w')
        end
    end
  else (Val activities, r :: gets, w).
Proof.
  rewrite fetch_loop_unfold. unfold fetch_step.
  destruct (page <=? max_pages); [|reflexivity].
  destruct (header_error auth); [reflexivity|]. cbv zeta.
  destruct (status_code r =? 429).
  { destruct (reset_time_of r); [|reflexivity].
    destruct (sleep _ _) as [[u|e] w1]; reflexivity. }
  destruct (status_code r =? 401).
  { destruct (refresh_access_token _) as [[token|e] w2]; reflexivity. }
  destruct (Response.raise_for_status r); [|reflexivity].
  destruct (Response.json r) as [data|e]; [|reflexivity].
  destruct (negb (Py.truthy data)); [reflexivity|].
  destruct (hiking_activities data); reflexivity.
Qed.

Lemma truediv_float v d x : Py.truediv v d = Val x -> exists f, x = PFloat f.
Proof.
  unfold Py.truediv. intros E.
  destruct v; try discriminate.
  - destruct (PrimFloat.eqb d 0); inversion E; eauto.
  - destruct (Py.float_of_int z); [|discriminate].
    destruct (PrimFloat.eqb d 0); inversion E; eauto.
  - destruct (PrimFloat.eqb d 0); inversion E; eauto.
Qed.

Lemma hike_record_is_record a r :
  hike_record a = Val (Some r) -> Shape.is_record r = true.
Proof.
  unfold hike_record. intros E.
  destruct (Py.getitem a "type") as [ty|] eqn:Hty; [|discriminate].
  destruct (Py.eq_str ty "Hike") eqn:Hike; [|discriminate]. cbn [negb] in E.
  destruct (Py.getitem a "id"); [|discriminate].
  destruct (Py.getitem a "start_date"); [|discriminate].
  destruct (Py.getitem a "distance"); [|discriminate].
  destruct (Py.truediv _ _) as [miles|] eqn:Hdiv; [|discriminate].
  destruct (Py.get a "suffer_score"); [|discriminate].
  destruct (Py.get a "average_heartrate"); [|discriminate].
  apply truediv_float in Hdiv. destruct Hdiv as (f & ->).
  inversion E; subst. cbn. rewrite Hike. reflexivity.
Qed.

Lemma hiking_of_list_records data :
  forall hikes, hiking_of_list data = Val hikes ->
                forallb Shape.is_record hikes = true.
Proof.
  induction data as [|a data IH]; intros hikes E; simpl in E.
  - inversion E. reflexivity.
  - destruct (hike_record a) as [o|] eqn:Ha; [|discriminate].
    destruct (hiking_of_list data) as [hs|]; [|discriminate].
    specialize (IH hs eq_refl).
    destruct o as [h|]; inversion E; subst; [|exact IH].
    simpl. rewrite (hike_record_is_record a h Ha). exact IH.
Qed.

Lemma hiking_activities_records data hikes :
  hiking_activities data = Val hikes -> forallb Shape.is_record hikes = true.
Proof.
  destruct data; try discriminate. apply hiking_of_list_records.
Qed.

Lemma fetch_step_effect `{PyLib} r after_timestamp page auth activities w :
  1 <= page <= max_pages ->
  exists evs,
    trace (step_world (fetch_step r after_timestamp page auth activities w))
    = trace w ++ EvGet activities_url auth after_timestamp per_page page
                   (status_code r) :: evs
    /\ Forall (fun e => Shape.fetch_event after_timestamp e = true
                        /\ Spec.is_get e = false) evs
    /\ (forall f, f <> REFRESH_TOKEN_FILE ->
          files (step_world (fetch_step r after_timestamp page auth activities w))
            !! f = files w !! f)
    /\ clock w
       <= clock (step_world (fetch_step r after_timestamp page auth activities w))
    /\ utc_offset (step_world (fetch_step r after_timestamp page auth activities w))
       = utc_offset w
    /\ environ (step_world (fetch_step r after_timestamp page auth activities w))
       = environ w
    /\ match fetch_step r after_timestamp page auth activities w with
       | Continue page' _ activities' _ =>
           (page' = page \/ page' = page + 1)
           /\ (forallb Shape.is_record activities = true ->
               forallb Shape.is_record activities' = true)
       | Stop res _ => forall l, res = Val l -> l = activities
       end.
Proof.
  intros Hp. unfold fetch_step. cbv zeta.
  set (e0 := EvGet activities_url auth after_timestamp per_page page (status_code r)).
  assert (Hstop : forall res, (forall l, res = Val l -> l = activities) ->
            exists evs,
              trace (step_world (Stop res (log e0 w))) = trace w ++ e0 :: evs
              /\ Forall (fun e => Shape.fetch_event after_timestamp e = true
                                  /\ Spec.is_get e = false) evs
              /\ (forall f, f <> REFRESH_TOKEN_FILE ->
                    files (step_world (Stop res (log e0 w))) !! f = files w !! f)
              /\ clock w <= clock (step_world (Stop res (log e0 w)))
              /\ utc_offset (step_world (Stop res (log e0 w))) = utc_offset w
              /\ environ (step_world (Stop res (log e0 w))) = environ w
              /\ forall l, res = Val l -> l = activities).
  { intros res Hres. exists []. simpl. repeat split; auto. lia. }
  destruct (status_code r =? 429).
  { destruct (reset_time_of r) as [reset_time|].
    2:{ apply Hstop. discriminate. }
    match goal with
    | |- context [sleep ?d ?w0] =>
        destruct (sleep_cases d w0) as [Hs | (e & Hs & _)]; rewrite Hs
    end.
    2:{ apply Hstop. discriminate. }
    eexists [EvSleep _]. simpl. rewrite <- app_assoc. simpl.
    split; [reflexivity|]. split.
    { repeat constructor. simpl.
      destruct (Z.max (reset_time - clock w) 0 =? 0) eqn:E0.
      - reflexivity.
      - apply Z.eqb_neq in E0. apply Z.leb_le. lia. }
    repeat split; auto.
    destruct (Z.max (reset_time - clock w) 0 =? 0) eqn:E0.
    - unfold rate_limit_fallback. lia.
    - lia. }
  destruct (status_code r =? 401).
  { destruct (respects_auth_events (fun e => Shape.auth_event e)) as [_ Hre];
      [auto|].
    specialize (Hre (log e0 w)).
    destruct (refresh_access_token (log e0 w)) as [[token|e] w2];
      simpl in Hre; destruct Hre as ((evs & T & F) & Fi & C & U & E);
      cbn in Fi, C, U, E;
      exists evs; simpl; rewrite T; simpl; rewrite <- app_assoc; simpl.
    - split; [reflexivity|]. split.
      { eapply Forall_impl; [exact F|]. simpl. intros ev Hev.
        destruct ev; try discriminate; auto. }
      repeat split; auto. lia.
    - split; [reflexivity|]. split.
      { eapply Forall_impl; [exact F|]. simpl. intros ev Hev.
        destruct ev; try discriminate; auto. }
      repeat split; auto; try lia. discriminate. }
  destruct (Response.raise_for_status r); [|apply Hstop; discriminate].
  destruct (Response.json r) as [data|e]; [|apply Hstop; discriminate].
  destruct (negb (Py.truthy data)).
  { apply Hstop. intros l E. inversion E. reflexivity. }
  destruct (hiking_activities data) as [hikes|e] eqn:Hh;
    [|apply Hstop; discriminate].
  exists []. simpl. repeat split; auto; try lia.
  intros Ha. rewrite forallb_app, Ha.
  apply (hiking_activities_records data hikes Hh).
Qed.

(** ** What a whole fetch does *)

Lemma pages_app evs1 evs2 :
  Shape.pages (evs1 ++ evs2) = Shape.pages evs1 ++ Shape.pages evs2.
Proof.
  induction evs1 as [|e evs1 IH]; [reflexivity|].
  destruct e; simpl; rewrite IH; reflexivity.
Qed.

Lemma pages_no_get (P : event -> Prop) evs :
  Forall (fun e => P e /\ Spec.is_get e = false) evs -> Shape.pages evs = [].
Proof.
  induction 1 as [|e evs [_ He] _ IH]; [reflexivity|].
  destruct e; try discriminate; exact IH.
Qed.

Lemma from_page_next page page' ps :
  page' = page \/ page' = page + 1 ->
  Shape.from_page page' ps = true ->
  Shape.from_page page (page :: ps) = true.
Proof.
  intros Hp Hps. unfold Shape.from_page. rewrite Z.eqb_refl. simpl.
  destruct ps as [|q ps]; [reflexivity|].
  simpl in Hps. apply andb_true_iff in Hps. destruct Hps as [Hq Hps].
  apply Z.eqb_eq in Hq. subst q. simpl. rewrite Hps, andb_true_r.
  apply orb_true_iff. destruct Hp as [-> | ->]; [left | right]; apply Z.eqb_refl.
Qed.

Lemma fetch_loop_run `{PyLib} gets :
  forall after_timestamp page auth activities w res rest w',
    1 <= page ->
    fetch_loop gets after_timestamp page auth activities w = (res, rest, w') ->
    exists evs,
      trace w' = trace w ++ evs
      /\ Forall (fun e => Shape.fetch_event after_timestamp e = true) evs
      /\ Shape.from_page page (Shape.pages evs) = true
      /\ (forall f, f <> REFRESH_TOKEN_FILE -> files w' !! f = files w !! f)
      /\ clock w <= clock w'
      /\ utc_offset w' = utc_offset w
      /\ environ w' = environ w
      /\ (forall l, res = Val l ->
            forallb Shape.is_record activities = true ->
            forallb Shape.is_record l = true).
Proof.
  induction gets as [|r gets IH];
    intros after_timestamp page auth activities w res rest w' Hp Hrun.
  - simpl in Hrun.
    destruct (page <=? max_pages); [destruct (header_error auth)|];
      inversion Hrun; subst; exists [];
      (repeat split; auto; try lia; try (symmetry; apply app_nil_r);
       try discriminate);
      try (intros l E Ha; inversion E; subst; exact Ha).
  - rewrite fetch_loop_step in Hrun.
    destruct (page <=? max_pages) eqn:Hmax.
    2:{ inversion Hrun; subst. exists [].
        repeat split; auto; try lia; try (symmetry; apply app_nil_r).
        intros l E Ha. inversion E; subst. exact Ha. }
    destruct (header_error auth) as [e0|].
    { inversion Hrun; subst. exists [].
      repeat split; auto; try lia; try (symmetry; apply app_nil_r).
      discriminate. }
    apply Z.leb_le in Hmax.
    destruct (fetch_step_effect r after_timestamp page auth activities w
                (conj Hp Hmax)) as (evs1 & T1 & F1 & Fi1 & C1 & U1 & E1 & S1).
    assert (Hget : Shape.fetch_event after_timestamp
                     (EvGet activities_url auth after_timestamp per_page page
                        (status_code r)) = true).
    { cbn [Shape.fetch_event]. rewrite String.eqb_refl, !Z.eqb_refl. cbn [andb].
      apply andb_true_iff. split; apply Z.leb_le; lia. }
    assert (F1' : Forall (fun e => Shape.fetch_event after_timestamp e = true) evs1).
    { eapply Forall_impl; [exact F1|]. simpl. tauto. }
    destruct (fetch_step r after_timestamp page auth activities w)
      as [page' auth' activities' w1 | res1 w1]; simpl in *.
    + destruct S1 as [Hpage Hrec].
      apply IH in Hrun; [|lia].
      destruct Hrun as (evs2 & T2 & F2 & P2 & Fi2 & C2 & U2 & E2 & R2).
      exists (EvGet activities_url auth after_timestamp per_page page
                (status_code r) :: evs1 ++ evs2).
      split; [rewrite T2, T1, <- app_assoc; reflexivity|].
      split; [constructor; [exact Hget | apply Forall_app; auto]|].
      split.
      { cbn [Shape.pages]. rewrite pages_app, (pages_no_get _ _ F1). simpl.
        apply (from_page_next page page'); assumption. }
      split; [intros f Hf; rewrite Fi2, Fi1; auto|].
      repeat split; try congruence; try lia.
      intros l El Ha. apply (R2 l El). auto.
    + inversion Hrun; subst.
      exists (EvGet activities_url auth after_timestamp per_page page
                (status_code r) :: evs1).
      split; [exact T1|].
      split; [constructor; assumption|].
      split.
      { cbn [Shape.pages]. rewrite (pages_no_get _ _ F1).
        unfold Shape.from_page. rewrite Z.eqb_refl. reflexivity. }
      repeat split; auto.
      intros l El Ha. rewrite (S1 l El). exact Ha.
Qed.

Lemma key_eqb_eq k (s : string) : Py.key_eqb k s = true -> k = KStr s.
Proof.
  destruct k as [t|]; simpl; [|discriminate].
  intros E. apply String.eqb_eq in E. congruence.
Qed.

Lemma is_record_row `{PyLib} a :
  Shape.is_record a = true ->
  exists row, Csv.dict_to_list fieldnames a = Val row /\ length row = 6%nat.
Proof.
  intros E. destruct a as [| | | | | |d]; try discriminate.
  destruct d as [|[k1 v1] [|[k2 v2] [|[k3 v3] [|[k4 v4] [|[k5 v5] [|[k6 v6] [|? ?]]]]]]];
    try discriminate; destruct v4; try discriminate.
  simpl in E.
  repeat (apply andb_true_iff in E; destruct E as [E ?]).
  repeat match goal with
         | K : Py.key_eqb _ _ = true |- _ => apply key_eqb_eq in K; subst
         end.
  eexists. split; [apply record_fields | reflexivity].
Qed.

Lemma records_rows `{PyLib} activities :
  forallb Shape.is_record activities = true ->
  exists rows,
    Forall2 (fun a row => Csv.dict_to_list fieldnames a = Val row) activities rows.
Proof.
  induction activities as [|a activities IH]; simpl; intros E.
  - exists []. constructor.
  - apply andb_true_iff in E. destruct E as [Ha E].
    destruct (is_record_row a Ha) as (row & Hrow & _).
    destruct (IH E) as (rows & Hrows).
    exists (row :: rows). constructor; assumption.
Qed.

Lemma fetch_records `{PyLib} gets rest after_timestamp w w' activities :
  fetch_activities gets after_timestamp w = (Val activities, rest, w') ->
  forallb Shape.is_record activities = true.
Proof.
  intros Hrun. unfold fetch_activities in Hrun.
  apply fetch_loop_run in Hrun; [|lia].
  destruct Hrun as (evs & _ & _ & _ & _ & _ & _ & _ & R).
  apply (R activities eq_refl eq_refl).
Qed.

(** X8: every record a fetch returns has the six fields of the CSV header, in
    the order of the header, with the type ["Hike"] and a float for the
    distance, whatever the activity endpoint answered; so the CSV writer
    takes every one of them. *)
Theorem fetch_activities_records `{PyLib} (gets rest : list response)
    (after_timestamp : Z) (w w' : world) (activities : list pyval) :
  fetch_activities gets after_timestamp w = (Val activities, rest, w') ->
  forallb Shape.is_record activities = true
  /\ exists rows,
       Forall2 (fun a row => Csv.dict_to_list fieldnames a = Val row)
         activities rows
       /\ Csv.writerows fieldnames activities = (Spec.rows_text rows, None).
Proof.
  intros Hrun. pose proof (fetch_records _ _ _ _ _ _ Hrun) as R.
  split; [exact R|].
  destruct (records_rows activities R) as (rows & Hrows).
  exists rows. split; [exact Hrows|].
  apply writerows_rows_text. exact Hrows.
Qed.

Lemma fetch_activities_records_witness :
  let gets := [Sample.page Sample.three_activities; Sample.page []] in
  let hikes := [Sample.hike 1 1%float; Sample.hike 3 2%float] in
  fst (@fetch_activities Sample.lib gets 0 Sample.idle) = (Val hikes, [])
  /\ forallb Shape.is_record hikes = true
  /\ exists rows,
       Forall2 (fun a row => @Csv.dict_to_list Sample.lib fieldnames a = Val row)
         hikes rows
       /\ @Csv.writerows Sample.lib fieldnames hikes = (Spec.rows_text rows, None).
Proof.
  split; [reflexivity|].
  apply (@fetch_activities_records Sample.lib
           [Sample.page Sample.three_activities; Sample.page []] [] 0 Sample.idle
           (snd (@fetch_activities Sample.lib
                   [Sample.page Sample.three_activities; Sample.page []] 0
                   Sample.idle))).
  reflexivity.
Defined.

(** X9: the requests of a fetch: every one asks the activity endpoint for
    the activities after [after_timestamp], 200 a page; the first asks for
    page 1 and each later one for the same page as the one before it or for
    the next, never beyond page 50.  A fetch never sleeps for less than a
    second, leaves every file but the token file alone, and does nothing
    else to the outside than using the auth client. *)
Theorem fetch_activities_requests `{PyLib} (gets : list response)
    (after_timestamp : Z) (w : world) :
  exists evs,
    trace (snd (fetch_activities gets after_timestamp w)) = trace w ++ evs
    /\ Forall (fun e => Shape.fetch_event after_timestamp e = true) evs
    /\ Shape.from_page 1 (Shape.pages evs) = true
    /\ (forall f, f <> REFRESH_TOKEN_FILE ->
          files (snd (fetch_activities gets after_timestamp w)) !! f
          = files w !! f).
Proof.
  unfold fetch_activities.
  destruct (fetch_loop gets after_timestamp 1 (bearer (ACCESS_TOKEN w)) [] w)
    as [[res rest] w'] eqn:Hrun.
  apply fetch_loop_run in Hrun; [|lia].
  destruct Hrun as (evs & T & F & P & Fi & _).
  exists evs. auto.
Qed.

(** ** A fetch that meets no 401 *)

Lemma fetch_step_quiet `{PyLib} r after_timestamp page auth activities w :
  Spec.is_401 r = false ->
  files (step_world (fetch_step r after_timestamp page auth activities w))
  = files w
  /\ ACCESS_TOKEN (step_world (fetch_step r after_timestamp page auth activities w))
     = ACCESS_TOKEN w
  /\ posts (step_world (fetch_step r after_timestamp page auth activities w))
     = posts w
  /\ stdin (step_world (fetch_step r after_timestamp page auth activities w))
     = stdin w
  /\ (exists evs,
        trace (step_world (fetch_step r after_timestamp page auth activities w))
        = trace w ++ evs
        /\ Forall (fun e => Shape.quiet_event auth e = true) evs)
  /\ match fetch_step r after_timestamp page auth activities w with
     | Continue _ auth' _ _ => auth' = auth
     | Stop _ _ => True
     end.
Proof.
  unfold Spec.is_401, fetch_step. intros H401. rewrite H401. cbv zeta.
  set (e0 := EvGet activities_url auth after_timestamp per_page page (status_code r)).
  assert (Hq : Shape.quiet_event auth e0 = true) by apply String.eqb_refl.
  assert (Hone : forall res,
            files (step_world (Stop res (log e0 w))) = files w
            /\ ACCESS_TOKEN (step_world (Stop res (log e0 w))) = ACCESS_TOKEN w
            /\ posts (step_world (Stop res (log e0 w))) = posts w
            /\ stdin (step_world (Stop res (log e0 w))) = stdin w
            /\ (exists evs,
                  trace (step_world (Stop res (log e0 w))) = trace w ++ evs
                  /\ Forall (fun e => Shape.quiet_event auth e = true) evs)
            /\ True).
  { intros res. simpl. repeat split; auto. exists [e0]. auto. }
  destruct (status_code r =? 429).
  { destruct (reset_time_of r); [|apply Hone].
    match goal with
    | |- context [sleep ?d ?w0] =>
        destruct (sleep_cases d w0) as [Hs | (e & Hs & _)]; rewrite Hs
    end; [|apply Hone].
    simpl. repeat split; auto.
    eexists [e0; EvSleep _]. rewrite <- app_assoc. split; [reflexivity|].
    repeat constructor. exact Hq. }
  destruct (Response.raise_for_status r); [|apply Hone].
  destruct (Response.json r) as [data|e]; [|apply Hone].
  destruct (negb (Py.truthy data)); [apply Hone|].
  destruct (hiking_activities data); [|apply Hone].
  simpl. repeat split; auto. exists [e0]. auto.
Qed.

Lemma fetch_loop_quiet `{PyLib} gets :
  forall after_timestamp page auth activities w res rest w',
    forallb (fun r => negb (Spec.is_401 r)) gets = true ->
    fetch_loop gets after_timestamp page auth activities w = (res, rest, w') ->
    files w' = files w /\ ACCESS_TOKEN w' = ACCESS_TOKEN w
    /\ posts w' = posts w /\ stdin w' = stdin w
    /\ exists evs,
         trace w' = trace w ++ evs
         /\ Forall (fun e => Shape.quiet_event auth e = true) evs.
Proof.
  induction gets as [|r gets IH];
    intros after_timestamp page auth activities w res rest w' Hno Hrun.
  - simpl in Hrun.
    destruct (page <=? max_pages); [destruct (header_error auth)|];
      inversion Hrun; subst;
      (repeat split; auto); exists []; (split; [symmetry; apply app_nil_r | constructor]).
  - rewrite fetch_loop_step in Hrun. simpl in Hno.
    apply andb_true_iff in Hno. destruct Hno as [Hr Hno].
    apply negb_true_iff in Hr.
    destruct (page <=? max_pages).
    2:{ inversion Hrun; subst. repeat split; auto.
        exists []. split; [symmetry; apply app_nil_r | constructor]. }
    destruct (header_error auth) as [e0|].
    { inversion Hrun; subst. repeat split; auto.
      exists []. split; [symmetry; apply app_nil_r | constructor]. }
    destruct (fetch_step_quiet r after_timestamp page auth activities w Hr)
      as (Fi1 & A1 & P1 & S1 & (evs1 & T1 & F1) & Hauth).
    destruct (fetch_step r after_timestamp page auth activities w)
      as [page' auth' activities' w1 | res1 w1]; simpl in *.
    + subst auth'. apply IH in Hrun; [|exact Hno].
      destruct Hrun as (Fi2 & A2 & P2 & S2 & (evs2 & T2 & F2)).
      repeat split; try congruence.
      exists (evs1 ++ evs2). split; [rewrite T2, T1; symmetry; apply app_assoc|].
      apply Forall_app. auto.
    + inversion Hrun; subst. repeat split; auto. exists evs1. auto.
Qed.

(** X10: a fetch that is never answered 401 leaves the auth client alone:
    the token file and every other file, the access token, the pending
    answers of the token endpoint and the console are as before, and all it
    does is to send requests with the header made of the access token it
    started with, and to sleep. *)
Theorem fetch_without_401_keeps_token `{PyLib} (gets : list response)
    (after_timestamp : Z) (w : world) :
  forallb (fun r => negb (Spec.is_401 r)) gets = true ->
  files (snd (fetch_activities gets after_timestamp w)) = files w
  /\ ACCESS_TOKEN (snd (fetch_activities gets after_timestamp w)) = ACCESS_TOKEN w
  /\ posts (snd (fetch_activities gets after_timestamp w)) = posts w
  /\ stdin (snd (fetch_activities gets after_timestamp w)) = stdin w
  /\ exists evs,
       trace (snd (fetch_activities gets after_timestamp w)) = trace w ++ evs
       /\ Forall (fun e => Shape.quiet_event (bearer (ACCESS_TOKEN w)) e = true) evs.
Proof.
  intros Hno. unfold fetch_activities.
  destruct (fetch_loop gets after_timestamp 1 (bearer (ACCESS_TOKEN w)) [] w)
    as [[res rest] w'] eqn:Hrun.
  apply (fetch_loop_quiet gets _ _ _ _ _ _ _ _ Hno Hrun).
Qed.

Lemma fetch_without_401_keeps_token_witness :
  let gets := [Sample.rate_limited "1010"; Sample.page Sample.three_activities;
               Sample.status_only 503 []] in
  let w := Sample.world_with {[ REFRESH_TOKEN_FILE := "r0" ]}
             [Sample.token_response "a1" "r1"] ["code"] in
  forallb (fun r => negb (Spec.is_401 r)) gets = true
  /\ files (snd (@fetch_activities Sample.lib gets 0 w)) = files w
  /\ ACCESS_TOKEN (snd (@fetch_activities Sample.lib gets 0 w)) = PStr "a0"
  /\ posts (snd (@fetch_activities Sample.lib gets 0 w)) = posts w
  /\ stdin (snd (@fetch_activities Sample.lib gets 0 w)) = ["code"]
  /\ exists evs,
       trace (snd (@fetch_activities Sample.lib gets 0 w)) = trace w ++ evs
       /\ Forall (fun e => Shape.quiet_event "Bearer a0" e = true) evs.
Proof.
  split; [reflexivity|].
  apply (@fetch_without_401_keeps_token Sample.lib
           [Sample.rate_limited "1010"; Sample.page Sample.three_activities;
            Sample.status_only 503 []] 0
           (Sample.world_with {[ REFRESH_TOKEN_FILE := "r0" ]}
              [Sample.token_response "a1" "r1"] ["code"])).
  reflexivity.
Defined.

(** ** Payloads the fetcher cannot read *)

Lemma getitem_exn a k e :
  Py.getitem a k = Exn e -> e = KeyError k \/ e = TypeError.
Proof.
  unfold Py.getitem. destruct a; intros E; inversion E; auto.
  destruct (Py.dict_lookup d k); inversion E; auto.
Qed.

Lemma truediv_exn v d e :
  Py.truediv v d = Exn e -> is_request_exception e = false.
Proof.
  unfold Py.truediv, Py.float_of_int. intros E.
  destruct v; try (inversion E; reflexivity);
    repeat match type of E with
           | context [if ?c then _ else _] => destruct c
           end; inversion E; reflexivity.
Qed.

Lemma hike_record_exn a e :
  hike_record a = Exn e -> is_request_exception e = false.
Proof.
  unfold hike_record. intros E.
  repeat match type of E with
         | context [match Py.getitem ?x ?k with _ => _ end] =>
             let G := fresh "G" in
             destruct (Py.getitem x k) eqn:G;
               [|inversion E; subst; apply getitem_exn in G;
                 destruct G; subst; reflexivity]
         | context [if ?c then _ else _] => destruct c; [discriminate|]
         end.
  destruct (Py.truediv _ _) eqn:D;
    [|inversion E; subst; apply (truediv_exn _ _ _ D)].
  unfold Py.get in E.
  destruct a; try (inversion E; reflexivity).
  destruct (Py.dict_lookup d "suffer_score");
    destruct (Py.dict_lookup d "average_heartrate"); discriminate.
Qed.

Lemma hiking_of_list_exn data e :
  hiking_of_list data = Exn e -> is_request_exception e = false.
Proof.
  induction data as [|a data IH]; simpl; [discriminate|].
  destruct (hike_record a) as [o|e'] eqn:Ha.
  - destruct (hiking_of_list data); [discriminate|].
    intros E. inversion E; subst. apply IH. reflexivity.
  - intros E. inversion E; subst. apply (hike_record_exn a e Ha).
Qed.

Lemma hike_record_incomplete a :
  Shape.incomplete_hike a = true ->
  exists k, hike_record a = Exn (KeyError k) /\ Spec.has_key a k = false.
Proof.
  unfold Shape.incomplete_hike, Spec.is_hike, Spec.has_key, hike_record.
  intros E. apply andb_true_iff in E. destruct E as [Hh Hk].
  destruct (Py.getitem a "type") as [ty|] eqn:Hty; [|discriminate].
  rewrite Hh. cbn [negb].
  assert (Hdict : forall k e, Py.getitem a k = Exn e -> e = KeyError k).
  { intros k e G. unfold Py.getitem in *. destruct a; try discriminate.
    destruct (Py.dict_lookup d k); inversion G. reflexivity. }
  destruct (Py.getitem a "id") eqn:G1.
  2:{ pose proof (Hdict _ _ G1); subst. exists "id".
      split; [reflexivity | rewrite G1; reflexivity]. }
  destruct (Py.getitem a "start_date") eqn:G2.
  2:{ pose proof (Hdict _ _ G2); subst. exists "start_date".
      split; [reflexivity | rewrite G2; reflexivity]. }
  destruct (Py.getitem a "distance") eqn:G3.
  2:{ pose proof (Hdict _ _ G3); subst. exists "distance".
      split; [reflexivity | rewrite G3; reflexivity]. }
  discriminate.
Qed.

Lemma hiking_of_list_incomplete data :
  existsb Shape.incomplete_hike data = true ->
  exists e, hiking_of_list data = Exn e.
Proof.
  induction data as [|a data IH]; simpl; [discriminate|].
  intros E. apply orb_true_iff in E.
  destruct (hike_record a) as [o|e'] eqn:Ha; [|eauto].
  destruct E as [E|E].
  - destruct (hike_record_incomplete a E) as (k & Hk & _). congruence.
  - destruct (IH E) as (e & ->). eauto.
Qed.

(** X11: a page that holds a hike without an [id], a [start_date] or a
    [distance] ends the fetch with an exception -- the [KeyError] of a
    missing key when that hike is the first payload of the page --: the
    records of the earlier pages are lost, no further page is requested,
    and the exception is not one that [main] catches.  (A request whose
    header cannot be sent ends the fetch before the page is taken.) *)
Theorem incomplete_hike_aborts_fetch `{PyLib} (r : response)
    (gets : list response) (data : list pyval) (after_timestamp page : Z)
    (auth : string) (activities : list pyval) (w : world) :
  page <= max_pages ->
  Spec.served r = true ->
  body r = Some (PList data) ->
  existsb Shape.incomplete_hike data = true ->
  exists e,
    fetch_loop (r :: gets) after_timestamp page auth activities w
    = match header_error auth with
      | None => (Exn e, gets, log (Spec.requested auth after_timestamp page r) w)
      | Some e0 => (Exn e0, r :: gets, w)
      end
    /\ is_request_exception e = false
    /\ (forall a rest, data = a :: rest -> Shape.incomplete_hike a = true ->
          exists k, e = KeyError k /\ Spec.has_key a k = false).
Proof.
  intros Hp Hs Hb Hex.
  destruct (hiking_of_list_incomplete data Hex) as (e & He).
  exists e. split; [|split].
  - rewrite fetch_loop_unfold. apply Z.leb_le in Hp. rewrite Hp.
    destruct (header_error auth); [reflexivity|]. cbv zeta.
    destruct (served_status r Hs) as (-> & -> & ->).
    unfold Response.json. rewrite Hb.
    assert (Ht : Py.truthy (PList data) = true).
    { destruct data; [discriminate | reflexivity]. }
    rewrite Ht. cbn [negb hiking_activities]. rewrite He. reflexivity.
  - apply (hiking_of_list_exn data e He).
  - intros a rest -> Ha. destruct (hike_record_incomplete a Ha) as (k & Hk & Hno).
    exists k. split; [|exact Hno]. simpl in He. rewrite Hk in He. congruence.
Qed.

Lemma incomplete_hike_aborts_fetch_witness :
  let r := Sample.page [Sample.activity 1 "Run" 5000%float;
                        Cases.hike_without_distance] in
  exists e,
    @fetch_loop Sample.lib [r; Sample.page []] 0 2 "Bearer a0"
      [Sample.hike 1 1%float] Sample.idle
    = (Exn e, [Sample.page []],
       log (Spec.requested "Bearer a0" 0 2 r) Sample.idle)
    /\ is_request_exception e = false.
Proof.
  destruct (@incomplete_hike_aborts_fetch Sample.lib
              (Sample.page [Sample.activity 1 "Run" 5000%float;
                            Cases.hike_without_distance])
              [Sample.page []]
              [Sample.activity 1 "Run" 5000%float; Cases.hike_without_distance]
              0 2 "Bearer a0" [Sample.hike 1 1%float] Sample.idle)
    as (e & Hrun & He & _);
    [unfold max_pages; lia | reflexivity | reflexivity | reflexivity |].
  exists e. split; [exact Hrun | exact He].
Defined.

(** ** The CSV snapshot and its readers *)

(** X12: a record the CSV writer refuses -- a mapping with a key outside the
    header, or a value that is no mapping --: [write_activities_to_csv]
    raises the writer's exception and leaves a file that ends before that
    record: the header and the rows of the records before it. *)
Theorem write_activities_to_csv_refused `{PyLib} (good : list pyval)
    (rows : list (list string)) (bad : pyval) (rest : list pyval)
    (filename : string) (w : world) (e : exn) :
  Forall2 (fun a row => Csv.dict_to_list fieldnames a = Val row) good rows ->
  Csv.dict_to_list fieldnames bad = Exn e ->
  write_activities_to_csv (good ++ bad :: rest) filename w
  = (Exn e,
     set_files (<[filename := Spec.rows_text (fieldnames :: rows)]> (files w)) w)
  /\ (e = ValueError \/ e = AttributeError).
Proof.
  intros Hgood Hbad.
  assert (Hw : Csv.writerows fieldnames (good ++ bad :: rest)
               = (Spec.rows_text rows, Some e)).
  { induction Hgood as [|a row good rows Ha _ IH]; cbn [app Csv.writerows].
    - rewrite Hbad. reflexivity.
    - rewrite Ha, IH. reflexivity. }
  split.
  - unfold write_activities_to_csv. rewrite Hw. reflexivity.
  - unfold Csv.dict_to_list in Hbad.
    destruct bad; inversion Hbad; auto.
    destruct (Csv.keys_within d fieldnames); inversion Hbad; auto.
Qed.

Lemma write_activities_to_csv_refused_witness :
  let bad := PDict [(KStr "id", PInt 9); (KStr "name", PStr "Ridge")] in
  @write_activities_to_csv Sample.lib
    [Sample.hike 1 1%float; Sample.hike 3 2%float; bad; Sample.hike 4 1%float]
    CSV_FILE Sample.idle
  = (Exn ValueError,
     set_files (<[CSV_FILE := Spec.rows_text (fieldnames :: Cases.two_rows)]>
                  (files Sample.idle)) Sample.idle).
Proof.
  apply (@write_activities_to_csv_refused Sample.lib
           [Sample.hike 1 1%float; Sample.hike 3 2%float] Cases.two_rows
           (PDict [(KStr "id", PInt 9); (KStr "name", PStr "Ridge")])
           [Sample.hike 4 1%float] CSV_FILE Sample.idle ValueError).
  - repeat constructor.
  - reflexivity.
Defined.

(** The two sample hikes, written to the CSV snapshot and read back. *)
Lemma csv_snapshot_round_trip_witness :
  @get_activities
    (snd (@write_activities_to_csv Sample.lib
            [Sample.hike 1 1%float; Sample.hike 3 2%float] CSV_FILE Sample.idle))
  = Val (PList (map (Csv.row_dict fieldnames) Cases.two_rows), 200).
Proof.
  apply (@csv_snapshot_round_trip Sample.lib
           [Sample.hike 1 1%float; Sample.hike 3 2%float] Cases.two_rows
           Sample.idle).
  - repeat constructor.
  - reflexivity.
Defined.

Lemma dict_set_str_keys d k v :
  forallb is_str_key d = true ->
  forallb is_str_key (Py.dict_set d (KStr k) v) = true.
Proof.
  induction d as [|[k' v'] d IH]; cbn [Py.dict_set forallb]; [reflexivity|].
  intros E. apply andb_true_iff in E. destruct E as [Hk Hd].
  destruct (Py.key_eqb k' k); cbn [forallb]; apply andb_true_iff; split;
    auto; exact Hk.
Qed.

Lemma dict_set_nonempty d k v : Py.dict_set d k v <> [].
Proof.
  destruct d as [|[k' v'] d]; simpl; [discriminate|].
  destruct (Py.key_eqb k' k); discriminate.
Qed.

Lemma zip_dict_str_keys names :
  forall fs d, forallb is_str_key d = true ->
               forallb is_str_key (Csv.zip_dict names fs d) = true.
Proof.
  induction names as [|n names IH]; intros fs d Hd; simpl; [exact Hd|].
  destruct fs as [|f fs]; [exact Hd|].
  apply IH. apply dict_set_str_keys. exact Hd.
Qed.

Lemma zip_dict_nonempty names :
  forall fs d, d <> [] -> Csv.zip_dict names fs d <> [].
Proof.
  induction names as [|n names IH]; intros fs d Hd; simpl; [exact Hd|].
  destruct fs as [|f fs]; [exact Hd|].
  apply IH. apply dict_set_nonempty.
Qed.

Lemma dict_set_none d v :
  forallb is_str_key d = true -> d <> [] ->
  keys_sortable (Py.dict_set d KNone v) = false.
Proof.
  intros Hd Hne.
  assert (Happ : forall d, forallb is_str_key d = true ->
                   Py.dict_set d KNone v = d ++ [(KNone, v)]).
  { induction d0 as [|[k' v'] d0 IH]; simpl; [reflexivity|].
    intros E. apply andb_true_iff in E. destruct E as [Hk E].
    destruct k'; [|discriminate]. simpl. rewrite (IH E). reflexivity. }
  rewrite (Happ d Hd).
  assert (Hfalse : forallb is_str_key (d ++ [(KNone, v)]) = false).
  { rewrite forallb_app. simpl. apply andb_false_r. }
  destruct d as [|kv [|kv' d]]; [congruence | |];
    cbn [app] in *; unfold keys_sortable; exact Hfalse.
Qed.

Lemma row_dict_overlong header row :
  header <> [] -> (length header < length row)%nat ->
  sortable (Csv.row_dict header row) = false.
Proof.
  intros Hh Hlen. unfold Csv.row_dict.
  apply Nat.ltb_lt in Hlen. rewrite Hlen. cbn [sortable].
  rewrite dict_set_none; [reflexivity | |].
  - apply zip_dict_str_keys. reflexivity.
  - destruct header as [|n header]; [congruence|].
    destruct row as [|f row]; [discriminate|].
    simpl. apply zip_dict_nonempty. discriminate.
Qed.

Lemma dict_set_plain d k v :
  sortable v = true ->
  forallb (fun kv => sortable (snd kv)) d = true ->
  forallb (fun kv => sortable (snd kv)) (Py.dict_set d k v) = true.
Proof.
  intros Hv.
  induction d as [|[k' v'] d IH]; cbn [Py.dict_set forallb snd].
  - intros _. rewrite Hv. reflexivity.
  - intros E. apply andb_true_iff in E. destruct E as [Hk Hd].
    destruct (Py.key_eqb k' k); cbn [forallb snd]; apply andb_true_iff; auto.
Qed.

Lemma zip_dict_plain names :
  forall fs d, forallb (fun kv => sortable (snd kv)) d = true ->
               forallb (fun kv => sortable (snd kv)) (Csv.zip_dict names fs d) = true.
Proof.
  induction names as [|n names IH]; intros fs d Hd; simpl; [exact Hd|].
  destruct fs as [|f fs]; [exact Hd|].
  apply IH. apply dict_set_plain; [reflexivity | exact Hd].
Qed.

Lemma fill_missing_plain names :
  forall d, forallb is_str_key d = true ->
            forallb (fun kv => sortable (snd kv)) d = true ->
            forallb is_str_key (Csv.fill_missing names d) = true
            /\ forallb (fun kv => sortable (snd kv)) (Csv.fill_missing names d) = true.
Proof.
  induction names as [|n names IH]; intros d Hk Hd; simpl; [auto|].
  apply IH; [apply dict_set_str_keys | apply dict_set_plain]; auto.
Qed.

Lemma str_keys_sortable d :
  forallb is_str_key d = true -> keys_sortable d = true.
Proof. destruct d as [|kv [|kv' d]]; auto. Qed.

Lemma row_dict_within header row :
  (length row <= length header)%nat ->
  sortable (Csv.row_dict header row) = true.
Proof.
  intros Hlen. unfold Csv.row_dict.
  assert (Hk : forallb is_str_key (Csv.zip_dict header row []) = true)
    by (apply zip_dict_str_keys; reflexivity).
  assert (Hd : forallb (fun kv => sortable (snd kv)) (Csv.zip_dict header row [])
               = true) by (apply zip_dict_plain; reflexivity).
  replace (length header <? length row)%nat with false
    by (symmetry; apply Nat.ltb_ge; exact Hlen).
  destruct (length row <? length header)%nat; cbn [sortable].
  - destruct (fill_missing_plain (skipn (length row) header) _ Hk Hd) as [Hk' Hd'].
    rewrite (str_keys_sortable _ Hk'), Hd'. reflexivity.
  - rewrite (str_keys_sortable _ Hk), Hd. reflexivity.
Qed.

(** X14: which CSV files [GET /activities] serves, by the lengths of their
    rows.  With a header of at least one field, a row with more fields than
    the header is not served: [csv.DictReader] files the surplus under the
    key [None], the keys of that row do not sort and the answer is 500.
    When no row is longer than the header the answer is 200, one mapping
    per row that is not blank, the fields a short row lacks being [None]. *)
Theorem get_activities_row_lengths (w : world) (text : string)
    (header : list string) (rows : list (list string)) :
  read_file CSV_FILE w = Some text ->
  Csv.reader (lines_of text) = Val (header :: rows) ->
  header <> [] ->
  get_activities w
  = if existsb (fun row => (length header <? length row)%nat) rows
    then Exn TypeError
    else Val (PList (map (Csv.row_dict header)
                       (List.filter (fun r => negb (Csv.is_blank r)) rows)),
              200).
Proof.
  intros Hfile Hread Hh.
  unfold get_activities, Csv.DictReader. rewrite Hfile, Hread.
  unfold jsonify. cbn [sortable].
  destruct (existsb (fun row => (length header <? length row)%nat) rows) eqn:Hlong.
  - replace (forallb sortable
               (map (Csv.row_dict header)
                  (List.filter (fun r => negb (Csv.is_blank r)) rows)))
      with false; [reflexivity|].
    symmetry. apply not_true_is_false. intros Hall.
    rewrite List.forallb_forall in Hall.
    apply List.existsb_exists in Hlong. destruct Hlong as (row & Hin & Hlen).
    apply Nat.ltb_lt in Hlen.
    assert (Hs : sortable (Csv.row_dict header row) = true).
    { apply Hall. apply in_map. apply List.filter_In. split; [exact Hin|].
      destruct row; [simpl in Hlen; lia | reflexivity]. }
    rewrite (row_dict_overlong header row Hh Hlen) in Hs. discriminate.
  - replace (forallb sortable
               (map (Csv.row_dict header)
                  (List.filter (fun r => negb (Csv.is_blank r)) rows)))
      with true; [reflexivity|].
    symmetry. apply List.forallb_forall. intros v Hv.
    apply List.in_map_iff in Hv. destruct Hv as (row & <- & Hin).
    apply List.filter_In in Hin. destruct Hin as [Hin _].
    apply row_dict_within. apply Nat.ltb_ge.
    apply not_true_is_false. intros Hlt.
    assert (Hex : existsb (fun row => (length header <? length row)%nat) rows
                  = true).
    { apply List.existsb_exists. exists row. auto. }
    congruence.
Qed.

Lemma get_activities_row_lengths_witness :
  let w := Sample.world_with
             {[ CSV_FILE := "a,b" +:+ String PyStr.CR
                              (String PyStr.LF
                                 ("1" +:+ String PyStr.LF
                                    (String PyStr.LF "2,3"))) ]} [] [] in
  get_activities w
  = Val (PList [PDict [(KStr "a", PStr "1"); (KStr "b", PNone)];
                PDict [(KStr "a", PStr "2"); (KStr "b", PStr "3")]], 200).
Proof.
  apply (get_activities_row_lengths
           (Sample.world_with
              {[ CSV_FILE := "a,b" +:+ String PyStr.CR
                               (String PyStr.LF
                                  ("1" +:+ String PyStr.LF
                                     (String PyStr.LF "2,3"))) ]} [] [])
           ("a,b" +:+ String PyStr.LF
              ("1" +:+ String PyStr.LF (String PyStr.LF "2,3")))
           ["a"; "b"] [["1"]; []; ["2"; "3"]]);
    [reflexivity | reflexivity | discriminate].
Defined.

(** ** One cycle *)

Lemma since_date_cutoff w :
  date_to_unix_timestamp since_date w = (Val (Shape.cutoff w), w).
Proof. reflexivity. Qed.

Lemma log_summary_pure `{PyLib} activities w :
  snd (log_summary activities w) = w
  /\ forall e, fst (log_summary activities w) = Exn e ->
               is_request_exception e = false.
Proof.
  unfold log_summary. destruct activities as [|x rest]; [split; [reflexivity|discriminate]|].
  unfold bind, lift, ret.
  destruct (Py.getitem x "date") as [k|e0] eqn:G.
  2:{ split; [reflexivity|]. simpl. intros e E. inversion E; subst.
      apply getitem_exn in G. destruct G; subst; reflexivity. }
  assert (Hmax : forall items m mk e, max_by_date items m mk = Exn e ->
                   is_request_exception e = false).
  { induction items as [|y items IH]; simpl; intros m mk e E; [discriminate|].
    destruct (Py.getitem y "date") eqn:Gy.
    - destruct (py_gt a mk) as [[|]|]; eauto. inversion E. reflexivity.
    - inversion E; subst. apply getitem_exn in Gy. destruct Gy; subst; reflexivity. }
  destruct (max_by_date rest x k) as [m|e0] eqn:Hm.
  2:{ split; [reflexivity|]. simpl. intros e E. inversion E; subst. eauto. }
  destruct (Py.getitem m "distance") as [d|e0] eqn:Gd.
  - split; [reflexivity | discriminate].
  - split; [reflexivity|]. simpl. intros e E. inversion E; subst.
    apply getitem_exn in Gd. destruct Gd; subst; reflexivity.
Qed.

(** The writes at the end of a cycle, for records the CSV writer takes. *)
Lemma snapshot_writes `{PyLib} activities rows w :
  Forall2 (fun a row => Csv.dict_to_list fieldnames a = Val row) activities rows ->
  exists res,
    (write_activities_to_json activities JSON_FILE ;;;
     write_activities_to_csv activities CSV_FILE ;;;
     log_summary activities) w
    = (res,
       set_files (<[CSV_FILE := Spec.rows_text (fieldnames :: rows)]>
                    (<[JSON_FILE := json_dumps (PList activities)]> (files w))) w)
    /\ forall e, res = Exn e -> is_request_exception e = false.
Proof.
  intros Hrows.
  unfold write_activities_to_json, write_activities_to_csv.
  rewrite (writerows_rows_text fieldnames activities rows Hrows).
  unfold bind, write_file, ret at 1.
  match goal with
  | |- context [log_summary activities ?w1] =>
      destruct (log_summary_pure activities w1) as [Hw He];
        destruct (log_summary activities w1) as [res w2]
  end.
  simpl in Hw, He. subst w2.
  exists res. split; [reflexivity | exact He].
Qed.

Lemma main_after_fetch `{PyLib} gets rest w w1 w2 token activities rows :
  refresh_access_token w = (Val token, w1) ->
  fetch_activities gets (Shape.cutoff w) (set_ACCESS_TOKEN token w1)
  = (Val activities, rest, w2) ->
  Forall2 (fun a row => Csv.dict_to_list fieldnames a = Val row) activities rows ->
  exists res,
    main_try gets w
    = (res, rest,
       set_files (<[CSV_FILE := Spec.rows_text (fieldnames :: rows)]>
                    (<[JSON_FILE := json_dumps (PList activities)]> (files w2)))
         w2)
    /\ main gets w = main_try gets w
    /\ forall e, res = Exn e -> is_request_exception e = false.
Proof.
  intros Hre Hfetch Hrows.
  destruct (snapshot_writes activities rows w2 Hrows) as (res & Hw & Hexn).
  assert (Hu : Shape.cutoff (set_ACCESS_TOKEN token w1) = Shape.cutoff w).
  { destruct (respects_refresh_access_token w) as (_ & _ & _ & U & _).
    rewrite Hre in U. unfold Shape.cutoff. simpl in *. congruence. }
  exists res.
  unfold main, main_try. rewrite Hre, since_date_cutoff, Hu, Hfetch, Hw.
  split; [reflexivity|]. split; [|exact Hexn].
  destruct res as [u|e]; [reflexivity|].
  rewrite (Hexn e eq_refl). reflexivity.
Qed.



(** X16: a cycle whose token refresh and fetch go through replaces both
    snapshots: the JSON file holds the dump of the fetched records and the
    CSV file the header and one row per record, whether or not the summary
    that follows can be computed; nothing else changes after the fetch. *)
Theorem completed_fetch_replaces_snapshots `{PyLib} (gets rest : list response)
    (w w1 w2 : world) (token : pyval) (activities : list pyval) :
  refresh_access_token w = (Val token, w1) ->
  fetch_activities gets (Shape.cutoff w) (set_ACCESS_TOKEN token w1)
  = (Val activities, rest, w2) ->
  exists rows res,
    Forall2 (fun a row => Csv.dict_to_list fieldnames a = Val row) activities rows
    /\ main gets w
       = (res, rest,
          set_files (<[CSV_FILE := Spec.rows_text (fieldnames :: rows)]>
                       (<[JSON_FILE := json_dumps (PList activities)]> (files w2)))
            w2).
Proof.
  intros Hre Hfetch.
  destruct (records_rows activities (fetch_records _ _ _ _ _ _ Hfetch))
    as (rows & Hrows).
  destruct (main_after_fetch gets rest w w1 w2 token activities rows
              Hre Hfetch Hrows) as (res & Htry & Hmain & _).
  exists rows, res. rewrite Hmain. auto.
Qed.

Lemma completed_fetch_replaces_snapshots_witness :
  let gets := [Sample.page Sample.three_activities; Sample.page []] in
  let w := Cases.stored "r0" [Sample.token_response "a1" "r1"] [] in
  let w1 := snd (refresh_access_token w) in
  let hikes := [Sample.hike 1 1%float; Sample.hike 3 2%float] in
  let w2 := snd (@fetch_activities Sample.lib gets (Shape.cutoff w)
                   (set_ACCESS_TOKEN (PStr "a1") w1)) in
  exists rows res,
    Forall2 (fun a row => @Csv.dict_to_list Sample.lib fieldnames a = Val row)
      hikes rows
    /\ @main Sample.lib gets w
       = (res, [],
          set_files (<[CSV_FILE := Spec.rows_text (fieldnames :: rows)]>
                       (<[JSON_FILE := @json_dumps Sample.lib (PList hikes)]>
                          (files w2)))
            w2).
Proof.
  apply (@completed_fetch_replaces_snapshots Sample.lib
           [Sample.page Sample.three_activities; Sample.page []] []
           (Cases.stored "r0" [Sample.token_response "a1" "r1"] [])
           (snd (refresh_access_token
                   (Cases.stored "r0" [Sample.token_response "a1" "r1"] [])))
           _ (PStr "a1")); reflexivity.
Defined.

(** X17: from the fetch to the query service: after a cycle whose token
    refresh and fetch went through, [GET /activities] answers 200 with one
    mapping per fetched hike, in the order of the fetch, each field the
    string the CSV writer made of the value ([None] as the empty string) --
    provided none of these strings holds a carriage return or exceeds the
    field size limit of the [csv] module. *)
Theorem completed_cycle_is_served `{PyLib} (gets rest : list response)
    (w w1 w2 : world) (token : pyval) (activities : list pyval)
    (rows : list (list string)) :
  refresh_access_token w = (Val token, w1) ->
  fetch_activities gets (Shape.cutoff w) (set_ACCESS_TOKEN token w1)
  = (Val activities, rest, w2) ->
  Forall2 (fun a row => Csv.dict_to_list fieldnames a = Val row) activities rows ->
  forallb (forallb Spec.field_ok) rows = true ->
  get_activities (snd (main gets w))
  = Val (PList (map (Csv.row_dict fieldnames) rows), 200).
Proof.
  intros Hre Hfetch Hrows Hok.
  destruct (main_after_fetch gets rest w w1 w2 token activities rows
              Hre Hfetch Hrows) as (res & Htry & Hmain & _).
  rewrite Hmain, Htry. cbn [snd].
  apply (served_rows activities rows _ Hrows Hok).
  cbn [files set_files]. apply lookup_insert_eq.
Qed.

Lemma completed_cycle_is_served_witness :
  let gets := [Sample.page Sample.three_activities; Sample.page []] in
  let w := Cases.stored "r0" [Sample.token_response "a1" "r1"] [] in
  get_activities (snd (@main Sample.lib gets w))
  = Val (PList (map (Csv.row_dict fieldnames) Cases.two_rows), 200).
Proof.
  apply (@completed_cycle_is_served Sample.lib
           [Sample.page Sample.three_activities; Sample.page []] []
           (Cases.stored "r0" [Sample.token_response "a1" "r1"] [])
           (snd (refresh_access_token
                   (Cases.stored "r0" [Sample.token_response "a1" "r1"] [])))
           (snd (@fetch_activities Sample.lib
                   [Sample.page Sample.three_activities; Sample.page []]
                   1735689600
                   (set_ACCESS_TOKEN (PStr "a1")
                      (snd (refresh_access_token
                              (Cases.stored "r0"
                                 [Sample.token_response "a1" "r1"] []))))))
           (PStr "a1") [Sample.hike 1 1%float; Sample.hike 3 2%float]
           Cases.two_rows).
  - reflexivity.
  - reflexivity.
  - repeat constructor.
  - reflexivity.
Defined.

(** What a cycle does up to the end of its fetch. *)
Lemma main_try_run `{PyLib} gets w :
  (exists e rest w',
      main_try gets w = (Exn e, rest, w')
      /\ files w' !! JSON_FILE = files w !! JSON_FILE
      /\ files w' !! CSV_FILE = files w !! CSV_FILE)
  \/ (exists token w1 activities rest w2,
        refresh_access_token w = (Val token, w1)
        /\ fetch_activities gets (Shape.cutoff w) (set_ACCESS_TOKEN token w1)
           = (Val activities, rest, w2)).
Proof.
  unfold main_try.
  pose proof (respects_refresh_access_token w) as Hre.
  destruct (refresh_access_token w) as [[token|e] w1] eqn:Hrefresh;
    simpl in Hre; destruct Hre as (_ & Fi & _ & U & _).
  2:{ left. exists e, gets, w1. split; [reflexivity|].
      split; apply Fi; discriminate. }
  rewrite since_date_cutoff.
  assert (Hu : Shape.cutoff (set_ACCESS_TOKEN token w1) = Shape.cutoff w).
  { unfold Shape.cutoff. simpl. congruence. }
  rewrite Hu.
  destruct (fetch_activities gets (Shape.cutoff w) (set_ACCESS_TOKEN token w1))
    as [[[activities|e] rest] w2] eqn:Hfetch.
  - right. exists token, w1, activities, rest, w2. auto.
  - left. exists e, rest, w2. split; [reflexivity|].
    unfold fetch_activities in Hfetch. apply fetch_loop_run in Hfetch; [|lia].
    destruct Hfetch as (_ & _ & _ & _ & Fi2 & _).
    split; (rewrite Fi2; [apply Fi|]; discriminate).
Qed.

(** X18: the two snapshots change together or not at all: after a cycle
    either both files are what they were before it, or the JSON file is the
    dump of a list of activity records and the CSV file the header followed
    by the rows of the same records. *)
Theorem snapshots_change_together `{PyLib} (gets : list response) (w : world) :
  (files (snd (main gets w)) !! JSON_FILE = files w !! JSON_FILE
   /\ files (snd (main gets w)) !! CSV_FILE = files w !! CSV_FILE)
  \/ exists activities rows,
       forallb Shape.is_record activities = true
       /\ Forall2 (fun a row => Csv.dict_to_list fieldnames a = Val row)
            activities rows
       /\ files (snd (main gets w)) !! JSON_FILE
          = Some (json_dumps (PList activities))
       /\ files (snd (main gets w)) !! CSV_FILE
          = Some (Spec.rows_text (fieldnames :: rows)).
Proof.
  destruct (main_try_run gets w)
    as [(e & rest & w' & Htry & Hj & Hc)
       | (token & w1 & activities & rest & w2 & Hre & Hfetch)].
  - left. unfold main. rewrite Htry.
    destruct (is_request_exception e); simpl; auto.
  - right.
    pose proof (fetch_records _ _ _ _ _ _ Hfetch) as Hrec.
    destruct (records_rows activities Hrec) as (rows & Hrows).
    destruct (main_after_fetch gets rest w w1 w2 token activities rows
                Hre Hfetch Hrows) as (res & Htry & Hmain & _).
    exists activities, rows. rewrite Hmain, Htry. simpl.
    split; [exact Hrec|]. split; [exact Hrows|]. split.
    + rewrite lookup_insert_ne by discriminate. apply lookup_insert_eq.
    + apply lookup_insert_eq.
Qed.

(** X19: what becomes of an exception raised in a cycle.  A
    [RequestException] is swallowed: [main] returns, both snapshots are what
    they were before the cycle, and the scheduler sleeps and starts the next
    cycle.  Any other exception leaves [main] and ends the scheduler loop
    there, with no sleep and no further cycle. *)
Theorem cycle_exceptions `{PyLib} (gets rest : list response) (w w' : world)
    (e : exn) :
  main_try gets w = (Exn e, rest, w') ->
  if is_request_exception e
  then main gets w = (Val tt, rest, w')
       /\ files w' !! JSON_FILE = files w !! JSON_FILE
       /\ files w' !! CSV_FILE = files w !! CSV_FILE
       /\ forall n, scheduler (S n) gets w
                    = scheduler n rest (snd (sleep RUN_INTERVAL w'))
  else main gets w = (Exn e, rest, w')
       /\ forall n, scheduler (S n) gets w = (Exn e, rest, w').
Proof.
  intros Htry.
  destruct (is_request_exception e) eqn:He.
  - assert (Hmain : main gets w = (Val tt, rest, w')).
    { unfold main. rewrite Htry, He. reflexivity. }
    split; [exact Hmain|].
    assert (Hfiles : files w' !! JSON_FILE = files w !! JSON_FILE
                     /\ files w' !! CSV_FILE = files w !! CSV_FILE).
    { destruct (main_try_run gets w)
        as [(e0 & rest0 & w0 & Htry0 & Hj & Hc)
           | (token & w1 & activities & rest0 & w2 & Hre & Hfetch)].
      - rewrite Htry in Htry0. inversion Htry0; subst. auto.
      - destruct (records_rows activities (fetch_records _ _ _ _ _ _ Hfetch))
          as (rows & Hrows).
        destruct (main_after_fetch gets rest0 w w1 w2 token activities rows
                    Hre Hfetch Hrows) as (res & Htry1 & _ & Hexn).
        rewrite Htry in Htry1. inversion Htry1; subst.
        rewrite (Hexn e eq_refl) in He. discriminate. }
    destruct Hfiles as [Hj Hc]. repeat split; auto.
    intros n. cbn [scheduler]. rewrite Hmain. reflexivity.
  - assert (Hmain : main gets w = (Exn e, rest, w')).
    { unfold main. rewrite Htry, He. reflexivity. }
    split; [exact Hmain|].
    intros n. cbn [scheduler]. rewrite Hmain. reflexivity.
Qed.

Lemma cycle_exceptions_witness :
  let gets := [Sample.page [Cases.hike_without_distance]; Sample.page []] in
  let w := Cases.stored "r0" [Sample.token_response "a1" "r1"] [] in
  let w' := snd (@main_try Sample.lib gets w) in
  @main Sample.lib gets w = (Exn (KeyError "distance"), [Sample.page []], w')
  /\ forall n, @scheduler Sample.lib (S n) gets w
               = (Exn (KeyError "distance"), [Sample.page []], w').
Proof.
  apply (@cycle_exceptions Sample.lib
           [Sample.page [Cases.hike_without_distance]; Sample.page []]
           [Sample.page []]
           (Cases.stored "r0" [Sample.token_response "a1" "r1"] [])
           (snd (@main_try Sample.lib
                   [Sample.page [Cases.hike_without_distance]; Sample.page []]
                   (Cases.stored "r0" [Sample.token_response "a1" "r1"] [])))
           (KeyError "distance")).
  reflexivity.
Defined.

(** ** Everything the program does *)

Lemma fetch_event_auth c e :
  Shape.auth_event e = true -> Shape.fetch_event c e = true.
Proof. destruct e; simpl; auto; discriminate. Qed.

Lemma program_file_false f :
  Shape.program_file f = false ->
  f <> REFRESH_TOKEN_FILE /\ f <> JSON_FILE /\ f <> CSV_FILE.
Proof.
  unfold Shape.program_file. intros E.
  apply orb_false_iff in E. destruct E as [E E3].
  apply orb_false_iff in E. destruct E as [E1 E2].
  apply String.eqb_neq in E1, E2, E3. auto.
Qed.

Lemma main_run `{PyLib} gets w :
  exists evs,
    trace (snd (main gets w)) = trace w ++ evs
    /\ Forall (fun e => Shape.fetch_event (Shape.cutoff w) e = true) evs
    /\ (forall f, Shape.program_file f = false ->
          files (snd (main gets w)) !! f = files w !! f)
    /\ clock w <= clock (snd (main gets w))
    /\ utc_offset (snd (main gets w)) = utc_offset w
    /\ environ (snd (main gets w)) = environ w.
Proof.
  assert (Hsnd : snd (main gets w) = snd (main_try gets w)).
  { unfold main. destruct (main_try gets w) as [[[u|e] rest] w']; [reflexivity|].
    destruct (is_request_exception e); reflexivity. }
  rewrite Hsnd. clear Hsnd. unfold main_try.
  destruct (respects_auth_events (Shape.fetch_event (Shape.cutoff w))
              (fetch_event_auth _)) as [_ Hre].
  specialize (Hre w).
  destruct (refresh_access_token w) as [[token|e] w1];
    simpl in Hre; destruct Hre as ((evs1 & T1 & F1) & Fi1 & C1 & U1 & E1).
  2:{ exists evs1. simpl. repeat split; auto; try lia.
      intros f Hf. apply Fi1. apply (program_file_false f Hf). }
  rewrite since_date_cutoff.
  assert (Hu : Shape.cutoff (set_ACCESS_TOKEN token w1) = Shape.cutoff w).
  { unfold Shape.cutoff. simpl. congruence. }
  rewrite Hu.
  destruct (fetch_activities gets (Shape.cutoff w) (set_ACCESS_TOKEN token w1))
    as [[res rest] w2] eqn:Hfetch.
  pose proof Hfetch as Hrun. unfold fetch_activities in Hrun.
  apply fetch_loop_run in Hrun; [|lia].
  destruct Hrun as (evs2 & T2 & F2 & _ & Fi2 & C2 & U2 & E2 & _).
  simpl in T2, Fi2, C2, U2, E2.
  assert (Hfetched :
            trace w2 = trace w ++ evs1 ++ evs2
            /\ (forall f, Shape.program_file f = false -> files w2 !! f = files w !! f)
            /\ clock w <= clock w2 /\ utc_offset w2 = utc_offset w
            /\ environ w2 = environ w).
  { repeat split; try congruence; try lia.
    - rewrite T2, T1. symmetry. apply app_assoc.
    - intros f Hf. destruct (program_file_false f Hf) as (N1 & _).
      rewrite Fi2, Fi1; auto. }
  destruct Hfetched as (T & Fi & C & U & E).
  destruct res as [activities|e].
  2:{ exists (evs1 ++ evs2). simpl. repeat split; auto. apply Forall_app. auto. }
  destruct (records_rows activities (fetch_records _ _ _ _ _ _ Hfetch))
    as (rows & Hrows).
  destruct (snapshot_writes activities rows w2 Hrows) as (res & Hw & _).
  rewrite Hw. exists (evs1 ++ evs2). simpl.
  repeat split; auto; [apply Forall_app; auto|].
  intros f Hf. destruct (program_file_false f Hf) as (_ & N2 & N3).
  rewrite !lookup_insert_ne by congruence. apply Fi. exact Hf.
Qed.

(** X20: everything the program does to the outside, over any number of
    cycles: it asks the activity endpoint for pages 1 to 50 of the
    activities after local midnight of 2025-01-01, 200 a page; it uses the
    token endpoint and the console; it sleeps, never for less than a
    second; and it changes no file but the token file and the two
    snapshots. *)
Theorem scheduler_events `{PyLib} (cycles : nat) (gets : list response)
    (w : world) :
  exists evs,
    trace (snd (scheduler cycles gets w)) = trace w ++ evs
    /\ Forall (fun e => Shape.fetch_event (Shape.cutoff w) e = true) evs
    /\ (forall f, Shape.program_file f = false ->
          files (snd (scheduler cycles gets w)) !! f = files w !! f).
Proof.
  revert gets w.
  assert (Hgen : forall n gets w,
            exists evs,
              trace (snd (scheduler n gets w)) = trace w ++ evs
              /\ Forall (fun e => Shape.fetch_event (Shape.cutoff w) e = true) evs
              /\ (forall f, Shape.program_file f = false ->
                    files (snd (scheduler n gets w)) !! f = files w !! f)
              /\ utc_offset (snd (scheduler n gets w)) = utc_offset w).
  { induction n as [|n IH]; intros gets w.
    - exists []. simpl. repeat split; auto. symmetry. apply app_nil_r.
    - cbn [scheduler].
      destruct (main_run gets w) as (evs1 & T1 & F1 & Fi1 & _ & U1 & _).
      destruct (main gets w) as [[[u|e] rest] w1]; simpl in T1, Fi1, U1.
      + destruct (IH rest (snd (sleep RUN_INTERVAL w1)))
          as (evs2 & T2 & F2 & Fi2 & U2).
        set (w1s := snd (sleep RUN_INTERVAL w1)) in *.
        assert (Ts : trace w1s = trace w1 ++ [EvSleep RUN_INTERVAL])
          by (subst w1s; rewrite sleep_interval; reflexivity).
        assert (Fs : files w1s = files w1)
          by (subst w1s; rewrite sleep_interval; reflexivity).
        assert (Us : utc_offset w1s = utc_offset w1)
          by (subst w1s; rewrite sleep_interval; reflexivity).
        assert (Hc : Shape.cutoff w1s = Shape.cutoff w).
        { unfold Shape.cutoff. congruence. }
        rewrite Hc in F2.
        exists (evs1 ++ EvSleep RUN_INTERVAL :: evs2).
        split; [rewrite T2, Ts, T1, <- !app_assoc; reflexivity|].
        split; [apply Forall_app; split; [exact F1 | constructor; [reflexivity | exact F2]]|].
        split; [intros f Hf; rewrite Fi2, Fs, Fi1; auto | congruence].
      + exists evs1. simpl. auto. }
  intros gets w. destruct (Hgen cycles gets w) as (evs & T & F & Fi & _).
  exists evs. auto.
Qed.

(** ** The summary at the end of a cycle *)

Lemma is_record_distance a :
  Shape.is_record a = true -> exists f, Py.getitem a "distance" = Val (PFloat f).
Proof.
  intros E. destruct a as [| | | | | |d]; try discriminate.
  destruct d as [|[k1 v1] [|[k2 v2] [|[k3 v3] [|[k4 v4] [|[k5 v5] [|[k6 v6] [|? ?]]]]]]];
    try discriminate; destruct v4; try discriminate.
  simpl in E.
  repeat (apply andb_true_iff in E; destruct E as [E ?]).
  repeat match goal with
         | K : Py.key_eqb _ _ = true |- _ => apply key_eqb_eq in K; subst
         end.
  exists f. reflexivity.
Qed.

Lemma max_by_date_dated `{PyLib} items :
  (forall s t, py_gt (PStr s) (PStr t) <> None) ->
  forallb Shape.dated items = true ->
  forall m s, exists m',
    max_by_date items m (PStr s) = Val m' /\ (m' = m \/ In m' items).
Proof.
  intros Hgt. induction items as [|x items IH]; intros Hd m s.
  - exists m. auto.
  - simpl in Hd. apply andb_true_iff in Hd. destruct Hd as [Hx Hd].
    unfold Shape.dated in Hx. cbn [max_by_date].
    destruct (Py.getitem x "date") as [[| | | |t| |]|]; try discriminate.
    specialize (Hgt t s).
    destruct (py_gt (PStr t) (PStr s)) as [[|]|]; [| |congruence].
    + destruct (IH Hd x t) as (m' & Hm & Hin).
      exists m'. split; [exact Hm|]. right. destruct Hin; [left; congruence | right; auto].
    + destruct (IH Hd m s) as (m' & Hm & Hin).
      exists m'. split; [exact Hm|]. destruct Hin; [left | right; right]; auto.
Qed.

Lemma log_summary_dated `{PyLib} activities w :
  (forall s t, py_gt (PStr s) (PStr t) <> None) ->
  forallb Shape.is_record activities = true ->
  forallb Shape.dated activities = true ->
  log_summary activities w = (Val tt, w).
Proof.
  intros Hgt Hrec Hd. unfold log_summary.
  destruct activities as [|x rest]; [reflexivity|].
  simpl in Hrec, Hd.
  apply andb_true_iff in Hrec. destruct Hrec as [Hx Hrec].
  apply andb_true_iff in Hd. destruct Hd as [Dx Hd].
  unfold bind, lift, ret. unfold Shape.dated in Dx.
  destruct (Py.getitem x "date") as [[| | | |s| |]|]; try discriminate.
  destruct (max_by_date_dated rest Hgt Hd x s) as (m & Hm & Hin).
  rewrite Hm.
  assert (Hmrec : Shape.is_record m = true).
  { destruct Hin as [-> | Hin]; [exact Hx|].
    rewrite List.forallb_forall in Hrec. auto. }
  destruct (is_record_distance m Hmrec) as (f & ->). reflexivity.
Qed.

(** X21: a cycle that ends as it should.  When the token refresh and the
    fetch go through and every fetched hike carries a [str] for its date,
    the summary is computed, [main] returns normally with both snapshots
    written, and the scheduler sleeps [RUN_INTERVAL] and starts the next
    cycle with the responses the fetch left.  ([>] on two [str] always has
    an answer in Python, which the hypothesis says of the parameter; the
    sum of the distances cannot raise, every distance being a float.) *)
Theorem dated_hikes_complete_cycle `{PyLib} (gets rest : list response)
    (w w1 w2 : world) (token : pyval) (activities : list pyval) :
  (forall s t, py_gt (PStr s) (PStr t) <> None) ->
  refresh_access_token w = (Val token, w1) ->
  fetch_activities gets (Shape.cutoff w) (set_ACCESS_TOKEN token w1)
  = (Val activities, rest, w2) ->
  forallb Shape.dated activities = true ->
  exists rows,
    Forall2 (fun a row => Csv.dict_to_list fieldnames a = Val row) activities rows
    /\ main gets w
       = (Val tt, rest,
          set_files (<[CSV_FILE := Spec.rows_text (fieldnames :: rows)]>
                       (<[JSON_FILE := json_dumps (PList activities)]> (files w2)))
            w2)
    /\ forall n,
         scheduler (S n) gets w
         = scheduler n rest
             (snd (sleep RUN_INTERVAL
                     (set_files
                        (<[CSV_FILE := Spec.rows_text (fieldnames :: rows)]>
                           (<[JSON_FILE := json_dumps (PList activities)]>
                              (files w2))) w2))).
Proof.
  intros Hgt Hre Hfetch Hd.
  pose proof (fetch_records _ _ _ _ _ _ Hfetch) as Hrec.
  destruct (records_rows activities Hrec) as (rows & Hrows).
  assert (Hu : Shape.cutoff (set_ACCESS_TOKEN token w1) = Shape.cutoff w).
  { destruct (respects_refresh_access_token w) as (_ & _ & _ & U & _).
    rewrite Hre in U. unfold Shape.cutoff. simpl in *. congruence. }
  assert (Hmain : main gets w
                  = (Val tt, rest,
                     set_files (<[CSV_FILE := Spec.rows_text (fieldnames :: rows)]>
                                  (<[JSON_FILE := json_dumps (PList activities)]>
                                     (files w2))) w2)).
  { unfold main, main_try. rewrite Hre, since_date_cutoff, Hu, Hfetch.
    unfold write_activities_to_json, write_activities_to_csv.
    rewrite (writerows_rows_text fieldnames activities rows Hrows).
    unfold bind, write_file, ret at 1.
    rewrite (log_summary_dated activities _ Hgt Hrec Hd). reflexivity. }
  exists rows. split; [exact Hrows|]. split; [exact Hmain|].
  intros n. cbn [scheduler]. rewrite Hmain. reflexivity.
Qed.

Lemma dated_hikes_complete_cycle_witness :
  let gets := [Sample.page Sample.three_activities; Sample.page [];
               Sample.status_only 500 []] in
  let w := Cases.stored "r0" [Sample.token_response "a1" "r1"] [] in
  fst (@main Sample.lib gets w) = (Val tt, [Sample.status_only 500 []])
  /\ exists rows,
       Forall2 (fun a row => @Csv.dict_to_list Sample.lib fieldnames a = Val row)
         [Sample.hike 1 1%float; Sample.hike 3 2%float] rows
       /\ files (snd (@main Sample.lib gets w)) !! CSV_FILE
          = Some (Spec.rows_text (fieldnames :: rows)).
Proof.
  destruct (@dated_hikes_complete_cycle Sample.lib
              [Sample.page Sample.three_activities; Sample.page [];
               Sample.status_only 500 []]
              [Sample.status_only 500 []]
              (Cases.stored "r0" [Sample.token_response "a1" "r1"] [])
              (snd (refresh_access_token
                      (Cases.stored "r0" [Sample.token_response "a1" "r1"] [])))
              (snd (@fetch_activities Sample.lib
                      [Sample.page Sample.three_activities; Sample.page [];
                       Sample.status_only 500 []]
                      1735689600
                      (set_ACCESS_TOKEN (PStr "a1")
                         (snd (refresh_access_token
                                 (Cases.stored "r0"
                                    [Sample.token_response "a1" "r1"] []))))))
              (PStr "a1") [Sample.hike 1 1%float; Sample.hike 3 2%float])
    as (rows & Hrows & Hmain & _);
    [intros s t; discriminate | reflexivity | reflexivity | reflexivity |].
  split; [reflexivity|].
  exists rows. split; [exact Hrows|].
  rewrite Hmain. cbn [snd files set_files]. apply lookup_insert_eq.
Defined.
